(** * rgbpp-sdk, packages/btc: the [DataSource] query layer

    A shallow embedding of [packages/btc/src/query/source.ts]: output
    lookup ([getOutput], [getUtxo], [isTransactionConfirmed]), UTXO listing
    ([getUtxos]) and satoshi collection ([collectSatoshi]).

    JavaScript [number]s that the service types as integers (vout, value,
    block height) are [Z], with exact arithmetic, and a block height may
    be missing; strings are [string];
    a [Map] is a [gmap]. An [async] method is a computation over the
    mutable part of the [DataSource] (its [DataCache]) and the list of
    requests sent to the service so far; it settles either with a value
    or with a thrown exception. The service is an oracle: a method of
    [BtcAssetsApi] gives the same answer to the same arguments. *)

From Stdlib Require Import ZArith Lia Ascii.
From stdpp Require Import base option list strings gmap pretty sorting.

Local Open Scope Z_scope.
Local Open Scope string_scope.

(** ** Errors *)

(** [ErrorCodes] of the btc package, as far as [source.ts] and the spec
    name its members. *)
Inductive ErrorCodes : Set :=
| UNKNOWN
| INSUFFICIENT_UTXO
| UNSUPPORTED_ADDRESS_TYPE
| UNSPENDABLE_OUTPUT
| UNCONFIRMED_UTXO.

(** [ErrorCodes] of the service package, imported by [source.ts] as
    [ServiceErrorCodes]. *)
Inductive ServiceErrorCodes : Set :=
| ASSETS_API_RESPONSE_ERROR
| ASSETS_API_RESPONSE_DECODE_ERROR
| ASSETS_API_UNAUTHORIZED
| ASSETS_API_INVALID_PARAM
| ASSETS_API_RESOURCE_NOT_FOUND.

(** [TxBuildError.withComment(code, comment)]: the code and the comment
    rendered by the template literal at the throw site. *)
Record TxBuildError : Set := withComment {
  code : ErrorCodes;
  comment : string
}.

(** How a call to the service fails: with a [BtcAssetsApiError], or
    because [fetch] itself failed. *)
Inductive ServiceFault : Set :=
| BtcAssetsApiError (code : ServiceErrorCodes) (message : string)
| FetchFailed (message : string).

(** The address helpers of [address.ts], a module that is not at hand. *)
Inductive Helper : Set :=
| GetAddressType
| AddressToScriptPublicKeyHex.

(** What an [async] method can reject with: an error of this package, a
    failure passed through from the service, the [TypeError] JavaScript
    raises on reading a property of [undefined], or whatever an address
    helper throws for an address it does not accept. [source.ts] neither
    catches nor names that error, so it is kept as it comes: the error of
    that helper for that input. *)
Inductive Exn : Set :=
| BuildError (e : TxBuildError)
| ServiceFailure (f : ServiceFault)
| TypeError
| HelperError (helper : Helper) (input : string).

Inductive Outcome (A : Type) : Type :=
| Returned (a : A)
| Thrown (e : Exn).
Arguments Returned {A} a.
Arguments Thrown {A} e.

(** The promise of a service method: answered or rejected. *)
Inductive ServiceResult (A : Type) : Type :=
| Answered (a : A)
| Rejected (f : ServiceFault).
Arguments Answered {A} a.
Arguments Rejected {A} f.

(** ** Records of the service and of the transaction model *)

(** The [status] of a row or of a transaction. The service's answers
    are parsed JSON that nothing validates, and a transaction that is not
    in a block yet has no [block_height]: reading it gives [undefined]. *)
Record Status : Set := {
  confirmed : bool;
  block_height : option Z;
  block_hash : string;
  block_time : Z
}.

(** [BtcApiUtxo]: one row of the address's unspent list. *)
Record BtcApiUtxo : Set := {
  row_txid : string;
  row_vout : Z;
  row_value : Z;
  row_status : Status
}.

(** One entry of [BtcApiTransaction.vout]. *)
Record TxVout : Set := {
  scriptpubkey : string;
  scriptpubkey_asm : string;
  scriptpubkey_type : string;
  scriptpubkey_address : string;
  vout_value : Z
}.

(** [BtcApiTransaction]; the inputs ([vin]) are never read here. *)
Record BtcApiTransaction : Set := {
  tx_txid : string;
  tx_vout : list TxVout;
  tx_status : Status
}.

Record BtcApiUtxoParams : Set := {
  only_confirmed : option bool;
  min_satoshi : option Z;
  no_cache : option bool
}.

(** The answer of [getRgbppAssetsByBtcUtxo]: an array of cells (their
    content is never read), or anything else ([Array.isArray] tells
    them apart). *)
Inductive RgbppAssets : Set :=
| AssetArray (cells : list string)
| NotAnArray.

Inductive NetworkType : Set := MAINNET | TESTNET | REGTEST.

(** Modelled from the spec: the address-type enumeration of
    [address.ts], which the spec only names as an enum. *)
Inductive AddressType : Set :=
| P2PKH | P2SH_P2WPKH | P2WPKH | P2TR | P2SH | P2WSH | UNKNOWN_ADDRESS.

(** [Output]: any transaction output. *)
Record Output : Set := {
  o_txid : string;
  o_vout : Z;
  o_value : Z;
  o_scriptPk : string
}.

(** [Utxo]: an [Output] with the [address] and [addressType] keys. *)
Record Utxo : Set := {
  txid : string;
  vout : Z;
  value : Z;
  scriptPk : string;
  address : string;
  addressType : AddressType
}.

(** The [BtcAssetsApi] methods the data source calls. A method either
    answers or rejects; [getBtcTransaction] may answer with nothing. *)
Record BtcAssetsApi : Type := {
  getBtcTransaction : string -> ServiceResult (option BtcApiTransaction);
  getBtcUtxos : string -> option BtcApiUtxoParams -> ServiceResult (list BtcApiUtxo);
  getRgbppAssetsByBtcUtxo : string -> Z -> ServiceResult RgbppAssets
}.

(** Helpers imported from sibling modules of the package ([utils],
    [address], [transaction/embed]). [isOpReturnScriptPubkey] takes the
    script in hex, as [Buffer.from(_, 'hex')] receives it. An address
    helper that throws gives nothing here; what it throws is its own
    affair ([HelperError]). *)
Class Imports : Type := {
  remove0x : string -> string;
  isOpReturnScriptPubkey : string -> bool;
  getAddressType : string -> option AddressType;
  addressToScriptPublicKeyHex : string -> NetworkType -> option string
}.

(** ** The state an [async] method runs in *)

(** Modelled from the spec: the [DataCache] class of [cache.ts], as the
    two maps the spec describes, one from a caller's key to a list of
    candidates and one from ["txid:vout"] to the asset flag. *)
Record DataCache : Type := {
  cache_utxos : gmap string (list Utxo);
  cache_hasRgbppAssets : gmap string bool
}.

(** A request sent to the service. *)
Inductive Request : Set :=
| ReqTransaction (txId : string)
| ReqUtxos (address : string) (params : option BtcApiUtxoParams)
| ReqRgbppAssets (txid : string) (vout : Z).

Record Session : Type := {
  cache : DataCache;
  requests : list Request
}.

Record DataSource : Type := {
  service : BtcAssetsApi;
  networkType : NetworkType
}.

(** [new DataCache()] and a session that has sent nothing yet. *)
Definition newDataCache : DataCache :=
  {| cache_utxos := ∅; cache_hasRgbppAssets := ∅ |}.
Definition newSession : Session :=
  {| cache := newDataCache; requests := [] |}.

Definition Async (A : Type) : Type := Session -> Outcome A * Session.

Definition ret {A} (a : A) : Async A := fun s => (Returned a, s).
Definition throw {A} (e : Exn) : Async A := fun s => (Thrown e, s).
Definition bind {A B} (m : Async A) (k : A -> Async B) : Async B :=
  fun s =>
    match m s with
    | (Returned a, s') => k a s'
    | (Thrown e, s') => (Thrown e, s')
    end.

Notation "'let*' x ':=' m 'in' k" := (bind m (fun x => k))
  (at level 10, x name, m at level 100, k at level 200).
Notation "'let*' ' pat ':=' m 'in' k" :=
  (bind m (fun x => match x with pat => k end))
  (at level 10, pat pattern, m at level 100, k at level 200).

(** Sending a request: it is recorded, and the promise settles with the
    service's answer. *)
Definition request {A} (r : Request) (answer : ServiceResult A) : Async A :=
  fun s =>
    (match answer with
     | Answered a => Returned a
     | Rejected f => Thrown (ServiceFailure f)
     end,
     {| cache := cache s; requests := requests s ++ [r] |}).

(** A helper that may reject its argument. *)
Definition orThrow {A} (o : option A) (e : Exn) : Async A :=
  match o with
  | Some a => ret a
  | None => throw e
  end.

(** [`${n}`] for an integer [number]: its decimal digits, with a
    leading minus sign below zero. *)
Definition show (n : Z) : string := pretty n.

(** [array[index]]: [undefined] outside of [0 .. length - 1]. *)
Definition at_index {A} (l : list A) (index : Z) : option A :=
  if decide (0 <= index) then l !! Z.to_nat index else None.

Section DataSource.
Context {imports : Imports}.
Variable this : DataSource.

(** ** Output lookup *)

Definition getOutput (hash : string) (index : Z) (requireConfirmed : option bool)
  : Async (option (Output + Utxo)) :=
  let txId := remove0x hash in
  let* tx := request (ReqTransaction txId) (getBtcTransaction (service this) txId) in
  match tx with
  | None => ret None
  | Some tx =>
    if (default false requireConfirmed && negb (confirmed (tx_status tx)))%bool then
      throw (BuildError (withComment UNCONFIRMED_UTXO
               ("hash: " ++ hash ++ ", index: " ++ show index)))
    else
      match at_index (tx_vout tx) index with
      | None => ret None
      | Some vout =>
        if isOpReturnScriptPubkey (scriptpubkey vout) then
          ret (Some (inl {| o_txid := txId;
                            o_vout := index;
                            o_value := vout_value vout;
                            o_scriptPk := scriptpubkey vout |}))
        else
          let* ty := orThrow (getAddressType (scriptpubkey_address vout))
                  (HelperError GetAddressType (scriptpubkey_address vout)) in
          ret (Some (inr {| txid := txId;
                            vout := index;
                            value := vout_value vout;
                            scriptPk := scriptpubkey vout;
                            address := scriptpubkey_address vout;
                            addressType := ty |}))
      end
  end.

Definition getUtxo (hash : string) (index : Z) (requireConfirmed : option bool)
  : Async (option Utxo) :=
  let* output := getOutput hash index requireConfirmed in
  match output with
  | Some (inl _) =>
    throw (BuildError (withComment UNSPENDABLE_OUTPUT
             ("hash: " ++ hash ++ ", index: " ++ show index)))
  | Some (inr utxo) => ret (Some utxo)
  | None => ret None
  end.

Definition isTransactionConfirmed (hash : string) : Async bool :=
  let* tx := request (ReqTransaction (remove0x hash))
          (getBtcTransaction (service this) (remove0x hash)) in
  match tx with
  | Some tx => ret (confirmed (tx_status tx))
  | None => throw TypeError
  end.

End DataSource.

(** ** [Array.prototype.sort] *)

(** A [number] as a compare function returns it: an integer or NaN. *)
Inductive number : Set :=
| Number (n : Z)
| NaN.

(** [a - b] for two property reads: [undefined] on either side gives
    NaN. *)
Definition minus (a b : option Z) : number :=
  match a, b with
  | Some a, Some b => Number (a - b)
  | _, _ => NaN
  end.

(** SortCompare of ECMAScript: the number the compare function returns,
    with NaN read as +0. *)
Definition SortCompare {A} (compareFn : A -> A -> number) (x y : A) : Z :=
  match compareFn x y with
  | Number v => v
  | NaN => 0
  end.

(** [sort] with a compare function is stable: an element is placed
    before the first element of the sorted rest that does not compare
    below it, so elements that compare equal keep their input order.
    With a compare function that is not consistent the language leaves
    the order to the engine; the order below is that of an insertion
    from the right. *)
Fixpoint sort_insert {A} (compareFn : A -> A -> number) (x : A) (l : list A) : list A :=
  match l with
  | [] => [x]
  | y :: l' =>
    if decide (SortCompare compareFn x y <= 0) then x :: y :: l'
    else y :: sort_insert compareFn x l'
  end.

Definition sort {A} (compareFn : A -> A -> number) (l : list A) : list A :=
  foldr (sort_insert compareFn) [] l.

(** [array.map(f)] for a callback that may throw. *)
Fixpoint mapAsync {A B} (f : A -> Async B) (l : list A) : Async (list B) :=
  match l with
  | [] => ret []
  | x :: l' =>
    let* y := f x in
    let* ys := mapAsync f l' in
    ret (y :: ys)
  end.

(** ** [DataCache] *)

(** Modelled from the spec: the writes and reads of the two maps of
    [cache.ts]. *)
Definition setUtxos (key : string) (utxos : list Utxo) : Async unit :=
  fun s =>
    (Returned tt,
     {| cache := {| cache_utxos := <[key := utxos]> (cache_utxos (cache s));
                    cache_hasRgbppAssets := cache_hasRgbppAssets (cache s) |};
        requests := requests s |}).

Definition setHasRgbppAssets (key : string) (has : bool) : Async unit :=
  fun s =>
    (Returned tt,
     {| cache := {| cache_utxos := cache_utxos (cache s);
                    cache_hasRgbppAssets := <[key := has]> (cache_hasRgbppAssets (cache s)) |};
        requests := requests s |}).

Definition readCache : Async DataCache := fun s => (Returned (cache s), s).

(** Modelled from the spec: [DataCache.optionalCacheUtxos] of [cache.ts],
    which is not part of the sources at hand. Without a key the getter
    always runs; with a key that holds a value the value is returned and
    the getter does not run; with an unseen key the getter runs once and
    its value is stored. A getter that fails stores nothing. *)
Definition optionalCacheUtxos (key : option string) (getter : Async (list Utxo))
  : Async (list Utxo) :=
  match key with
  | None => getter
  | Some k =>
    let* c := readCache in
    match cache_utxos c !! k with
    | Some utxos => ret utxos
    | None =>
      let* utxos := getter in
      let* _ := setUtxos k utxos in
      ret utxos
    end
  end.

(** Modelled from the spec: [DataCache.optionalCacheHasRgbppAssets] of
    [cache.ts], with the same contract on the second map. *)
Definition optionalCacheHasRgbppAssets (key : option string) (getter : Async bool)
  : Async bool :=
  match key with
  | None => getter
  | Some k =>
    let* c := readCache in
    match cache_hasRgbppAssets c !! k with
    | Some has => ret has
    | None =>
      let* has := getter in
      let* _ := setHasRgbppAssets k has in
      ret has
    end
  end.

Arguments optionalCacheUtxos : simpl never.
Arguments optionalCacheHasRgbppAssets : simpl never.

(** ** Listing and collecting *)

Record ExcludeUtxo : Set := {
  exclude_txid : string;
  exclude_vout : Z
}.

(** The [props] of [collectSatoshi]; a field marked [?] is an option. *)
Record CollectProps : Set := {
  props_address : string;
  targetAmount : Z;
  minUtxoSatoshi : option Z;
  allowInsufficient : option bool;
  onlyNonRgbppUtxos : option bool;
  onlyConfirmedUtxos : option bool;
  noAssetsApiCache : option bool;
  internalCacheKey : option string;
  excludeUtxos : option (list ExcludeUtxo)
}.

(** What [collectSatoshi] resolves with. *)
Record Collected : Set := {
  utxos : list Utxo;
  satoshi : Z;
  exceedSatoshi : Z
}.

(** The compare function of [getUtxos]. A row without a block height
    differs from every row that has one, and the difference is NaN; two
    rows without one are told apart by [vout]. *)
Definition compareUtxos (a b : BtcApiUtxo) : number :=
  let aBlockHeight := block_height (row_status a) in
  let bBlockHeight := block_height (row_status b) in
  if decide (aBlockHeight ≠ bBlockHeight) then minus aBlockHeight bBlockHeight
  else Number (row_vout a - row_vout b).

(** How a pass through a loop body ends: with [break], or with the next
    iteration (after [continue] or at the end of the body) and the
    values the loop variables then have. *)
Inductive Flow : Set :=
| Break
| Next (collected : list Utxo) (collectedAmount : Z).

(** [Array.isArray(x) && x.length > 0] *)
Definition isNonEmptyArray (x : RgbppAssets) : bool :=
  match x with
  | AssetArray cells => bool_decide (0 < length cells)%nat
  | NotAnArray => false
  end.

(** The [find] callback over [excludeUtxos]. *)
Definition matchesExclude (utxo : Utxo) (exclude : ExcludeUtxo) : bool :=
  bool_decide (exclude_txid exclude = txid utxo) &&
  bool_decide (exclude_vout exclude = vout utxo).

(** [`${utxo.txid}:${utxo.vout}`] *)
Definition assetsKey (utxo : Utxo) : string :=
  txid utxo ++ ":" ++ show (vout utxo).

Section Collect.
Context {imports : Imports}.
Variable this : DataSource.

Definition getUtxos (address : string) (params : option BtcApiUtxoParams)
  : Async (list Utxo) :=
  let* rows := request (ReqUtxos address params)
                 (getBtcUtxos (service this) address params) in
  let* scriptPk := orThrow (addressToScriptPublicKeyHex address (networkType this))
                     (HelperError AddressToScriptPublicKeyHex address) in
  mapAsync
    (fun row =>
       let* ty := orThrow (getAddressType address)
                    (HelperError GetAddressType address) in
       ret {| address := address;
              scriptPk := scriptPk;
              txid := row_txid row;
              vout := row_vout row;
              value := row_value row;
              addressType := ty |})
    (sort compareUtxos rows).

(** The getter handed to [optionalCacheHasRgbppAssets]. *)
Definition hasRgbppAssetsGetter (utxo : Utxo) : Async bool :=
  let* ckbRgbppAssets :=
    request (ReqRgbppAssets (txid utxo) (vout utxo))
      (getRgbppAssetsByBtcUtxo (service this) (txid utxo) (vout utxo)) in
  ret (isNonEmptyArray ckbRgbppAssets).

Section Loop.
Variable targetAmount' : Z.
Variable excludeUtxos' : list ExcludeUtxo.
Variable onlyNonRgbppUtxos' : option bool.

(** One pass through the body of the [for ... of] loop for [utxo], from
    the values of [collected] and [collectedAmount]. *)
Definition loopBody (utxo : Utxo) (collected : list Utxo) (collectedAmount : Z)
  : Async Flow :=
  if decide (collectedAmount >= targetAmount') then ret Break
  else if (bool_decide (0 < length excludeUtxos')%nat &&
           bool_decide (is_Some (List.find (matchesExclude utxo) excludeUtxos')))%bool then
    ret (Next collected collectedAmount)
  else
    let* hasRgbppAssets :=
      (if default false onlyNonRgbppUtxos' then
         optionalCacheHasRgbppAssets (Some (assetsKey utxo))
           (hasRgbppAssetsGetter utxo)
       else ret false) in
    if hasRgbppAssets then ret (Next collected collectedAmount)
    else ret (Next (collected ++ [utxo]) (collectedAmount + value utxo)).

(** The loop over the candidates still to visit. *)
Fixpoint collectLoop (candidates : list Utxo) (collected : list Utxo)
    (collectedAmount : Z) : Async (list Utxo * Z) :=
  match candidates with
  | [] => ret (collected, collectedAmount)
  | utxo :: rest =>
    let* flow := loopBody utxo collected collectedAmount in
    match flow with
    | Break => ret (collected, collectedAmount)
    | Next collected' collectedAmount' => collectLoop rest collected' collectedAmount'
    end
  end.
End Loop.

Definition collectSatoshi (props : CollectProps) : Async Collected :=
  let allowInsufficient' := default false (allowInsufficient props) in
  let excludeUtxos' := default [] (excludeUtxos props) in
  let* utxos :=
    optionalCacheUtxos (internalCacheKey props)
      (getUtxos (props_address props)
         (Some {| only_confirmed := onlyConfirmedUtxos props;
                  min_satoshi := minUtxoSatoshi props;
                  no_cache := noAssetsApiCache props |})) in
  let* '(collected, collectedAmount) :=
    collectLoop (targetAmount props) excludeUtxos' (onlyNonRgbppUtxos props)
      utxos [] 0 in
  if (negb allowInsufficient' && bool_decide (collectedAmount < targetAmount props))%bool then
    throw (BuildError (withComment INSUFFICIENT_UTXO
             ("expected: " ++ show (targetAmount props) ++
              ", actual: " ++ show collectedAmount)))
  else
    ret {| utxos := collected;
           satoshi := collectedAmount;
           exceedSatoshi := collectedAmount - targetAmount props |}.

End Collect.

(** ** A test double for the service

    Concrete helpers and a small in-memory service, in the manner of the
    mocks a unit test of [DataSource] would use. *)
Module Fixture.

Definition strip0x (s : string) : string :=
  match s with
  | String "0"%char (String "x"%char rest) => rest
  | _ => s
  end.

(** A script is a data carrier when it starts with OP_RETURN (6a). *)
Definition startsWithOpReturn (hex : string) : bool :=
  match hex with
  | String "6"%char (String "a"%char _) => true
  | _ => false
  end.

Definition imports : Imports :=
  {| remove0x := strip0x;
     isOpReturnScriptPubkey := startsWithOpReturn;
     getAddressType := fun a => if decide (a = "") then None else Some P2WPKH;
     addressToScriptPublicKeyHex := fun a _ => Some ("0014" ++ a) |}.

Definition confirmedAt (h : Z) : Status :=
  {| confirmed := true; block_height := Some h; block_hash := ""; block_time := 0 |}.
Definition unconfirmed : Status :=
  {| confirmed := false; block_height := None; block_hash := ""; block_time := 0 |}.

Definition row (t : string) (h v val : Z) : BtcApiUtxo :=
  {| row_txid := t; row_vout := v; row_value := val; row_status := confirmedAt h |}.

(** The three candidates of the worked example. *)
Definition rows : list BtcApiUtxo :=
  [row "aa" 100 0 5000; row "aa" 100 1 3000; row "bb" 90 0 2000].

Definition payment : TxVout :=
  {| scriptpubkey := "0014ab"; scriptpubkey_asm := ""; scriptpubkey_type := "v0_p2wpkh";
     scriptpubkey_address := "tb1q"; vout_value := 5000 |}.
Definition dataCarrier : TxVout :=
  {| scriptpubkey := "6a20ff"; scriptpubkey_asm := ""; scriptpubkey_type := "op_return";
     scriptpubkey_address := ""; vout_value := 0 |}.

(** "aa" is confirmed with a data carrier at index 0 and a payment at
    index 1; "cc" is unconfirmed and has no outputs listed; any other
    transaction is unknown to the service. *)
Definition transactions (txId : string) : ServiceResult (option BtcApiTransaction) :=
  if decide (txId = "aa") then
    Answered (Some {| tx_txid := "aa"; tx_vout := [dataCarrier; payment];
                      tx_status := confirmedAt 100 |})
  else if decide (txId = "cc") then
    Answered (Some {| tx_txid := "cc"; tx_vout := []; tx_status := unconfirmed |})
  else Answered None.

(** Output "aa":1 carries an asset, the others carry none. *)
Definition assets (t : string) (v : Z) : ServiceResult RgbppAssets :=
  if decide (t = "aa" ∧ v = 1) then Answered (AssetArray ["cell"])
  else Answered (AssetArray []).

Definition api : BtcAssetsApi :=
  {| getBtcTransaction := transactions;
     getBtcUtxos := fun _ _ => Answered rows;
     getRgbppAssetsByBtcUtxo := assets |}.

(** A service whose listing endpoint is down. *)
Definition apiDown : BtcAssetsApi :=
  {| getBtcTransaction := transactions;
     getBtcUtxos := fun _ _ =>
       Rejected (BtcAssetsApiError ASSETS_API_RESPONSE_ERROR "503");
     getRgbppAssetsByBtcUtxo := assets |}.

Definition source : DataSource := {| service := api; networkType := TESTNET |}.

Definition sourceDown : DataSource := {| service := apiDown; networkType := TESTNET |}.

(** A row of a transaction that is not in a block yet. *)
Definition pending (t : string) (v val : Z) : BtcApiUtxo :=
  {| row_txid := t; row_vout := v; row_value := val; row_status := unconfirmed |}.

(** A listing with such a row between two rows that are in a block. *)
Definition rowsPending : list BtcApiUtxo :=
  [row "aa" 100 0 5000; pending "ee" 0 1000; row "bb" 90 0 2000].

Definition sourcePending : DataSource :=
  {| service := {| getBtcTransaction := transactions;
                   getBtcUtxos := fun _ _ => Answered rowsPending;
                   getRgbppAssetsByBtcUtxo := assets |};
     networkType := TESTNET |}.

(** A fourth row, confirmed after the three of [rows]. *)
Definition rowsFour : list BtcApiUtxo := (rows ++ [row "dd" 110 0 4000])%list.

Definition sourceFour : DataSource :=
  {| service := {| getBtcTransaction := transactions;
                   getBtcUtxos := fun _ _ => Answered rowsFour;
                   getRgbppAssetsByBtcUtxo := assets |};
     networkType := TESTNET |}.

Definition props (target : Z) : CollectProps :=
  {| props_address := "tb1q";
     targetAmount := target;
     minUtxoSatoshi := None;
     allowInsufficient := None;
     onlyNonRgbppUtxos := None;
     onlyConfirmedUtxos := None;
     noAssetsApiCache := None;
     internalCacheKey := None;
     excludeUtxos := None |}.

(** The candidate the listing yields for a row of [rows]. *)
Definition utxo (t : string) (v val : Z) : Utxo :=
  {| txid := t; vout := v; value := val; scriptPk := "0014tb1q";
     address := "tb1q"; addressType := P2WPKH |}.

(** The candidates in the order [getUtxos] yields them. *)
Definition candidates : list Utxo :=
  [utxo "bb" 0 2000; utxo "aa" 0 5000; utxo "aa" 1 3000].

(** Target 5000 with output "bb":0 excluded, outputs with assets
    left out, and the list cached under a key. *)
Definition propsExcluding : CollectProps :=
  {| props_address := "tb1q";
     targetAmount := 5000;
     minUtxoSatoshi := None;
     allowInsufficient := None;
     onlyNonRgbppUtxos := Some true;
     onlyConfirmedUtxos := None;
     noAssetsApiCache := None;
     internalCacheKey := Some "session";
     excludeUtxos := Some [ {| exclude_txid := "bb"; exclude_vout := 0 |} ] |}.

(** Target 8000, outputs with assets left out, a shortfall allowed. *)
Definition propsNonRgbpp : CollectProps :=
  {| props_address := "tb1q";
     targetAmount := 8000;
     minUtxoSatoshi := None;
     allowInsufficient := Some true;
     onlyNonRgbppUtxos := Some true;
     onlyConfirmedUtxos := None;
     noAssetsApiCache := None;
     internalCacheKey := None;
     excludeUtxos := None |}.

(** The candidates [getUtxos] yields for [rowsFour]. *)
Definition candidatesFour : list Utxo :=
  [utxo "bb" 0 2000; utxo "aa" 0 5000; utxo "aa" 1 3000; utxo "dd" 0 4000].

(** Target 8000 with output "bb":0 excluded and outputs with assets
    left out. *)
Definition propsFiltered : CollectProps :=
  {| props_address := "tb1q";
     targetAmount := 8000;
     minUtxoSatoshi := None;
     allowInsufficient := None;
     onlyNonRgbppUtxos := Some true;
     onlyConfirmedUtxos := None;
     noAssetsApiCache := None;
     internalCacheKey := None;
     excludeUtxos := Some [ {| exclude_txid := "bb"; exclude_vout := 0 |} ] |}.

End Fixture.

(** ** Vocabulary of the statements *)

(** The script of whatever [getOutput] resolved to. *)
Definition scriptOf (o : Output + Utxo) : string :=
  match o with
  | inl o => o_scriptPk o
  | inr u => scriptPk u
  end.

(** ['address' in output] *)
Definition hasAddress (o : Output + Utxo) : bool :=
  match o with
  | inl _ => false
  | inr _ => true
  end.

(** The comment of the errors of [getOutput] and [getUtxo]. *)
Definition hashIndex (hash : string) (index : Z) : string :=
  "hash: " ++ hash ++ ", index: " ++ show index.

(** The [Utxo] that the [map] callback of [getUtxos] builds from a row. *)
Definition rowToUtxo (address scriptPk : string) (ty : AddressType)
    (row : BtcApiUtxo) : Utxo :=
  {| address := address;
     scriptPk := scriptPk;
     txid := row_txid row;
     vout := row_vout row;
     value := row_value row;
     addressType := ty |}.

(** A row that carries a block height. *)
Definition carriesHeight (r : BtcApiUtxo) : Prop :=
  is_Some (block_height (row_status r)).

(** Ascending order on (confirmation block height, vout index), between
    rows that carry a block height. *)
Definition rowLe (a b : BtcApiUtxo) : Prop :=
  match block_height (row_status a), block_height (row_status b) with
  | Some ha, Some hb => ha < hb \/ (ha = hb /\ row_vout a <= row_vout b)
  | _, _ => False
  end.

(** The rows whose two sort keys are [h] and [v], in list order; [h] is
    [None] for the rows without a block height. *)
Definition rowsAt (h : option Z) (v : Z) (rows : list BtcApiUtxo) : list BtcApiUtxo :=
  filter (fun r => block_height (row_status r) = h /\ row_vout r = v) rows.

(** Whether a string contains a colon. *)
Fixpoint hasColon (s : string) : bool :=
  match s with
  | EmptyString => false
  | String c rest => bool_decide (c = ":"%char) || hasColon rest
  end.

(** The test at the head of the loop body: the exclusion list is not
    empty and [find] returns one of its entries. *)
Definition isExcluded (excludeUtxos : list ExcludeUtxo) (utxo : Utxo) : bool :=
  bool_decide (0 < length excludeUtxos)%nat &&
  bool_decide (is_Some (List.find (matchesExclude utxo) excludeUtxos)).

(** What the lookup of [utxo] through the [hasRgbppAssets] map of the
    cache [c] resolves with: the stored flag, or else whether the service
    answers with a non-empty array; nothing when the service rejects. *)
Definition lookupHasRgbppAssets (this : DataSource) (c : DataCache) (utxo : Utxo)
  : option bool :=
  match cache_hasRgbppAssets c !! assetsKey utxo with
  | Some has => Some has
  | None =>
    match getRgbppAssetsByBtcUtxo (service this) (txid utxo) (vout utxo) with
    | Answered a => Some (isNonEmptyArray a)
    | Rejected _ => None
    end
  end.

(** A candidate passes the two filters of the loop when it is not
    excluded and, if only outputs without assets are wanted, its lookup
    does not resolve with [true]. *)
Definition passesFilters (this : DataSource) (c : DataCache)
    (excludeUtxos : list ExcludeUtxo) (onlyNonRgbppUtxos : option bool)
    (utxo : Utxo) : bool :=
  negb (isExcluded excludeUtxos utxo) &&
  negb (default false onlyNonRgbppUtxos &&
        bool_decide (lookupHasRgbppAssets this c utxo = Some true)).

(** The candidates that pass the filters, in order. *)
Definition passing (this : DataSource) (c : DataCache)
    (excludeUtxos : list ExcludeUtxo) (onlyNonRgbppUtxos : option bool)
    (candidates : list Utxo) : list Utxo :=
  filter (fun u => passesFilters this c excludeUtxos onlyNonRgbppUtxos u = true)
    candidates.

(** ** The filters in the spec's words

    The selection is stated against these, not against the callbacks of
    the loop: [passing] above is what the code computes, [surviving]
    below is what the spec asks for. *)

(** The output appears in the exclusion list, matched by exact
    (txid, vout). *)
Definition namedByExclusion (excludeUtxos : list ExcludeUtxo) (u : Utxo) : Prop :=
  Exists (fun e => exclude_txid e = txid u /\ exclude_vout e = vout u) excludeUtxos.

(** The asset-binding lookup of the output returns a non-empty list:
    the flag stored under "txid:vout" says so, or none is stored and the
    service answers with an array of at least one cell. *)
Definition carriesAssets (this : DataSource) (c : DataCache) (u : Utxo) : Prop :=
  match cache_hasRgbppAssets c !! (txid u ++ ":" ++ show (vout u)) with
  | Some stored => stored = true
  | None =>
    match getRgbppAssetsByBtcUtxo (service this) (txid u) (vout u) with
    | Answered (AssetArray (_ :: _)) => True
    | _ => False
    end
  end.

#[global] Instance carriesAssets_dec this c u : Decision (carriesAssets this c u).
Proof.
  unfold carriesAssets.
  destruct (cache_hasRgbppAssets c !! _); [apply _|].
  destruct (getRgbppAssetsByBtcUtxo _ _ _) as [[[|? ?]|]|]; apply _.
Defined.

(** A candidate survives the two filters: the exclusion list does not
    name it and, if asset exclusion is requested, it carries no asset. *)
Definition survives (this : DataSource) (c : DataCache)
    (excludeUtxos : list ExcludeUtxo) (onlyNonRgbppUtxos : option bool)
    (u : Utxo) : Prop :=
  ~ namedByExclusion excludeUtxos u
  /\ (default false onlyNonRgbppUtxos = true -> ~ carriesAssets this c u).

#[global] Instance survives_dec this c excludeUtxos onlyNonRgbppUtxos u :
  Decision (survives this c excludeUtxos onlyNonRgbppUtxos u).
Proof. unfold survives, namedByExclusion. apply _. Defined.

(** The filtered candidate list of the spec. *)
Definition surviving (this : DataSource) (c : DataCache)
    (excludeUtxos : list ExcludeUtxo) (onlyNonRgbppUtxos : option bool)
    (candidates : list Utxo) : list Utxo :=
  filter (survives this c excludeUtxos onlyNonRgbppUtxos) candidates.

(** The sum of the values of a list of outputs. *)
Definition totalValue (l : list Utxo) : Z := foldr (fun u acc => value u + acc) 0 l.
Arguments totalValue : simpl never.

(** The shortest prefix of [l] that lifts the running amount [acc] to
    [target] or above; all of [l] when no prefix does. *)
Fixpoint takeUntil (target : Z) (l : list Utxo) (acc : Z) : list Utxo :=
  match l with
  | [] => []
  | u :: rest =>
    if decide (acc >= target) then []
    else u :: takeUntil target rest (acc + value u)
  end.

(** The candidates [collectSatoshi] iterates over: the value of
    [optionalCacheUtxos] for the key and the getter it passes. *)
Definition fetchCandidates {imports : Imports} (this : DataSource)
    (props : CollectProps) : Async (list Utxo) :=
  optionalCacheUtxos (internalCacheKey props)
    (getUtxos this (props_address props)
       (Some {| only_confirmed := onlyConfirmedUtxos props;
                min_satoshi := minUtxoSatoshi props;
                no_cache := noAssetsApiCache props |})).

(** Whether a request asks for the unspent list of an address. *)
Definition isListing (r : Request) : bool :=
  match r with
  | ReqUtxos _ _ => true
  | _ => false
  end.

(** The listing requests sent so far, oldest first. *)
Definition listingRequests (s : Session) : list Request :=
  filter (fun r => isListing r = true) (requests s).

(** [s'] differs from [s] by asset lookups only: the cached lists and
    the listing requests are the same, and every lookup through the
    cache resolves as before. *)
Definition onlyLookups (this : DataSource) (s s' : Session) : Prop :=
  cache_utxos (cache s') = cache_utxos (cache s)
  /\ listingRequests s' = listingRequests s
  /\ forall u, lookupHasRgbppAssets this (cache s') u
               = lookupHasRgbppAssets this (cache s) u.

(** The comment of the INSUFFICIENT_UTXO error. *)
Definition expectedActual (target actual : Z) : string :=
  "expected: " ++ show target ++ ", actual: " ++ show actual.

(** ** Calls that overlap

    An [async] call runs in turns: from one [await] to the next nothing
    else runs, and at an [await] any other call may take a turn. *)

(** The getter [collectSatoshi] hands to [optionalCacheUtxos]. *)
Definition utxosGetter {imports : Imports} (this : DataSource)
    (props : CollectProps) : Async (list Utxo) :=
  getUtxos this (props_address props)
    (Some {| only_confirmed := onlyConfirmedUtxos props;
             min_satoshi := minUtxoSatoshi props;
             no_cache := noAssetsApiCache props |}).

(** The listing request of a call. *)
Definition listingRequest (props : CollectProps) : Request :=
  ReqUtxos (props_address props)
    (Some {| only_confirmed := onlyConfirmedUtxos props;
             min_satoshi := minUtxoSatoshi props;
             no_cache := noAssetsApiCache props |}).

(** The listing of a call resolves with [v], whenever it is asked. *)
Definition listingResolves {imports : Imports} (this : DataSource)
    (props : CollectProps) (v : list Utxo) : Prop :=
  forall s, fst (utxosGetter this props s) = Returned v.

(** The last statements of [collectSatoshi], after the loop. *)
Definition finish (props : CollectProps) (collected : list Utxo)
    (collectedAmount : Z) : Outcome Collected :=
  if (negb (default false (allowInsufficient props))
      && bool_decide (collectedAmount < targetAmount props))%bool then
    Thrown (BuildError (withComment INSUFFICIENT_UTXO
              (expectedActual (targetAmount props) collectedAmount)))
  else
    Returned {| utxos := collected;
                satoshi := collectedAmount;
                exceedSatoshi := collectedAmount - targetAmount props |}.

Module Concurrent.

(** The promise an [optionalCacheUtxos] call waits for: the getter's
    request is out and its outcome is still to arrive, or the outcome
    has arrived. The service being an oracle, the outcome to arrive is
    fixed when the request is sent. An in-flight promise remembers the
    key it was made for. *)
Inductive Promise : Type :=
| InFlight (key : option string) (o : Outcome (list Utxo))
| Settled (o : Outcome (list Utxo)).

(** Where a [collectSatoshi] call stands: not yet started; suspended in
    [await this.cache.optionalCacheUtxos(...)] on a promise; in the loop
    with the list it received, before a pass through the body; or
    settled, with the list it received, if any. *)
Inductive Task : Type :=
| Start (props : CollectProps)
| AwaitUtxos (props : CollectProps) (p : nat)
| Looping (props : CollectProps) (received rest collected : list Utxo)
    (collectedAmount : Z)
| Done (received : option (list Utxo)) (o : Outcome Collected).

(** Modelled from the spec: the entries of the cache of [cache.ts] while
    calls overlap. Next to the stored lists of the [Session], a key may
    hold an in-flight promise ([inflight]) that every call with that key
    shares until it settles. *)
Record World : Type := {
  session : Session;
  inflight : gmap string nat;
  promises : list Promise;
  tasks : list Task
}.

Definition start (s : Session) (calls : list CollectProps) : World :=
  {| session := s; inflight := ∅; promises := []; tasks := Start <$> calls |}.

Definition setTask (i : nat) (t : Task) (w : World) : World :=
  {| session := session w; inflight := inflight w; promises := promises w;
     tasks := <[i := t]> (tasks w) |}.

(** The list a call has received from [optionalCacheUtxos]. *)
Definition received (t : Task) : option (list Utxo) :=
  match t with
  | Looping _ v _ _ _ => Some v
  | Done (Some v) _ => Some v
  | _ => None
  end.

(** Whether a call has settled. *)
Definition finished (t : Task) : bool :=
  match t with
  | Done _ _ => true
  | _ => false
  end.

(** What a call settles with once its loop has ended or failed. *)
Definition settleWith (props : CollectProps) (r : Outcome (list Utxo * Z))
  : Outcome Collected :=
  match r with
  | Returned (collected, collectedAmount) => finish props collected collectedAmount
  | Thrown e => Thrown e
  end.

Section Steps.
Context {imports : Imports}.
Variable this : DataSource.

(** Modelled from the spec: one turn of the event loop, with the
    single-flight contract of [optionalCacheUtxos]. A call whose key
    holds neither a list nor a promise (or that has no key) runs the
    getter and, with a key, leaves the promise under the key
    ([step_call_fresh]); a call that finds a promise under its key waits
    for that promise ([step_call_join]); a call that finds a list
    receives it ([step_call_hit]). When an outcome arrives the promise
    leaves the key, and a list that arrived is stored; a failure stores
    nothing ([step_settle]). The other turns are those of
    [collectSatoshi] itself: resuming after the [await], a pass through
    the loop body (its asset lookup included), and the statements after
    the loop. *)
Inductive step : World -> World -> Prop :=
| step_call_fresh w i props o s' :
    tasks w !! i = Some (Start props) ->
    (forall k, internalCacheKey props = Some k ->
               cache_utxos (cache (session w)) !! k = None
               /\ inflight w !! k = None) ->
    utxosGetter this props (session w) = (o, s') ->
    step w
      {| session := s';
         inflight := match internalCacheKey props with
                     | Some k => <[k := length (promises w)]> (inflight w)
                     | None => inflight w
                     end;
         promises := promises w ++ [InFlight (internalCacheKey props) o];
         tasks := <[i := AwaitUtxos props (length (promises w))]> (tasks w) |}
| step_call_join w i props k p :
    tasks w !! i = Some (Start props) ->
    internalCacheKey props = Some k ->
    cache_utxos (cache (session w)) !! k = None ->
    inflight w !! k = Some p ->
    step w (setTask i (AwaitUtxos props p) w)
| step_call_hit w i props k v :
    tasks w !! i = Some (Start props) ->
    internalCacheKey props = Some k ->
    cache_utxos (cache (session w)) !! k = Some v ->
    step w
      {| session := session w;
         inflight := inflight w;
         promises := promises w ++ [Settled (Returned v)];
         tasks := <[i := AwaitUtxos props (length (promises w))]> (tasks w) |}
| step_settle w p key o :
    promises w !! p = Some (InFlight key o) ->
    step w
      {| session := match key, o with
                    | Some k, Returned v => snd (setUtxos k v (session w))
                    | _, _ => session w
                    end;
         inflight := match key with
                     | Some k => delete k (inflight w)
                     | None => inflight w
                     end;
         promises := <[p := Settled o]> (promises w);
         tasks := tasks w |}
| step_resume w i props p o :
    tasks w !! i = Some (AwaitUtxos props p) ->
    promises w !! p = Some (Settled o) ->
    step w
      (setTask i
         match o with
         | Returned v => Looping props v v [] 0
         | Thrown e => Done None (Thrown e)
         end w)
| step_iterate w i props v utxo rest collected amount flow s' :
    tasks w !! i = Some (Looping props v (utxo :: rest) collected amount) ->
    loopBody this (targetAmount props) (default [] (excludeUtxos props))
      (onlyNonRgbppUtxos props) utxo collected amount (session w) = (flow, s') ->
    step w
      {| session := s';
         inflight := inflight w;
         promises := promises w;
         tasks := <[i := match flow with
                         | Returned (Next collected' amount') =>
                             Looping props v rest collected' amount'
                         | Returned Break =>
                             Done (Some v) (finish props collected amount)
                         | Thrown e => Done (Some v) (Thrown e)
                         end]> (tasks w) |}
| step_finish w i props v collected amount :
    tasks w !! i = Some (Looping props v [] collected amount) ->
    step w (setTask i (Done (Some v) (finish props collected amount)) w).

End Steps.

End Concurrent.

(** ** Further vocabulary: what is read off a resolved value *)

(** The [txid], [vout] and [value] of whatever [getOutput] resolved to. *)
Definition txidOf (o : Output + Utxo) : string :=
  match o with
  | inl o => o_txid o
  | inr u => txid u
  end.

Definition voutOf (o : Output + Utxo) : Z :=
  match o with
  | inl o => o_vout o
  | inr u => vout u
  end.

Definition valueOf (o : Output + Utxo) : Z :=
  match o with
  | inl o => o_value o
  | inr u => value u
  end.

(** What a row and the [Utxo] made from it have in common. *)
Definition rowPayload (r : BtcApiUtxo) : string * Z * Z :=
  (row_txid r, row_vout r, row_value r).

Definition utxoPayload (u : Utxo) : string * Z * Z :=
  (txid u, vout u, value u).

(** The sum of the values of the rows of a listing. *)
Definition rowsValue (rows : list BtcApiUtxo) : Z :=
  foldr (fun r acc => row_value r + acc) 0 rows.

(** What one lookup through the [hasRgbppAssets] map settles with: the
    stored flag, or else what the getter makes of the service's answer. *)
Definition lookupOutcome (this : DataSource) (c : DataCache) (utxo : Utxo)
  : Outcome bool :=
  match cache_hasRgbppAssets c !! assetsKey utxo with
  | Some has => Returned has
  | None =>
    match getRgbppAssetsByBtcUtxo (service this) (txid utxo) (vout utxo) with
    | Answered a => Returned (isNonEmptyArray a)
    | Rejected f => Thrown (ServiceFailure f)
    end
  end.

(** The request the getter of a lookup sends for [utxo]. *)
Definition lookupRequest (utxo : Utxo) : Request :=
  ReqRgbppAssets (txid utxo) (vout utxo).

(** The listing parameters [collectSatoshi] passes on. *)
Definition listingParams (props : CollectProps) : option BtcApiUtxoParams :=
  Some {| only_confirmed := onlyConfirmedUtxos props;
          min_satoshi := minUtxoSatoshi props;
          no_cache := noAssetsApiCache props |}.

(** Two rows that name the same output with the same value at the same
    block height; their other confirmation data may differ. *)
Definition sameOutput (r r' : BtcApiUtxo) : Prop :=
  row_txid r = row_txid r'
  /\ row_vout r = row_vout r'
  /\ row_value r = row_value r'
  /\ block_height (row_status r) = block_height (row_status r').

(** ** Paymaster lookup *)

Module Paymaster.

(** What [getRgbppPaymasterInfo] answers with; only these two fields are
    read. *)
Record BtcAssetsApiPaymasterInfo : Set := {
  btc_address : string;
  fee : Z
}.

(** [TxAddressOutput] of [transaction/build]. *)
Record TxAddressOutput : Set := {
  address : string;
  value : Z
}.

(** [err instanceof BtcAssetsApiError && err.code === ASSETS_API_RESOURCE_NOT_FOUND]. *)
Definition isNotFound (err : ServiceFault) : bool :=
  match err with
  | BtcAssetsApiError ASSETS_API_RESOURCE_NOT_FOUND _ => true
  | _ => false
  end.

(** [DataSource.getPaymasterOutput]. The method takes no argument and
    touches neither map of the cache, so it is a function of what the
    promise of [this.service.getRgbppPaymasterInfo()] settles with. *)
Definition getPaymasterOutput
    (getRgbppPaymasterInfo : ServiceResult BtcAssetsApiPaymasterInfo)
  : Outcome (option TxAddressOutput) :=
  match getRgbppPaymasterInfo with
  | Answered paymasterInfo =>
    Returned (Some {| address := btc_address paymasterInfo;
                      value := fee paymasterInfo |})
  | Rejected err =>
    if isNotFound err then Returned None
    else Thrown (ServiceFailure err)
  end.

End Paymaster.

(** ** The service client

    The [BtcAssetsApi] class that [source.ts] carries after the
    [DataSource]: the constructor, [init], [request], [post],
    [generateToken] and the endpoint methods. The mutable part of an
    instance is its [token]; a method is a computation over the instance
    and the list of [fetch] calls made so far. What the platform and the
    other modules provide ([fetch], [JSON], [URLSearchParams], [isDomain],
    the [ErrorMessages] table) is gathered in [Platform]. *)

Module Service.

(** A value as [JSON.parse] yields it. A [number] is kept abstract: the
    class only tests it for truth and turns it into text. An object
    holds a key once. *)
#[warnings="-register-all"] Inductive Json (Num : Type) : Type :=
| JNull
| JBool (b : bool)
| JNumber (n : Num)
| JString (s : string)
| JArray (items : list (Json Num))
| JObject (fields : list (string * Json Num)).
Arguments JNull {Num}.
Arguments JBool {Num} b.
Arguments JNumber {Num} n.
Arguments JString {Num} s.
Arguments JArray {Num} items.
Arguments JObject {Num} fields.

Inductive Method : Set := GET | POST.

(** The second argument of [fetch]; of the members of [RequestInit]
    that [request] passes on untouched only [body] is kept. *)
Record RequestInit : Type := {
  init_method : Method;
  init_headers : gmap string string;
  init_body : option string
}.

Record FetchCall : Type := {
  input : string;
  init : RequestInit
}.

(** A [Response]: [res.status], [res.ok], and the text [res.text()]
    resolves with, if it does. *)
Record Response : Type := {
  res_status : Z;
  res_ok : bool;
  res_text : option string
}.

Inductive FetchResult : Type :=
| Responded (res : Response)
| Failed (reason : string).

Class Platform : Type := {
  Num : Type;
  (** [!n] for a number: zero and NaN are falsy. *)
  numberIsFalsy : Num -> bool;
  (** [`${v}`] for a number, an array or an object. *)
  stringOfOther : Json Num -> string;
  JSON_parse : string -> option (Json Num);
  JSON_stringify : Json Num -> string;
  (** [Record<string, any>] and [new URLSearchParams(params).toString()]. *)
  Params : Type;
  searchParams : Params -> string;
  isDomain : string -> bool;
  ErrorMessages : ServiceErrorCodes -> option string;
  (** [fetch], which may answer a call by what was sent before it. *)
  fetch : list FetchCall -> FetchCall -> FetchResult
}.

(** [TxBuildError] as this class raises it. *)
Record TxBuildError : Set := {
  code : ServiceErrorCodes;
  message : string
}.

Inductive Error : Set :=
| BuildError (e : TxBuildError)
| FetchError (reason : string).

Inductive Result (A : Type) : Type :=
| Resolved (a : A)
| Raised (e : Error).
Arguments Resolved {A} a.
Arguments Raised {A} e.

(** A member of an object: missing, present with the value [undefined],
    or present with a value. *)
Inductive Member (A : Type) : Type :=
| Missing
| Undefined
| Given (a : A).
Arguments Missing {A}.
Arguments Undefined {A}.
Arguments Given {A} a.

(** The options of [request] and [post]. A member that is missing and a
    member that is [undefined] are read alike everywhere but in [post],
    which spreads the options over [{ method: 'POST' }]: there they
    differ for [method], which is why [opt_method] tells them apart. *)
Record BtcAssetsApiRequestOptions {platform : Platform} : Type := {
  opt_requireToken : option bool;
  opt_method : Member Method;
  opt_headers : option (gmap string string);
  opt_params : option Params;
  opt_body : option string
}.

Section Client.
Context {platform : Platform}.

(** A value of the platform at hand. *)
Local Abbreviation Value := (Json Num).

(** ** JavaScript's tests and conversions *)

Definition truthy (v : option Value) : bool :=
  match v with
  | None | Some JNull => false
  | Some (JBool b) => b
  | Some (JNumber n) => negb (numberIsFalsy n)
  | Some (JString s) => bool_decide (s <> "")
  | Some (JArray _) | Some (JObject _) => true
  end.

Definition truthyString (v : option string) : bool :=
  match v with
  | Some s => bool_decide (s <> "")
  | None => false
  end.

(** [v ?? w] *)
Definition orElse (v w : option Value) : option Value :=
  match v with
  | None | Some JNull => w
  | _ => v
  end.

(** [v.key] for a value that is not nullish; the keys read here are on
    no prototype, so only an object can hold them. *)
Definition get (key : string) (v : Value) : option Value :=
  match v with
  | JObject fields =>
    snd <$> List.find (fun field => bool_decide (fst field = key)) fields
  | _ => None
  end.

(** [v?.key] *)
Definition getOpt (key : string) (v : option Value) : option Value :=
  match v with
  | None | Some JNull => None
  | Some v => get key v
  end.

(** [`${v}`] *)
Definition template (v : option Value) : string :=
  match v with
  | None => "undefined"
  | Some JNull => "null"
  | Some (JBool true) => "true"
  | Some (JBool false) => "false"
  | Some (JString s) => s
  | Some v => stringOfOther v
  end.

Definition templateString (v : option string) : string :=
  default "undefined" v.

(** The constructor of [TxBuildError] ([error.ts]): without a message
    the table's entry for the code, or ['Unknown error']. *)
Definition newTxBuildError (code : ServiceErrorCodes) (message : option string)
  : TxBuildError :=
  {| code := code;
     message := match message with
                | Some message => message
                | None =>
                  if truthyString (ErrorMessages code)
                  then templateString (ErrorMessages code)
                  else "Unknown error"
                end |}.

(** ** The instance *)

Record Props : Type := {
  props_url : string;
  props_app : option string;
  props_domain : option string;
  props_origin : option string;
  props_token : option string
}.

Record BtcAssetsApi : Type := {
  url : string;
  app : option string;
  domain : option string;
  origin : option string;
  token : option Value
}.

(** [new BtcAssetsApi(props)] *)
Definition constructor (props : Props) : TxBuildError + BtcAssetsApi :=
  let this := {| url := props_url props;
                 app := props_app props;
                 domain := props_domain props;
                 origin := props_origin props;
                 token := JString <$> props_token props |} in
  if (truthyString (domain this)
      && match domain this with
         | Some domain => negb (isDomain domain) && bool_decide (domain <> "localhost")
         | None => false
         end)%bool then
    inl (newTxBuildError ASSETS_API_INVALID_PARAM
           (Some (templateString (ErrorMessages ASSETS_API_INVALID_PARAM) ++ ": domain")))
  else inr this.

Definition fromToken (url token : string) (origin : option string)
  : TxBuildError + BtcAssetsApi :=
  constructor {| props_url := url; props_app := None; props_domain := None;
                 props_origin := origin; props_token := Some token |}.

(** ** Methods *)

Record World : Type := {
  this : BtcAssetsApi;
  sent : list FetchCall
}.

Definition M (A : Type) : Type := World -> Result A * World.

Definition ret {A} (a : A) : M A := fun w => (Resolved a, w).
Definition throw {A} (e : TxBuildError) : M A := fun w => (Raised (BuildError e), w).
Definition bind {A B} (m : M A) (k : A -> M B) : M B :=
  fun w =>
    match m w with
    | (Resolved a, w') => k a w'
    | (Raised e, w') => (Raised e, w')
    end.

Definition getThis : M BtcAssetsApi := fun w => (Resolved (this w), w).

(** [this.token = value] *)
Definition setToken (value : option Value) : M unit :=
  fun w =>
    (Resolved tt,
     {| this := {| url := url (this w); app := app (this w);
                   domain := domain (this w); origin := origin (this w);
                   token := value |};
        sent := sent w |}).

(** [await fetch(input, init)] *)
Definition callFetch (call : FetchCall) : M Response :=
  fun w =>
    let w' := {| this := this w; sent := (sent w ++ [call])%list |} in
    match fetch (sent w) call with
    | Responded res => (Resolved res, w')
    | Failed reason => (Raised (FetchError reason), w')
    end.

(** The [try] block of [request], lines 377 to 386: [text], [json] and
    [ok] as it leaves them. *)
Definition readBody (res : Response)
  : option string * option Value * option Value :=
  match res_text res with
  | None => (None, None, Some (JBool false))
  | Some text =>
    match JSON_parse text with
    | None => (Some text, None, Some (JBool false))
    | Some json =>
      (Some text, Some json,
       orElse (orElse (getOpt "ok" (Some json)) (Some (JBool (res_ok res))))
         (Some (JBool false)))
    end
  end.

(** Lines 388 to 413: the value [request] returns for a response, or
    the error it throws. *)
Definition decode (res : Response) : TxBuildError + Value :=
  let status := res_status res in
  let '(text, json, ok) := readBody res in
  let notJson :=
    if decide (status = 200) then
      newTxBuildError ASSETS_API_RESPONSE_DECODE_ERROR None
    else if decide (status = 401) then
      newTxBuildError ASSETS_API_UNAUTHORIZED None
    else
      let message :=
        if truthyString text then "(" ++ pretty status ++ "): " ++ templateString text
        else pretty status in
      newTxBuildError ASSETS_API_RESPONSE_ERROR
        (Some (templateString (ErrorMessages ASSETS_API_RESPONSE_ERROR) ++ message)) in
  match json with
  | None => inl notJson
  | Some value =>
    if negb (truthy json) then inl notJson
    else if negb (truthy ok) then
      let innerError :=
        if truthy (getOpt "error" (getOpt "error" json)) then
          Some (JString
                  ("(" ++ template (getOpt "code" (getOpt "error" (getOpt "error" json)))
                   ++ ") "
                   ++ template (getOpt "message" (getOpt "error" (getOpt "error" json)))))
        else None in
      let message :=
        orElse (orElse (get "message" value) innerError)
          (Some (JString (JSON_stringify value))) in
      inl (newTxBuildError ASSETS_API_RESPONSE_ERROR
             (Some (templateString (ErrorMessages ASSETS_API_RESPONSE_ERROR)
                    ++ ": " ++ template message)))
    else inr value
  end.

(** [{ member = value }] in a destructuring: the default stands in for
    a member that is missing or [undefined]. *)
Definition orDefault {A} (value : A) (member : Member A) : A :=
  match member with
  | Given a => a
  | Missing | Undefined => value
  end.

(** The member of [{ member: value, ...options }]: a member of the
    options replaces the value, an [undefined] one too. *)
Definition spreadOver {A} (value : A) (member : Member A) : Member A :=
  match member with
  | Missing => Given value
  | Undefined | Given _ => member
  end.

(** [options.method], for options that may be [undefined] themselves. *)
Definition methodOf (options : option BtcAssetsApiRequestOptions) : Member Method :=
  match options with
  | Some options => opt_method options
  | None => Missing
  end.

Definition noOptions : BtcAssetsApiRequestOptions :=
  {| opt_requireToken := None; opt_method := Missing; opt_headers := None;
     opt_params := None; opt_body := None |}.

(** [{ ...a, ...b }] for two objects with string values. *)
Definition spread (a b : gmap string string) : gmap string string := b ∪ a.

(** The error of a call that has neither a token nor the means to
    generate one. *)
Definition missingAppDomain : TxBuildError :=
  newTxBuildError ASSETS_API_INVALID_PARAM
    (Some (templateString (ErrorMessages ASSETS_API_INVALID_PARAM) ++ ": app, domain")).

(** [request], with [this.init()] passed in: [init] reaches [request]
    again through [generateToken] and [post]. *)
Definition request_with (init : M unit) (route : string)
    (options : option BtcAssetsApiRequestOptions) : M Value :=
  let options := default noOptions options in
  let requireToken := default true (opt_requireToken options) in
  let method := orDefault GET (opt_method options) in
  let headers := opt_headers options in
  let params := opt_params options in
  bind getThis (fun this0 =>
  if (requireToken && negb (truthy (token this0))
      && negb (truthyString (app this0) && truthyString (domain this0)))%bool then
    throw missingAppDomain
  else
    bind (if (requireToken && negb (truthy (token this0)))%bool then init else ret tt)
      (fun _ =>
    bind getThis (fun this1 =>
    let packedParams :=
      match params with
      | Some params => "?" ++ searchParams params
      | None => ""
      end in
    let withOriginHeaders : gmap string string :=
      if truthyString (origin this1)
      then {[ "origin" := templateString (origin this1) ]} else ∅ in
    let withAuthHeaders : gmap string string :=
      if (requireToken && truthy (token this1))%bool
      then {[ "Authorization" := "Bearer " ++ template (token this1) ]} else ∅ in
    bind (callFetch
            {| input := url this1 ++ route ++ packedParams;
               init := {| init_method := method;
                          init_headers :=
                            spread (spread withOriginHeaders withAuthHeaders)
                              (default ∅ headers);
                          init_body := opt_body options |} |})
      (fun res =>
    match decode res with
    | inl e => throw e
    | inr json => ret json
    end)))).

(** [post], over the same [init]. *)
Definition post_with (init : M unit) (route : string)
    (options : option BtcAssetsApiRequestOptions) : M Value :=
  request_with init route
    (Some {| opt_requireToken := options ≫= opt_requireToken;
             opt_method := spreadOver POST (methodOf options);
             opt_headers :=
               Some (spread {[ "Content-Type" := "application/json" ]}
                       (default ∅ (options ≫= opt_headers)));
             opt_params := options ≫= opt_params;
             opt_body := options ≫= opt_body |}).

(** [generateToken]. Its request sets [requireToken] to false, so it
    never reaches [init]; the recursion ends here. *)
Definition generateToken : M Value :=
  bind getThis (fun this0 =>
  if (negb (truthyString (app this0)) || negb (truthyString (domain this0)))%bool then
    throw missingAppDomain
  else
    post_with (ret tt) "/token/generate"
      (Some {| opt_requireToken := Some false;
               opt_method := Missing;
               opt_headers := None;
               opt_params := None;
               opt_body :=
                 Some (JSON_stringify
                         (JObject [("app", JString (templateString (app this0)));
                                   ("domain", JString (templateString (domain this0)))])) |})).

Definition init_ (force : option bool) : M unit :=
  bind getThis (fun this0 =>
  if (truthy (token this0) && negb (default false force))%bool then ret tt
  else
    bind generateToken (fun token =>
    setToken (get "token" token))).

Definition request (route : string) (options : option BtcAssetsApiRequestOptions)
  : M Value :=
  request_with (init_ None) route options.

Definition post (route : string) (options : option BtcAssetsApiRequestOptions)
  : M Value :=
  post_with (init_ None) route options.

(** ** Endpoints *)

Definition withParams (params : option Params) : option BtcAssetsApiRequestOptions :=
  Some {| opt_requireToken := None; opt_method := Missing; opt_headers := None;
          opt_params := params; opt_body := None |}.

Definition getBlockchainInfo : M Value :=
  request "/bitcoin/v1/info" None.

Definition getBlockByHash (hash : string) : M Value :=
  request ("/bitcoin/v1/block/" ++ hash) None.

Definition getBlockHeaderByHash (hash : string) : M Value :=
  request ("/bitcoin/v1/block/" ++ hash ++ "/header") None.

Definition getBlockHashByHeight (height : Z) : M Value :=
  request ("/bitcoin/v1/block/height/" ++ pretty height) None.

Definition getBalance (address : string) (params : option Params) : M Value :=
  request ("/bitcoin/v1/address/" ++ address ++ "/balance") (withParams params).

Definition getUtxos (address : string) (params : option Params) : M Value :=
  request ("/bitcoin/v1/address/" ++ address ++ "/unspent") (withParams params).

Definition getTransactions (address : string) : M Value :=
  request ("/bitcoin/v1/address/" ++ address ++ "/txs") None.

Definition getTransaction (txId : string) : M Value :=
  request ("/bitcoin/v1/transaction/" ++ txId) None.

Definition sendTransaction (txHex : string) : M Value :=
  post "/bitcoin/v1/transaction"
    (Some {| opt_requireToken := None; opt_method := Missing; opt_headers := None;
             opt_params := None;
             opt_body := Some (JSON_stringify (JObject [("txHex", JString txHex)])) |}).

(** ** Vocabulary *)

(** The [json] variable of [request] after the [try] block. *)
Definition bodyJson (res : Response) : option Value :=
  res_text res ≫= JSON_parse.

(** The [ok] variable of [request] for a body that parsed to [json]. *)
Definition okOf (json : Value) (res : Response) : option Value :=
  orElse (get "ok" json) (Some (JBool (res_ok res))).

(** What [request] settles with once [fetch] has settled. *)
Definition settle (result : FetchResult) : Result Value :=
  match result with
  | Failed reason => Raised (FetchError reason)
  | Responded res =>
    match decode res with
    | inl e => Raised (BuildError e)
    | inr json => Resolved json
    end
  end.

(** The call [request] makes for a route, from the instance as it is
    when the call is made. *)
Definition routeCall (this : BtcAssetsApi) (route : string)
    (options : BtcAssetsApiRequestOptions) : FetchCall :=
  {| input := url this ++ route
              ++ match opt_params options with
                 | Some params => "?" ++ searchParams params
                 | None => ""
                 end;
     init :=
       {| init_method := orDefault GET (opt_method options);
          init_headers :=
            spread
              (spread
                 (if truthyString (origin this)
                  then {[ "origin" := templateString (origin this) ]} else ∅)
                 (if (default true (opt_requireToken options) && truthy (token this))%bool
                  then {[ "Authorization" := "Bearer " ++ template (token this) ]}
                  else ∅))
              (default ∅ (opt_headers options));
          init_body := opt_body options |} |}.

(** The options [post] hands to [request]. *)
Definition postOptions (options : option BtcAssetsApiRequestOptions)
  : BtcAssetsApiRequestOptions :=
  {| opt_requireToken := options ≫= opt_requireToken;
     opt_method := spreadOver POST (methodOf options);
     opt_headers :=
       Some (spread {[ "Content-Type" := "application/json" ]}
               (default ∅ (options ≫= opt_headers)));
     opt_params := options ≫= opt_params;
     opt_body := options ≫= opt_body |}.

(** The call [generateToken] makes. *)
Definition tokenCall (this : BtcAssetsApi) : FetchCall :=
  {| input := url this ++ "/token/generate";
     init :=
       {| init_method := POST;
          init_headers :=
            spread
              (if truthyString (origin this)
               then {[ "origin" := templateString (origin this) ]} else ∅)
              {[ "Content-Type" := "application/json" ]};
          init_body :=
            Some (JSON_stringify
                    (JObject [("app", JString (templateString (app this)));
                              ("domain", JString (templateString (domain this)))])) |} |}.

(** The world after one more call. *)
Definition afterCall (w : World) (call : FetchCall) : World :=
  {| this := this w; sent := (sent w ++ [call])%list |}.

(** The world after [this.token = value]. *)
Definition withToken (w : World) (value : option Value) : World :=
  {| this := {| url := url (this w); app := app (this w);
                domain := domain (this w); origin := origin (this w);
                token := value |};
     sent := sent w |}.

(** An instance that can neither show a token nor generate one. *)
Definition noCredentials (this : BtcAssetsApi) : Prop :=
  truthy (token this) = false
  /\ (truthyString (app this) && truthyString (domain this))%bool = false.

End Client.

End Service.

(** ** A scripted platform for the examples of the service client *)

Module ServiceFixture.
Import Service.

Definition quote : string := String "034"%char EmptyString.

(** The text of a body with one string member. *)
Definition member (key value : string) : string :=
  "{" ++ quote ++ key ++ quote ++ ":" ++ quote ++ value ++ quote ++ "}".

(** A parser that knows the bodies the scripted server sends. *)
Definition parse (text : string) : option (Json Z) :=
  if decide (text = member "token" "abc") then Some (JObject [("token", JString "abc")])
  else if decide (text = "[]") then Some (JArray [])
  else if decide (text = "null") then Some JNull
  else None.

Definition stringify (value : Json Z) : string :=
  match value with
  | JObject [(k1, JString v1); (k2, JString v2)] =>
    "{" ++ quote ++ k1 ++ quote ++ ":" ++ quote ++ v1 ++ quote ++ ","
    ++ quote ++ k2 ++ quote ++ ":" ++ quote ++ v2 ++ quote ++ "}"
  | JObject [(k1, JString v1)] => member k1 v1
  | _ => "{}"
  end.

(** A server that hands out the token "abc", lists no output for any
    address, and answers anything else with a gateway error. *)
Definition server (history : list FetchCall) (call : FetchCall) : FetchResult :=
  if decide (input call = "https://api/token/generate") then
    Responded {| res_status := 200; res_ok := true;
                 res_text := Some (member "token" "abc") |}
  else if decide (input call = "https://api/bitcoin/v1/address/tb1q/unspent") then
    Responded {| res_status := 200; res_ok := true; res_text := Some "[]" |}
  else
    Responded {| res_status := 502; res_ok := false; res_text := Some "Bad Gateway" |}.

Definition platform : Platform :=
  {| Num := Z;
     numberIsFalsy := Z.eqb 0;
     stringOfOther := fun value =>
       match value with
       | JNumber n => pretty n
       | JArray [] => ""
       | _ => "[object Object]"
       end;
     JSON_parse := parse;
     JSON_stringify := stringify;
     Params := list (string * string);
     searchParams := fun params =>
       match params with
       | [(k, v)] => k ++ "=" ++ v
       | _ => ""
       end;
     isDomain := fun domain => bool_decide (domain = "example.com");
     ErrorMessages := fun code =>
       match code with
       | ASSETS_API_RESPONSE_ERROR => Some "Assets API error"
       | ASSETS_API_RESPONSE_DECODE_ERROR => Some "Failed to decode Assets API response"
       | _ => None
       end;
     fetch := server |}.

(** [BtcAssetsApi.fromToken('https://api', '')] *)
Definition anonymous : @BtcAssetsApi platform :=
  {| url := "https://api"; app := None; domain := None; origin := None;
     token := Some (JString "") |}.

(** [BtcAssetsApi.fromToken('https://api', 'secret')] *)
Definition withSecret : @BtcAssetsApi platform :=
  {| url := "https://api"; app := None; domain := None; origin := None;
     token := Some (JString "secret") |}.

(** [new BtcAssetsApi({ url: 'https://api', app: 'wallet', domain: 'example.com' })] *)
Definition registered : @BtcAssetsApi platform :=
  {| url := "https://api"; app := Some "wallet"; domain := Some "example.com";
     origin := None; token := None |}.

Definition fresh (this : @BtcAssetsApi platform) : @World platform :=
  {| this := this; sent := [] |}.

End ServiceFixture.

(** ** The errors of the sdk package ([error.ts]) *)

Module SdkError.

(** The numeric [enum ErrorCodes]: a code is a [number], and the
    members count up from zero. *)
Definition UNKNOWN : Z := 0.
Definition INSUFFICIENT_UTXO : Z := 1.
Definition UNSUPPORTED_ADDRESS_TYPE : Z := 2.
Definition ASSETS_API_RESPONSE_ERROR : Z := 3.
Definition ASSETS_API_RESPONSE_DECODE_ERROR : Z := 4.

(** [ErrorMessages[code]]: [undefined] for a number the table does not
    list. *)
Definition ErrorMessages (code : Z) : option string :=
  if decide (code = UNKNOWN) then Some "Unknown error"
  else if decide (code = INSUFFICIENT_UTXO) then Some "Insufficient UTXO"
  else if decide (code = UNSUPPORTED_ADDRESS_TYPE) then Some "Unsupported address type"
  else if decide (code = ASSETS_API_RESPONSE_ERROR) then Some "Assets API error"
  else if decide (code = ASSETS_API_RESPONSE_DECODE_ERROR)
       then Some "Failed to decode Assets API response"
  else None.

Record TxBuildError : Set := {
  code : Z;
  message : string
}.

(** [new TxBuildError(code, message)]; the default of [message] applies
    when the argument is missing. *)
Definition new (code : Z) (message : option string) : TxBuildError :=
  {| code := code;
     message :=
       match message with
       | Some message => message
       | None =>
         match ErrorMessages code with
         | Some entry => if decide (entry = "") then "Unknown error" else entry
         | None => "Unknown error"
         end
       end |}.

End SdkError.
(** * Output lookup *)

Section LookupFacts.
Context {imports : Imports}.
Variable this : DataSource.

Lemma at_index_None {A} (l : list A) (index : Z) :
  at_index l index = None <-> index < 0 \/ Z.of_nat (length l) <= index.
Proof.
  unfold at_index. case_decide.
  - rewrite lookup_ge_None. lia.
  - split; [lia | done].
Qed.

(** What [getOutput] resolves with in terms of the service's answer. *)
Lemma getOutput_run hash index requireConfirmed s :
  fst (getOutput this hash index requireConfirmed s) =
  match getBtcTransaction (service this) (remove0x hash) with
  | Rejected f => Thrown (ServiceFailure f)
  | Answered None => Returned None
  | Answered (Some tx) =>
    if (default false requireConfirmed && negb (confirmed (tx_status tx)))%bool then
      Thrown (BuildError (withComment UNCONFIRMED_UTXO (hashIndex hash index)))
    else
      match at_index (tx_vout tx) index with
      | None => Returned None
      | Some vout =>
        if isOpReturnScriptPubkey (scriptpubkey vout) then
          Returned (Some (inl {| o_txid := remove0x hash; o_vout := index;
                                 o_value := vout_value vout;
                                 o_scriptPk := scriptpubkey vout |}))
        else
          match getAddressType (scriptpubkey_address vout) with
          | None => Thrown (HelperError GetAddressType (scriptpubkey_address vout))
          | Some ty =>
            Returned (Some (inr {| txid := remove0x hash; vout := index;
                                   value := vout_value vout;
                                   scriptPk := scriptpubkey vout;
                                   address := scriptpubkey_address vout;
                                   addressType := ty |}))
          end
      end
  end.
Proof.
  unfold getOutput, bind, request, hashIndex; simpl.
  destruct (getBtcTransaction _ _) as [[tx|]|e]; simpl; try done.
  destruct (_ && _)%bool; simpl; try done.
  destruct (at_index _ _) as [v|]; simpl; try done.
  destruct (isOpReturnScriptPubkey _); simpl; try done.
  destruct (getAddressType _); done.
Qed.

(** [getUtxo] in terms of [getOutput]. *)
Lemma getUtxo_run hash index requireConfirmed s :
  fst (getUtxo this hash index requireConfirmed s) =
  match fst (getOutput this hash index requireConfirmed s) with
  | Thrown e => Thrown e
  | Returned None => Returned None
  | Returned (Some (inl _)) =>
    Thrown (BuildError (withComment UNSPENDABLE_OUTPUT (hashIndex hash index)))
  | Returned (Some (inr utxo)) => Returned (Some utxo)
  end.
Proof.
  unfold getUtxo, bind.
  destruct (getOutput _ _ _ _ _) as [[[[o|u]|]|e] s']; done.
Qed.

(** C7. [getUtxo] rejects with UNSPENDABLE_OUTPUT exactly when
    [getOutput] resolved to an output without the [address] key; a
    resolved output lacks that key exactly when its script is an
    OP_RETURN script; and a [Utxo] that [getUtxo] returns never has an
    OP_RETURN script. *)
Theorem getUtxo_unspendable hash index requireConfirmed s :
  ((exists e, fst (getUtxo this hash index requireConfirmed s) = Thrown (BuildError e)
              /\ code e = UNSPENDABLE_OUTPUT)
   <-> exists o, fst (getOutput this hash index requireConfirmed s) = Returned (Some o)
                 /\ hasAddress o = false)
  /\ (forall o, fst (getOutput this hash index requireConfirmed s) = Returned (Some o) ->
        (hasAddress o = false <-> isOpReturnScriptPubkey (scriptOf o) = true))
  /\ (forall utxo, fst (getUtxo this hash index requireConfirmed s) = Returned (Some utxo) ->
        isOpReturnScriptPubkey (scriptPk utxo) = false).
Proof.
  rewrite getUtxo_run, getOutput_run.
  destruct (getBtcTransaction _ _) as [[tx|]|e0]; simpl;
    [|split; [split; [intros (e & [=] & _) | intros (o & [=] & _)]
             | split; intros ? [=]]..].
  destruct (_ && _)%bool; simpl.
  { split; [split; [intros (e & [= <-] & [=]) | intros (o & [=] & _)]
           | split; intros ? [=]]. }
  destruct (at_index _ _) as [v|]; simpl;
    [|split; [split; [intros (e & [=] & _) | intros (o & [=] & _)]
             | split; intros ? [=]]].
  destruct (isOpReturnScriptPubkey (scriptpubkey v)) eqn:Hop; simpl.
  - split; [split|split].
    + intros _. eexists; split; [reflexivity | done].
    + intros _. eexists; split; [reflexivity | done].
    + intros o [= <-]; simpl. by rewrite Hop.
    + intros u [=].
  - destruct (getAddressType _) as [ty|]; simpl.
    + split; [split|split].
      * intros (e & [=] & _).
      * intros (o & [= <-] & [=]).
      * intros o [= <-]; simpl. rewrite Hop. split; intros [=].
      * intros u [= <-]; simpl. done.
    + split; [split; [intros (e & [= <-] & [=]) | intros (o & [=] & _)]
             | split; intros ? [=]].
Qed.

(** C8, as amended. [getOutput] resolves with [undefined], without an
    error, when the service has no such transaction, and when the
    transaction has no output at [index] and either confirmation is not
    required or the transaction is confirmed. *)
Theorem getOutput_not_found hash index requireConfirmed s :
  (getBtcTransaction (service this) (remove0x hash) = Answered None
   \/ exists tx,
        getBtcTransaction (service this) (remove0x hash) = Answered (Some tx)
        /\ at_index (tx_vout tx) index = None
        /\ (default false requireConfirmed = false \/ confirmed (tx_status tx) = true)) ->
  fst (getOutput this hash index requireConfirmed s) = Returned None.
Proof.
  rewrite getOutput_run.
  intros [-> | (tx & -> & -> & Hc)]; [done|].
  by destruct Hc as [-> | ->]; simpl; rewrite ?andb_false_r.
Qed.

(** C9. For a transaction that exists and is unconfirmed, [getOutput]
    called with [requireConfirmed = true] rejects with UNCONFIRMED_UTXO
    whatever the index, also an index the transaction does not have,
    where it never resolves with [undefined]; [getUtxo] passes the
    rejection on. *)
Theorem getOutput_confirmation_before_index hash index s tx :
  getBtcTransaction (service this) (remove0x hash) = Answered (Some tx) ->
  confirmed (tx_status tx) = false ->
  fst (getOutput this hash index (Some true) s)
    = Thrown (BuildError (withComment UNCONFIRMED_UTXO (hashIndex hash index)))
  /\ fst (getUtxo this hash index (Some true) s)
    = Thrown (BuildError (withComment UNCONFIRMED_UTXO (hashIndex hash index)))
  /\ (at_index (tx_vout tx) index = None ->
      fst (getOutput this hash index (Some true) s) <> Returned None).
Proof.
  intros Htx Hc. rewrite getUtxo_run, getOutput_run, Htx; simpl.
  rewrite Hc; simpl. by repeat split.
Qed.

(** C10. When the service answers that the transaction is absent,
    [isTransactionConfirmed] reads [status] of [undefined]: it rejects
    with a [TypeError] and resolves with no boolean, where [getOutput]
    resolves with [undefined]. *)
Theorem isTransactionConfirmed_absent hash s :
  getBtcTransaction (service this) (remove0x hash) = Answered None ->
  fst (isTransactionConfirmed this hash s) = Thrown TypeError
  /\ (forall b, fst (isTransactionConfirmed this hash s) <> Returned b)
  /\ (forall index requireConfirmed,
        fst (getOutput this hash index requireConfirmed s) = Returned None).
Proof.
  intros Htx. unfold isTransactionConfirmed, bind, request; simpl.
  rewrite Htx; simpl. repeat split; [done|].
  intros. by rewrite getOutput_run, Htx.
Qed.

End LookupFacts.

(** Output 0 of transaction "aa" is a data carrier: [getOutput] resolves
    with it, [getUtxo] rejects. *)
Lemma getUtxo_unspendable_witness :
  exists e,
    fst (@getUtxo Fixture.imports Fixture.source "0xaa" 0 None newSession)
      = Thrown (BuildError e)
    /\ code e = UNSPENDABLE_OUTPUT.
Proof.
  apply (proj2 (proj1 (@getUtxo_unspendable Fixture.imports Fixture.source
                         "0xaa" 0 None newSession))).
  eexists. split; reflexivity.
Defined.

(** C8 as stated fails: transaction "cc" exists and has no output 0, yet
    with [requireConfirmed = true] the lookup raises UNCONFIRMED_UTXO
    instead of resolving with [undefined]. *)
Lemma getOutput_missing_index_raises :
  exists tx,
    getBtcTransaction (service Fixture.source) (@remove0x Fixture.imports "0xcc")
      = Answered (Some tx)
    /\ at_index (tx_vout tx) 0 = None
    /\ fst (@getOutput Fixture.imports Fixture.source "0xcc" 0 (Some true) newSession)
       = Thrown (BuildError (withComment UNCONFIRMED_UTXO "hash: 0xcc, index: 0")).
Proof. eexists. split; [reflexivity|]. split; vm_compute; reflexivity. Qed.

Lemma getOutput_not_found_witness :
  fst (@getOutput Fixture.imports Fixture.source "0xaa" 2 (Some true) newSession)
    = Returned None.
Proof.
  apply (@getOutput_not_found Fixture.imports Fixture.source).
  right. eexists. split; [reflexivity|]. split; [reflexivity|]. right. reflexivity.
Defined.

Lemma getOutput_confirmation_before_index_witness :
  fst (@getOutput Fixture.imports Fixture.source "0xcc" 0 (Some true) newSession)
    = Thrown (BuildError (withComment UNCONFIRMED_UTXO "hash: 0xcc, index: 0")).
Proof.
  exact (proj1 (@getOutput_confirmation_before_index Fixture.imports Fixture.source
                  "0xcc" 0 newSession _ eq_refl eq_refl)).
Defined.

Lemma isTransactionConfirmed_absent_witness :
  fst (@isTransactionConfirmed Fixture.imports Fixture.source "0xdd" newSession)
    = Thrown TypeError.
Proof.
  exact (proj1 (@isTransactionConfirmed_absent Fixture.imports Fixture.source
                  "0xdd" newSession eq_refl)).
Defined.

(** * Sorting *)

Section SortFacts.
Context {A : Type} (compareFn : A -> A -> number).

Let le (x y : A) : Prop := SortCompare compareFn x y <= 0.

Lemma sort_insert_perm x l : sort_insert compareFn x l ≡ₚ x :: l.
Proof.
  induction l as [|y l IH]; simpl; [done|].
  case_decide; [done|]. rewrite IH. apply Permutation_swap.
Qed.

Lemma sort_perm l : sort compareFn l ≡ₚ l.
Proof.
  induction l as [|x l IH]; simpl; [done|].
  by rewrite sort_insert_perm, IH.
Qed.

(** An element that the predicate selects only together with elements
    it does not compare above is inserted without passing any of them. *)
Lemma sort_insert_filter (P : A -> Prop) `{!forall x, Decision (P x)} x l :
  (forall y, P x -> P y -> le x y) ->
  filter P (sort_insert compareFn x l) = filter P (x :: l).
Proof.
  intros Hle. induction l as [|y l IH]; simpl; [done|].
  case_decide as Hxy; [done|].
  rewrite !filter_cons. rewrite filter_cons in IH.
  destruct (decide (P y)) as [Hy|Hy].
  - destruct (decide (P x)) as [Hx|Hx].
    + destruct Hxy. by apply Hle.
    + by rewrite IH.
  - by rewrite IH.
Qed.

Lemma sort_filter (P : A -> Prop) `{!forall x, Decision (P x)} l :
  (forall x y, P x -> P y -> le x y) ->
  filter P (sort compareFn l) = filter P l.
Proof.
  intros Hle. induction l as [|x l IH]; simpl; [done|].
  rewrite sort_insert_filter by eauto.
  by rewrite !filter_cons, IH.
Qed.

(** The order is total and transitive on the elements that [D] holds
    of; a compare function need not be consistent outside of them. *)
Variable D : A -> Prop.
Hypothesis le_total : forall x y, D x -> D y -> le x y \/ le y x.
Hypothesis le_trans :
  forall x y z, D x -> D y -> D z -> le x y -> le y z -> le x z.

Lemma sort_insert_sorted x l :
  D x -> Forall D l ->
  StronglySorted le l -> StronglySorted le (sort_insert compareFn x l).
Proof.
  intros Hx Hl Hs. induction Hs as [|y l Hs IH Hy]; simpl.
  - repeat constructor.
  - apply Forall_cons in Hl as [Hdy Hl]. case_decide as Hxy.
    + constructor; [by constructor|].
      constructor; [done|].
      rewrite Forall_forall in Hy, Hl. apply Forall_forall. intros z Hz.
      apply (le_trans x y z); auto.
    + constructor; [by apply IH|].
      rewrite sort_insert_perm. constructor; [|done].
      by destruct (le_total x y Hx Hdy).
Qed.

Lemma sort_sorted l : Forall D l -> StronglySorted le (sort compareFn l).
Proof.
  induction l as [|x l IH]; simpl; [constructor|].
  intros [Hx Hl]%Forall_cons. apply sort_insert_sorted; [done| |by apply IH].
  by rewrite sort_perm.
Qed.

End SortFacts.

Lemma compareUtxos_le a b : rowLe a b -> SortCompare compareUtxos a b <= 0.
Proof.
  unfold SortCompare, compareUtxos, rowLe; simpl.
  destruct (block_height (row_status a)) as [ha|],
           (block_height (row_status b)) as [hb|]; try done.
  case_decide as Hne; simpl; [lia|].
  injection Hne as ->. lia.
Qed.

Lemma compareUtxos_le_inv a b :
  carriesHeight a -> carriesHeight b ->
  SortCompare compareUtxos a b <= 0 -> rowLe a b.
Proof.
  unfold SortCompare, compareUtxos, rowLe, carriesHeight; simpl.
  intros [ha ->] [hb ->]. case_decide as Hne; simpl.
  - intros. assert (ha <> hb) by congruence. lia.
  - injection Hne as ->. lia.
Qed.

Lemma rowLe_carries a b : rowLe a b -> carriesHeight a /\ carriesHeight b.
Proof.
  unfold rowLe, carriesHeight.
  destruct (block_height (row_status a)), (block_height (row_status b));
    try done; by split.
Qed.

Lemma rowLe_total a b : carriesHeight a -> carriesHeight b -> rowLe a b \/ rowLe b a.
Proof. unfold rowLe, carriesHeight. intros [ha ->] [hb ->]. lia. Qed.

Lemma rowLe_trans a b c : rowLe a b -> rowLe b c -> rowLe a c.
Proof.
  unfold rowLe.
  destruct (block_height (row_status a)), (block_height (row_status b)),
    (block_height (row_status c)); try done; lia.
Qed.

(** Among rows that all carry a block height the result of the sort is
    in ascending order of (block height, vout). *)
Lemma sort_compareUtxos_sorted rows :
  Forall carriesHeight rows -> StronglySorted rowLe (sort compareUtxos rows).
Proof.
  intros Hrows.
  assert (Forall carriesHeight (sort compareUtxos rows)) as Hsorted
    by (by rewrite sort_perm).
  pose proof (sort_sorted compareUtxos carriesHeight) as Hs.
  specialize (Hs ltac:(intros x y Hx Hy;
                       destruct (rowLe_total x y Hx Hy);
                       [left|right]; by apply compareUtxos_le)).
  specialize (Hs ltac:(intros x y z Hx Hy Hz Hxy Hyz;
                       apply compareUtxos_le;
                       apply (rowLe_trans x y z);
                       apply compareUtxos_le_inv; assumption)).
  specialize (Hs rows Hrows).
  induction Hs as [|x l Hl IH Hx]; [constructor|].
  apply Forall_cons in Hsorted as [Hdx Hdl].
  constructor; [by apply IH|].
  rewrite Forall_forall in Hx, Hdl. apply Forall_forall. intros y Hy.
  apply compareUtxos_le_inv; auto.
Qed.

(** Rows with the same two keys keep the order they came in, whether
    they carry a block height or not. *)
Lemma sort_compareUtxos_stable h v rows :
  rowsAt h v (sort compareUtxos rows) = rowsAt h v rows.
Proof.
  unfold rowsAt. apply sort_filter.
  intros a b [Ha1 Ha2] [Hb1 Hb2].
  unfold SortCompare, compareUtxos; simpl.
  rewrite decide_False by (rewrite Ha1, Hb1; by intros []). lia.
Qed.

Lemma rowsAt_cons h v r rows :
  rowsAt h v (r :: rows) =
  if decide (block_height (row_status r) = h /\ row_vout r = v)
  then r :: rowsAt h v rows else rowsAt h v rows.
Proof. unfold rowsAt. by rewrite filter_cons. Qed.

Lemma rowsAt_head r rows :
  rowsAt (block_height (row_status r)) (row_vout r) (r :: rows)
  = r :: rowsAt (block_height (row_status r)) (row_vout r) rows.
Proof. rewrite rowsAt_cons. by rewrite decide_True. Qed.

Lemma elem_of_rowsAt h v r rows : r ∈ rowsAt h v rows -> r ∈ rows.
Proof. unfold rowsAt. rewrite list_elem_of_filter. tauto. Qed.

Lemma rowLe_antisym x y :
  rowLe x y -> rowLe y x ->
  block_height (row_status y) = block_height (row_status x)
  /\ row_vout y = row_vout x.
Proof.
  unfold rowLe.
  destruct (block_height (row_status x)), (block_height (row_status y));
    try done. intros. split; [f_equal|]; lia.
Qed.

(** Two lists in ascending order with the same rows, in the same order,
    at every pair of keys are the same list: the order [getUtxos]
    yields does not depend on how the stable sort is carried out. *)
Lemma sorted_stable_unique l1 l2 :
  StronglySorted rowLe l1 -> StronglySorted rowLe l2 ->
  (forall h v, rowsAt h v l1 = rowsAt h v l2) ->
  l1 = l2.
Proof.
  intros Hs1. revert l2.
  induction Hs1 as [|x l1 Hs1 IH Hx]; intros l2 Hs2 Heq.
  { destruct l2 as [|y l2]; [done|].
    specialize (Heq (block_height (row_status y)) (row_vout y)).
    by rewrite rowsAt_head in Heq. }
  destruct Hs2 as [|y l2 Hs2 Hy].
  { specialize (Heq (block_height (row_status x)) (row_vout x)).
    by rewrite rowsAt_head in Heq. }
  assert (block_height (row_status y) = block_height (row_status x)
          /\ row_vout y = row_vout x) as [Hh Hv].
  { destruct (decide (block_height (row_status y) = block_height (row_status x)
                      /\ row_vout y = row_vout x)) as [|Hne]; [done|].
    pose proof (Heq (block_height (row_status x)) (row_vout x)) as Hx'.
    rewrite rowsAt_head, (rowsAt_cons _ _ y), decide_False in Hx' by done.
    assert (x ∈ l2) as Hin2
      by (eapply elem_of_rowsAt; rewrite <- Hx'; apply list_elem_of_here).
    pose proof (Heq (block_height (row_status y)) (row_vout y)) as Hy'.
    rewrite rowsAt_head, (rowsAt_cons _ _ x), decide_False in Hy'
      by (intros [H1 H2]; apply Hne; by split).
    assert (y ∈ l1) as Hin1
      by (eapply elem_of_rowsAt; rewrite Hy'; apply list_elem_of_here).
    rewrite Forall_forall in Hx, Hy.
    by apply rowLe_antisym; [apply Hx | apply Hy]. }
  pose proof (Heq (block_height (row_status x)) (row_vout x)) as Hhead.
  rewrite rowsAt_head, <- Hh, <- Hv, rowsAt_head in Hhead.
  injection Hhead as -> Htail. f_equal. apply IH; [done|].
  intros h v. specialize (Heq h v). rewrite !rowsAt_cons in Heq.
  case_decide; [by injection Heq|done].
Qed.

(** * Listing *)

Section ListingFacts.
Context {imports : Imports}.
Variable this : DataSource.

Lemma mapAsync_ret {A B} (f : A -> Async B) (g : A -> B) l s :
  (forall x s, f x s = (Returned (g x), s)) ->
  mapAsync f l s = (Returned (map g l), s).
Proof.
  intros Hf. induction l as [|x l IH]; simpl; [done|].
  unfold bind. by rewrite Hf, IH.
Qed.

(** What [getUtxos] resolves with once its helpers accept the address. *)
Lemma getUtxos_run address params s rows scriptPk ty :
  getBtcUtxos (service this) address params = Answered rows ->
  addressToScriptPublicKeyHex address (networkType this) = Some scriptPk ->
  getAddressType address = Some ty ->
  getUtxos this address params s =
    (Returned (map (rowToUtxo address scriptPk ty) (sort compareUtxos rows)),
     {| cache := cache s; requests := requests s ++ [ReqUtxos address params] |}).
Proof.
  intros Hrows Hpk Hty. unfold getUtxos, bind, request. rewrite Hrows, Hpk; simpl.
  apply mapAsync_ret. intros row s'. unfold bind. by rewrite Hty.
Qed.


End ListingFacts.



(** * The cache key of an output *)

Lemma hasColon_app_colon s d : hasColon (s +:+ String ":"%char d) = true.
Proof.
  induction s as [|c s IH]; [done|].
  change (hasColon (String c (s +:+ String ":"%char d)) = true).
  simpl. by rewrite IH, orb_true_r.
Qed.

Lemma pretty_N_char_not_colon x : pretty_N_char x <> ":"%char.
Proof. unfold pretty_N_char. by repeat case_match. Qed.

Lemma hasColon_pretty_N_go x s : hasColon (pretty_N_go x s) = hasColon s.
Proof.
  revert s. induction (N.lt_wf_0 x) as [x _ IH]; intros s.
  destruct (decide (x = 0)%N) as [->|Hx]; [by rewrite pretty_N_go_0|].
  rewrite pretty_N_go_step by lia.
  rewrite IH by (apply N.div_lt; lia). simpl.
  rewrite bool_decide_eq_false_2; [done|]. apply pretty_N_char_not_colon.
Qed.

Lemma hasColon_show n : hasColon (show n) = false.
Proof.
  assert (forall p : positive, hasColon (pretty p) = false) as Hpos.
  { intros p. unfold pretty, pretty_positive, pretty, pretty_N.
    case_decide; [done|]. by rewrite hasColon_pretty_N_go. }
  unfold show, pretty, pretty_Z.
  destruct n as [|p|p]; simpl; [done|apply Hpos|].
  apply Hpos.
Qed.

Lemma append_colon_inj s1 s2 d1 d2 :
  hasColon d1 = false -> hasColon d2 = false ->
  s1 +:+ String ":"%char d1 = s2 +:+ String ":"%char d2 -> s1 = s2 /\ d1 = d2.
Proof.
  intros H1 H2. revert s2.
  induction s1 as [|c s1 IH]; intros [|c' s2] Heq.
  - by injection Heq as ->.
  - injection Heq as <- ->. by rewrite hasColon_app_colon in H1.
  - injection Heq as -> <-. by rewrite hasColon_app_colon in H2.
  - injection Heq as <- Heq. by destruct (IH _ Heq) as [-> ->].
Qed.

Lemma assetsKey_inj u u' :
  assetsKey u = assetsKey u' -> txid u = txid u' /\ vout u = vout u'.
Proof.
  unfold assetsKey. intros Heq.
  change (txid u +:+ String ":"%char (show (vout u))
          = txid u' +:+ String ":"%char (show (vout u'))) in Heq.
  apply append_colon_inj in Heq as [? Hv]; auto using hasColon_show.
  split; [done|]. by apply (inj (pretty : Z -> string)).
Qed.

(** * The selection loop *)

Lemma totalValue_nil : totalValue [] = 0.
Proof. done. Qed.

Lemma totalValue_cons u l : totalValue (u :: l) = value u + totalValue l.
Proof. done. Qed.

Lemma takeUntil_reached target l acc : acc >= target -> takeUntil target l acc = [].
Proof. intros. destruct l; simpl; [done|]. by case_decide. Qed.

Lemma takeUntil_prefix target l acc : takeUntil target l acc `prefix_of` l.
Proof.
  revert acc. induction l as [|u l IH]; intros acc; simpl; [done|].
  case_decide; [apply prefix_nil|]. apply prefix_cons, IH.
Qed.

(** Every proper prefix of the selection leaves the amount below the
    target. *)
Lemma takeUntil_minimal target l acc p :
  p `prefix_of` takeUntil target l acc -> p <> takeUntil target l acc ->
  acc + totalValue p < target.
Proof.
  revert acc p. induction l as [|u l IH]; intros acc p; simpl.
  - intros ->%prefix_nil_inv. done.
  - case_decide as Hacc; [intros ->%prefix_nil_inv; done|].
    destruct p as [|u' p]; [intros _ _; rewrite totalValue_nil; lia|].
    intros Hp Hne. assert (u' = u) as -> by (by apply prefix_cons_inv_1 in Hp).
    apply prefix_cons_inv_2 in Hp.
    assert (p <> takeUntil target l (acc + value u)) as Hne' by congruence.
    pose proof (IH (acc + value u) p Hp Hne'). rewrite totalValue_cons. lia.
Qed.

(** The selection reaches the target, or it is the whole list. *)
Lemma takeUntil_total target l acc :
  target <= acc + totalValue (takeUntil target l acc)
  \/ (takeUntil target l acc = l /\ acc + totalValue l < target).
Proof.
  revert acc. induction l as [|u l IH]; intros acc; simpl.
  - rewrite totalValue_nil.
    destruct (decide (target <= acc)); [left; lia | right; split; [done|lia]].
  - case_decide as Hacc; [left; rewrite totalValue_nil; lia|].
    rewrite !totalValue_cons.
    destruct (IH (acc + value u)) as [H|[-> H]]; [left; lia|].
    right. split; [done|lia].
Qed.

Lemma isExcluded_spec excludeUtxos utxo :
  isExcluded excludeUtxos utxo = true <->
  exists e, e ∈ excludeUtxos
            /\ exclude_txid e = txid utxo /\ exclude_vout e = vout utxo.
Proof.
  unfold isExcluded. rewrite andb_true_iff, !bool_decide_eq_true. split.
  - intros [_ [e He]]. apply find_some in He as [Hin Hm]. exists e.
    unfold matchesExclude in Hm.
    apply andb_true_iff in Hm as [?%bool_decide_eq_true ?%bool_decide_eq_true].
    by rewrite list_elem_of_In.
  - intros (e & Hin & Ht & Hv). split.
    + destruct excludeUtxos; [by apply elem_of_nil in Hin | simpl; lia].
    + destruct (List.find _ _) as [e'|] eqn:Hf; [by eexists|].
      apply list_elem_of_In in Hin.
      pose proof (find_none _ _ Hf e Hin) as Hm. unfold matchesExclude in Hm.
      by rewrite !bool_decide_eq_true_2 in Hm.
Qed.

Section CollectFacts.
Context {imports : Imports}.
Variable this : DataSource.

Lemma onlyLookups_refl s : onlyLookups this s s.
Proof. by repeat split. Qed.

Lemma onlyLookups_trans s1 s2 s3 :
  onlyLookups this s1 s2 -> onlyLookups this s2 s3 -> onlyLookups this s1 s3.
Proof.
  intros (H1 & H2 & H3) (H1' & H2' & H3'). repeat split; [congruence..|].
  intros u. by rewrite H3'.
Qed.

(** One lookup through the cache: it resolves with what
    [lookupHasRgbppAssets] says, or rejects with the service's failure,
    and later lookups resolve as they did before. *)
Lemma lookup_run utxo s :
  exists s',
    onlyLookups this s s'
    /\ match lookupHasRgbppAssets this (cache s) utxo with
       | Some has =>
           optionalCacheHasRgbppAssets (Some (assetsKey utxo))
             (hasRgbppAssetsGetter this utxo) s = (Returned has, s')
       | None =>
           exists f,
             optionalCacheHasRgbppAssets (Some (assetsKey utxo))
               (hasRgbppAssetsGetter this utxo) s = (Thrown (ServiceFailure f), s')
       end.
Proof.
  unfold lookupHasRgbppAssets, optionalCacheHasRgbppAssets, hasRgbppAssetsGetter,
    bind, readCache, request, setHasRgbppAssets, ret; simpl.
  destruct (cache_hasRgbppAssets (cache s) !! assetsKey utxo) as [has|] eqn:Hc.
  { exists s. split; [apply onlyLookups_refl | done]. }
  destruct (getRgbppAssetsByBtcUtxo _ _ _) as [a|f] eqn:Ha; simpl.
  - eexists; split; [|reflexivity].
    unfold onlyLookups, listingRequests, lookupHasRgbppAssets; simpl.
    split; [done|]. split.
    { by rewrite filter_app, filter_cons_False, filter_nil, app_nil_r. }
    intros u. destruct (decide (assetsKey utxo = assetsKey u)) as [Heq|Hne].
    + rewrite <- Heq, lookup_insert_eq, Hc.
      apply assetsKey_inj in Heq as [<- <-]. by rewrite Ha.
    + by rewrite lookup_insert_ne.
  - eexists; split; [|by exists f].
    unfold onlyLookups, listingRequests, lookupHasRgbppAssets; simpl.
    split; [done|]. split; [|done].
    by rewrite filter_app, filter_cons_False, filter_nil, app_nil_r.
Qed.

Section LoopFacts.
Variable target : Z.
Variable excl : list ExcludeUtxo.
Variable only : option bool.

Lemma passing_onlyLookups s s' l :
  onlyLookups this s s' ->
  passing this (cache s') excl only l = passing this (cache s) excl only l.
Proof.
  intros (_ & _ & Hl). apply list_filter_iff. intros u.
  unfold passesFilters. by rewrite Hl.
Qed.

Lemma passing_cons c u l :
  passing this c excl only (u :: l) =
  if passesFilters this c excl only u then u :: passing this c excl only l
  else passing this c excl only l.
Proof.
  unfold passing. rewrite filter_cons.
  destruct (passesFilters this c excl only u); by case_decide.
Qed.

(** One iteration of the loop. *)
Lemma collectLoop_cons u rest collected amount s :
  collectLoop this target excl only (u :: rest) collected amount s =
  if decide (amount >= target) then (Returned (collected, amount), s)
  else if isExcluded excl u then
    collectLoop this target excl only rest collected amount s
  else if default false only then
    match optionalCacheHasRgbppAssets (Some (assetsKey u))
            (hasRgbppAssetsGetter this u) s with
    | (Returned true, s1) =>
        collectLoop this target excl only rest collected amount s1
    | (Returned false, s1) =>
        collectLoop this target excl only rest (collected ++ [u])
          (amount + value u) s1
    | (Thrown e, s1) => (Thrown e, s1)
    end
  else
    collectLoop this target excl only rest (collected ++ [u])
      (amount + value u) s.
Proof.
  cbn [collectLoop]. unfold bind at 1. unfold loopBody.
  fold (isExcluded excl u).
  case_decide; [done|].
  destruct (isExcluded excl u); [done|].
  unfold bind. destruct (default false only); [|done].
  by destruct (optionalCacheHasRgbppAssets _ _ s) as [[[|]|e] s1].
Qed.

(** The loop resolves with the selection [takeUntil] makes among the
    candidates that pass the filters; it rejects only with a failure
    of the service, met at a candidate whose lookup the service
    rejects. *)
Lemma collectLoop_run candidates collected amount s :
  exists s',
    onlyLookups this s s'
    /\ (collectLoop this target excl only candidates collected amount s
        = (Returned
             ((collected ++
               takeUntil target (passing this (cache s) excl only candidates) amount)%list,
              amount + totalValue
                (takeUntil target (passing this (cache s) excl only candidates) amount)),
           s')
        \/ (default false only = true
            /\ (exists u, u ∈ candidates
                          /\ lookupHasRgbppAssets this (cache s) u = None)
            /\ exists f,
                 collectLoop this target excl only candidates collected amount s
                 = (Thrown (ServiceFailure f), s'))).
Proof.
  revert collected amount s.
  induction candidates as [|u rest IH]; intros collected amount s.
  { exists s. split; [apply onlyLookups_refl|]. left; simpl.
    unfold ret. by rewrite totalValue_nil, app_nil_r, Z.add_0_r. }
  rewrite collectLoop_cons, passing_cons.
  case_decide as Hacc.
  { exists s. split; [apply onlyLookups_refl|]. left.
    rewrite takeUntil_reached by done.
    by rewrite totalValue_nil, app_nil_r, Z.add_0_r. }
  unfold passesFilters at 1 2.
  destruct (isExcluded excl u) eqn:Hex; simpl.
  { destruct (IH collected amount s) as (s' & Hs' & Hrun). exists s'.
    split; [done|].
    destruct Hrun as [Hrun | (Ho & (u' & Hin & Hu') & Hrun)]; [by left|right].
    split; [done|]. split; [|done]. exists u'. split; [by right|done]. }
  destruct (default false only) eqn:Honly; simpl.
  - destruct (lookup_run u s) as (s1 & Hs1 & Hlook).
    destruct (lookupHasRgbppAssets this (cache s) u) as [has|] eqn:Hl.
    + rewrite Hlook. destruct has; simpl.
      * destruct (IH collected amount s1) as (s' & Hs' & Hrun). exists s'.
        split; [by eapply onlyLookups_trans|].
        rewrite <- (passing_onlyLookups s s1) by done.
        destruct Hrun as [Hrun | (Ho & (u' & Hin & Hu') & Hrun)]; [by left|right].
        split; [done|]. split; [|done]. exists u'. split; [by right|].
        destruct Hs1 as (_ & _ & <-). done.
      * destruct (IH (collected ++ [u])%list (amount + value u) s1) as (s' & Hs' & Hrun).
        exists s'. split; [by eapply onlyLookups_trans|].
        rewrite decide_False by done.
        rewrite <- (passing_onlyLookups s s1) by done.
        destruct Hrun as [Hrun | (Ho & (u' & Hin & Hu') & Hrun)]; [left|right].
        { rewrite Hrun, <- app_assoc, totalValue_cons. simpl.
          by rewrite Z.add_assoc. }
        split; [done|]. split; [|done]. exists u'. split; [by right|].
        destruct Hs1 as (_ & _ & <-). done.
    + destruct Hlook as (f & Hlook). rewrite Hlook. exists s1.
      split; [done|]. right. split; [done|]. split; [|by exists f].
      exists u. split; [by left|done].
  - destruct (IH (collected ++ [u])%list (amount + value u) s) as (s' & Hs' & Hrun).
    exists s'. split; [done|].
    rewrite decide_False by done.
    destruct Hrun as [Hrun | (Ho & _)]; [left|done].
    rewrite Hrun, <- app_assoc, totalValue_cons. simpl.
    by rewrite Z.add_assoc.
Qed.

(** The loop runs to its end when no lookup it may need is rejected. *)
Lemma collectLoop_returns candidates collected amount s :
  default false only = false
  \/ (forall u, u ∈ candidates -> lookupHasRgbppAssets this (cache s) u <> None) ->
  exists collected' s',
    collectLoop this target excl only candidates collected amount s
    = (Returned (collected', amount + totalValue
                   (takeUntil target (passing this (cache s) excl only candidates) amount)),
       s').
Proof.
  intros Hok.
  destruct (collectLoop_run candidates collected amount s)
    as (s' & _ & [Hrun | (Honly & (u & Hin & Hnone) & _)]).
  - by do 2 eexists.
  - destruct Hok as [Hoff | Hall]; [congruence|]. by destruct (Hall u Hin).
Qed.

End LoopFacts.

End CollectFacts.

(** * Collecting satoshi *)

Section SelectionFacts.
Context {imports : Imports}.
Variable this : DataSource.

Lemma mapAsync_state {A B} (f : A -> Async B) l s :
  (forall x s, snd (f x s) = s) -> snd (mapAsync f l s) = s.
Proof.
  intros Hf. revert s. induction l as [|x l IH]; intros s; simpl; [done|].
  unfold bind. specialize (Hf x s). destruct (f x s) as [[y|e] s1]; simpl in *; subst.
  - specialize (IH s). by destruct (mapAsync f l s) as [[ys|e] s2].
  - done.
Qed.

(** [getUtxos] sends one listing request and leaves the cache alone,
    however it settles; it resolves with the sorted rows, and rejects
    with the service's failure or with what an address helper throws. *)
Lemma getUtxos_cases address params s :
  snd (getUtxos this address params s)
    = {| cache := cache s; requests := requests s ++ [ReqUtxos address params] |}
  /\ match fst (getUtxos this address params s) with
     | Returned us =>
         exists rows scriptPk ty,
           getBtcUtxos (service this) address params = Answered rows
           /\ us = map (rowToUtxo address scriptPk ty) (sort compareUtxos rows)
     | Thrown (ServiceFailure f) =>
         getBtcUtxos (service this) address params = Rejected f
     | Thrown (HelperError _ input) => input = address
     | Thrown (BuildError _) | Thrown TypeError => False
     end.
Proof.
  unfold getUtxos, bind, request.
  destruct (getBtcUtxos _ _ _) as [rows|f]; simpl; [|done].
  destruct (addressToScriptPublicKeyHex _ _) as [pk|]; simpl; [|done].
  split.
  { apply mapAsync_state. intros row s'. unfold bind.
    by destruct (getAddressType address). }
  destruct (getAddressType address) as [ty|] eqn:Hty.
  - erewrite mapAsync_ret; [simpl; by exists rows, pk, ty|].
    intros row s'. by unfold bind.
  - destruct (sort compareUtxos rows) as [|row l] eqn:Hsort; simpl.
    + exists rows, pk, P2PKH. by rewrite Hsort.
    + by unfold bind.
Qed.

Lemma fetchCandidates_hit props s k cached :
  internalCacheKey props = Some k ->
  cache_utxos (cache s) !! k = Some cached ->
  fetchCandidates this props s = (Returned cached, s).
Proof.
  intros Hk Hc. unfold fetchCandidates, optionalCacheUtxos, bind, readCache.
  by rewrite Hk, Hc.
Qed.

(** Without a stored list for the key, the candidates come from
    [getUtxos]; a list that arrives is stored under the key. *)
Lemma fetchCandidates_miss props s :
  (forall k, internalCacheKey props = Some k -> cache_utxos (cache s) !! k = None) ->
  let params :=
    Some {| only_confirmed := onlyConfirmedUtxos props;
            min_satoshi := minUtxoSatoshi props;
            no_cache := noAssetsApiCache props |} in
  let sent :=
    {| cache := cache s;
       requests := requests s ++ [ReqUtxos (props_address props) params] |} in
  fetchCandidates this props s =
  match fst (getUtxos this (props_address props) params s) with
  | Returned us =>
      (Returned us,
       match internalCacheKey props with
       | Some k =>
           {| cache := {| cache_utxos := <[k := us]> (cache_utxos (cache s));
                          cache_hasRgbppAssets := cache_hasRgbppAssets (cache s) |};
              requests := requests sent |}
       | None => sent
       end)
  | Thrown e => (Thrown e, sent)
  end.
Proof.
  intros Hmiss params sent.
  destruct (getUtxos_cases (props_address props) params s) as [Hs _].
  fold sent in Hs.
  unfold fetchCandidates, optionalCacheUtxos. fold params.
  destruct (internalCacheKey props) as [k|] eqn:Hk.
  - unfold bind, readCache. rewrite (Hmiss k eq_refl).
    destruct (getUtxos _ _ _ _) as [[us|e] s1]; simpl in *; by subst.
  - destruct (getUtxos _ _ _ _) as [[us|e] s1]; simpl in *; by subst.
Qed.

(** Fetching the candidates never touches the [hasRgbppAssets] map,
    and it rejects only with a failure of the service or with what an
    address helper throws. *)
Lemma fetchCandidates_cases props s :
  cache_hasRgbppAssets (cache (snd (fetchCandidates this props s)))
    = cache_hasRgbppAssets (cache s)
  /\ match fst (fetchCandidates this props s) with
     | Returned _ | Thrown (ServiceFailure _) | Thrown (HelperError _ _) => True
     | Thrown (BuildError _) | Thrown TypeError => False
     end.
Proof.
  destruct (internalCacheKey props) as [k|] eqn:Hk.
  - destruct (cache_utxos (cache s) !! k) as [cached|] eqn:Hc.
    { by rewrite (fetchCandidates_hit props s k cached). }
    rewrite fetchCandidates_miss by (intros k'; rewrite Hk; by intros [= <-]).
    pose proof (getUtxos_cases (props_address props)
      (Some {| only_confirmed := onlyConfirmedUtxos props;
               min_satoshi := minUtxoSatoshi props;
               no_cache := noAssetsApiCache props |}) s) as [_ Hcase].
    destruct (fst (getUtxos _ _ _ _)) as [us|[e|f| |h a]]; rewrite ?Hk; simpl; done.
  - rewrite fetchCandidates_miss by (intros k'; by rewrite Hk).
    pose proof (getUtxos_cases (props_address props)
      (Some {| only_confirmed := onlyConfirmedUtxos props;
               min_satoshi := minUtxoSatoshi props;
               no_cache := noAssetsApiCache props |}) s) as [_ Hcase].
    destruct (fst (getUtxos _ _ _ _)) as [us|[e|f| |h a]]; rewrite ?Hk; simpl; done.
Qed.

(** [collectSatoshi] as the sequence of its three stages. *)
Lemma collectSatoshi_run props s :
  collectSatoshi this props s =
  match fetchCandidates this props s with
  | (Thrown e, s1) => (Thrown e, s1)
  | (Returned candidates, s1) =>
    match collectLoop this (targetAmount props) (default [] (excludeUtxos props))
            (onlyNonRgbppUtxos props) candidates [] 0 s1 with
    | (Thrown e, s2) => (Thrown e, s2)
    | (Returned (collected, collectedAmount), s2) =>
      if (negb (default false (allowInsufficient props))
          && bool_decide (collectedAmount < targetAmount props))%bool then
        (Thrown (BuildError (withComment INSUFFICIENT_UTXO
                   (expectedActual (targetAmount props) collectedAmount))), s2)
      else
        (Returned {| utxos := collected;
                     satoshi := collectedAmount;
                     exceedSatoshi := collectedAmount - targetAmount props |}, s2)
    end
  end.
Proof.
  unfold collectSatoshi, fetchCandidates, bind.
  destruct (optionalCacheUtxos _ _ s) as [[candidates|e] s1]; [|done].
  destruct (collectLoop _ _ _ _ _ _ _ s1) as [[[collected amount]|e] s2]; [|done].
  by destruct (_ && _)%bool.
Qed.

Lemma passing_same_flags c c' excl only l :
  cache_hasRgbppAssets c = cache_hasRgbppAssets c' ->
  passing this c excl only l = passing this c' excl only l.
Proof.
  intros Hc. apply list_filter_iff. intros u.
  unfold passesFilters, lookupHasRgbppAssets. by rewrite Hc.
Qed.

(** What a call that resolves has selected: the loop's selection among
    the candidates that pass the filters, as they stand when the call
    starts. *)
Lemma collectSatoshi_returned props s candidates s1 r s2 :
  fetchCandidates this props s = (Returned candidates, s1) ->
  collectSatoshi this props s = (Returned r, s2) ->
  let selection :=
    takeUntil (targetAmount props)
      (passing this (cache s) (default [] (excludeUtxos props))
         (onlyNonRgbppUtxos props) candidates) 0 in
  utxos r = selection
  /\ satoshi r = totalValue selection
  /\ exceedSatoshi r = totalValue selection - targetAmount props
  /\ (totalValue selection < targetAmount props ->
      default false (allowInsufficient props) = true).
Proof.
  intros Hfetch Hrun selection. rewrite collectSatoshi_run, Hfetch in Hrun.
  pose proof (fetchCandidates_cases props s) as [Hflags _].
  rewrite Hfetch in Hflags; simpl in Hflags.
  destruct (collectLoop_run this (targetAmount props) (default [] (excludeUtxos props))
              (onlyNonRgbppUtxos props) candidates [] 0 s1) as (s' & _ & Hloop).
  rewrite (passing_same_flags (cache s1) (cache s)) in Hloop by done.
  fold selection in Hloop.
  destruct Hloop as [Hloop | (_ & _ & f & Hloop)]; rewrite Hloop in Hrun; [|done].
  simpl in Hrun.
  destruct (default false (allowInsufficient props)); simpl in Hrun.
  - injection Hrun as <- <-. simpl. by rewrite Z.add_0_l.
  - case_bool_decide as Hlt; [done|]. injection Hrun as <- <-. simpl.
    rewrite Z.add_0_l in *. by repeat split.
Qed.

(** A call resolves once the candidates are fetched, no lookup the
    loop may need is rejected, and the candidates that pass the filters
    add up to the target (or a shortfall is allowed). *)
Lemma collectSatoshi_resolves props s candidates s1 :
  fetchCandidates this props s = (Returned candidates, s1) ->
  default false (onlyNonRgbppUtxos props) = false
  \/ (forall u, u ∈ candidates -> lookupHasRgbppAssets this (cache s) u <> None) ->
  targetAmount props
    <= totalValue (passing this (cache s) (default [] (excludeUtxos props))
                     (onlyNonRgbppUtxos props) candidates)
  \/ default false (allowInsufficient props) = true ->
  exists r s2, collectSatoshi this props s = (Returned r, s2).
Proof.
  intros Hfetch Hok Henough. rewrite collectSatoshi_run, Hfetch.
  pose proof (fetchCandidates_cases props s) as [Hflags _].
  rewrite Hfetch in Hflags; simpl in Hflags.
  destruct (collectLoop_returns this (targetAmount props)
              (default [] (excludeUtxos props)) (onlyNonRgbppUtxos props)
              candidates [] 0 s1) as (c & s2 & Hloop).
  { destruct Hok as [Hoff | Hall]; [by left|right].
    intros u Hu. unfold lookupHasRgbppAssets. rewrite Hflags. by apply Hall. }
  rewrite Hloop.
  rewrite (passing_same_flags (cache s1) (cache s)) by done.
  destruct (default false (allowInsufficient props)) eqn:Hallow; simpl;
    [by do 2 eexists|].
  destruct Henough as [Hge | [=]].
  destruct (takeUntil_total (targetAmount props)
              (passing this (cache s) (default [] (excludeUtxos props))
                 (onlyNonRgbppUtxos props) candidates) 0) as [Hreach | [_ Hshort]];
    [|lia].
  rewrite bool_decide_eq_false_2 by lia. by do 2 eexists.
Qed.

End SelectionFacts.

(** ** The code's filters against the spec's *)

Lemma lookupHasRgbppAssets_carries this c u :
  lookupHasRgbppAssets this c u = Some true <-> carriesAssets this c u.
Proof.
  unfold lookupHasRgbppAssets, carriesAssets, assetsKey.
  destruct (cache_hasRgbppAssets c !! _) as [stored|].
  { split; [by intros [= ->] | by intros ->]. }
  destruct (getRgbppAssetsByBtcUtxo _ _ _) as [[[|cell cells]|]|f]; simpl;
    split; try done;
    intros _; by rewrite bool_decide_eq_true_2 by (simpl; lia).
Qed.

Lemma passesFilters_survives this c excl only u :
  passesFilters this c excl only u = true <-> survives this c excl only u.
Proof.
  unfold passesFilters, survives, namedByExclusion.
  rewrite andb_true_iff, !negb_true_iff, Exists_exists.
  rewrite <- (not_true_iff_false (isExcluded excl u)), isExcluded_spec.
  rewrite <- (lookupHasRgbppAssets_carries this c u).
  split.
  - intros [Hex Hb]. split; [done|]. intros Honly Hl.
    by rewrite Honly, bool_decide_eq_true_2 in Hb.
  - intros [Hex Hb]. split; [done|].
    destruct (default false only); [|done]. simpl.
    apply bool_decide_eq_false_2. by apply Hb.
Qed.

(** The candidates the loop lets through are those of the spec. *)
Lemma passing_surviving this c excl only l :
  passing this c excl only l = surviving this c excl only l.
Proof.
  unfold passing, surviving. apply list_filter_iff. intros u.
  apply passesFilters_survives.
Qed.




(** C3. [collectSatoshi] rejects with INSUFFICIENT_UTXO exactly when the
    candidates were fetched, the loop ran to its end with a collected
    amount strictly below the target, and [allowInsufficient] is false; the
    error's comment names the target and the collected amount. Otherwise,
    once the loop has ended, the call resolves with the collected amount
    and with [exceedSatoshi] equal to that amount minus the target, so
    an amount equal to the target is no failure. Whenever the call
    resolves, [exceedSatoshi] is [satoshi] minus the target, [satoshi] is
    the sum of the selected values, and [exceedSatoshi] is negative only
    if [allowInsufficient] is true. The loop does run to its end once the
    candidates are fetched, unless the service rejects an asset lookup. *)
Theorem collectSatoshi_insufficient (imports : Imports) (this : DataSource) props s :
  let target := targetAmount props in
  let allow := default false (allowInsufficient props) in
  let loop :=
    collectLoop this target (default [] (excludeUtxos props)) (onlyNonRgbppUtxos props) in
  ((exists e s', collectSatoshi this props s = (Thrown (BuildError e), s')
                 /\ code e = INSUFFICIENT_UTXO)
   <-> (exists candidates s1 collected amount s2,
          fetchCandidates this props s = (Returned candidates, s1)
          /\ loop candidates [] 0 s1 = (Returned (collected, amount), s2)
          /\ amount < target /\ allow = false))
  /\ (forall candidates s1 collected amount s2,
        fetchCandidates this props s = (Returned candidates, s1) ->
        loop candidates [] 0 s1 = (Returned (collected, amount), s2) ->
        (amount < target -> allow = false ->
         collectSatoshi this props s
         = (Thrown (BuildError (withComment INSUFFICIENT_UTXO
                      (expectedActual target amount))), s2))
        /\ (target <= amount \/ allow = true ->
            collectSatoshi this props s
            = (Returned {| utxos := collected; satoshi := amount;
                           exceedSatoshi := amount - target |}, s2)))
  /\ (forall r s', collectSatoshi this props s = (Returned r, s') ->
        exceedSatoshi r = satoshi r - target
        /\ satoshi r = totalValue (utxos r)
        /\ (exceedSatoshi r < 0 -> allow = true))
  /\ (forall candidates s1,
        fetchCandidates this props s = (Returned candidates, s1) ->
        default false (onlyNonRgbppUtxos props) = false
        \/ (forall u, u ∈ candidates ->
                      lookupHasRgbppAssets this (cache s1) u <> None) ->
        exists collected amount s2,
          loop candidates [] 0 s1 = (Returned (collected, amount), s2)).
Proof.
  intros target allow loop. split; [split|split; [|split]].
  - intros (e & s' & Hrun & Hcode). rewrite collectSatoshi_run in Hrun.
    pose proof (fetchCandidates_cases this props s) as [_ Hf].
    destruct (fetchCandidates this props s) as [[candidates|e1] s1]; simpl in Hf.
    2: { injection Hrun as -> _. by simpl in Hf. }
    fold target loop in Hrun.
    destruct (collectLoop_run this target (default [] (excludeUtxos props))
                (onlyNonRgbppUtxos props) candidates [] 0 s1) as (s2 & _ & Hloop).
    fold loop in Hloop.
    destruct Hloop as [Hloop | (_ & _ & f & Hloop)]; rewrite Hloop in Hrun; [|done].
    fold allow in Hrun. exists candidates, s1. do 3 eexists.
    split; [done|]. split; [exact Hloop|].
    destruct allow; simpl in Hrun; [done|].
    case_bool_decide; [done|]. done.
  - intros (candidates & s1 & collected & amount & s2 & Hfetch & Hloop & Hlt & Hallow).
    rewrite collectSatoshi_run, Hfetch. fold target loop allow.
    rewrite Hloop, Hallow; simpl. rewrite bool_decide_eq_true_2 by done.
    by do 2 eexists.
  - intros candidates s1 collected amount s2 Hfetch Hloop.
    rewrite collectSatoshi_run, Hfetch. fold target loop allow. rewrite Hloop.
    split.
    + intros Hlt ->. simpl. by rewrite bool_decide_eq_true_2.
    + intros [Hge | ->]; [|done].
      rewrite bool_decide_eq_false_2 by lia. by rewrite andb_false_r.
  - intros r s' Hrun.
    destruct (fetchCandidates this props s) as [[candidates|e1] s1] eqn:Hfetch.
    2: { by rewrite collectSatoshi_run, Hfetch in Hrun. }
    destruct (collectSatoshi_returned this props s candidates s1 r s' Hfetch Hrun)
      as (Hu & Hs & Hex & Hallow).
    subst target allow. rewrite Hex, Hs, Hu.
    split; [done|]. split; [done|]. intros Hneg. apply Hallow. lia.
  - intros candidates s1 _ Hok.
    destruct (collectLoop_returns this target (default [] (excludeUtxos props))
                (onlyNonRgbppUtxos props) candidates [] 0 s1 Hok) as (c & s2 & Hrun).
    by do 3 eexists.
Qed.

(** The last example of the spec: the three candidates add up to 10000,
    so a target of 10000 is met exactly and a target of 10001 fails by
    one. *)
Lemma collectSatoshi_insufficient_witness :
  fst (@collectSatoshi Fixture.imports Fixture.source (Fixture.props 10001) newSession)
    = Thrown (BuildError (withComment INSUFFICIENT_UTXO
                "expected: 10001, actual: 10000"))
  /\ fst (@collectSatoshi Fixture.imports Fixture.source (Fixture.props 10000) newSession)
     = Returned {| utxos := Fixture.candidates; satoshi := 10000; exceedSatoshi := 0 |}.
Proof.
  split.
  - refine (f_equal fst
      (proj1 (proj1 (proj2 (collectSatoshi_insufficient Fixture.imports Fixture.source
                              (Fixture.props 10001) newSession))
                Fixture.candidates
                (snd (@fetchCandidates Fixture.imports Fixture.source
                        (Fixture.props 10001) newSession))
                Fixture.candidates 10000
                (snd (@collectSatoshi Fixture.imports Fixture.source
                        (Fixture.props 10001) newSession))
                _ _) _ _));
      vm_compute; reflexivity.
  - refine (f_equal fst
      (proj2 (proj1 (proj2 (collectSatoshi_insufficient Fixture.imports Fixture.source
                              (Fixture.props 10000) newSession))
                Fixture.candidates
                (snd (@fetchCandidates Fixture.imports Fixture.source
                        (Fixture.props 10000) newSession))
                Fixture.candidates 10000
                (snd (@collectSatoshi Fixture.imports Fixture.source
                        (Fixture.props 10000) newSession))
                _ _) _)).
    + vm_compute; reflexivity.
    + vm_compute; reflexivity.
    + left. vm_compute. discriminate.
Defined.

(** C4. Whenever [collectSatoshi] resolves, no selected output has the
    [txid] and the [vout] of an entry of [excludeUtxos]; the loop's
    exclusion test holds of a candidate exactly when some entry has
    exactly its [txid] and its [vout]. *)
Theorem collectSatoshi_excludes (imports : Imports) (this : DataSource) props s r s' :
  collectSatoshi this props s = (Returned r, s') ->
  (forall u e, u ∈ utxos r -> e ∈ default [] (excludeUtxos props) ->
     ~ (exclude_txid e = txid u /\ exclude_vout e = vout u))
  /\ (forall u, isExcluded (default [] (excludeUtxos props)) u = true
                <-> exists e, e ∈ default [] (excludeUtxos props)
                              /\ exclude_txid e = txid u /\ exclude_vout e = vout u).
Proof.
  intros Hrun. split; [|intros u; apply isExcluded_spec].
  intros u e Hu He Hm.
  destruct (fetchCandidates this props s) as [[candidates|e1] s1] eqn:Hfetch.
  2: { by rewrite collectSatoshi_run, Hfetch in Hrun. }
  destruct (collectSatoshi_returned this props s candidates s1 r s' Hfetch Hrun)
    as (Hsel & _).
  rewrite Hsel in Hu.
  eapply elem_of_prefix in Hu; [|apply takeUntil_prefix].
  apply list_elem_of_filter in Hu as [Hpass _].
  unfold passesFilters in Hpass. apply andb_true_iff in Hpass as [Hex _].
  apply negb_true_iff in Hex.
  assert (isExcluded (default [] (excludeUtxos props)) u = true) as Hyes
    by (apply isExcluded_spec; by exists e).
  congruence.
Qed.

Lemma collectSatoshi_excludes_witness :
  fst (@collectSatoshi Fixture.imports Fixture.source Fixture.propsExcluding newSession)
    = Returned {| utxos := [Fixture.utxo "aa" 0 5000];
                  satoshi := 5000; exceedSatoshi := 0 |}
  /\ ~ (exclude_txid {| exclude_txid := "bb"; exclude_vout := 0 |}
          = txid (Fixture.utxo "aa" 0 5000)
        /\ exclude_vout {| exclude_txid := "bb"; exclude_vout := 0 |}
          = vout (Fixture.utxo "aa" 0 5000)).
Proof.
  split; [vm_compute; reflexivity|].
  refine (proj1 (collectSatoshi_excludes Fixture.imports Fixture.source
                   Fixture.propsExcluding newSession
                   {| utxos := [Fixture.utxo "aa" 0 5000];
                      satoshi := 5000; exceedSatoshi := 0 |}
                   (snd (@collectSatoshi Fixture.imports Fixture.source
                           Fixture.propsExcluding newSession))
                   _) _ _ _ _).
  - vm_compute. reflexivity.
  - apply list_elem_of_here.
  - apply list_elem_of_here.
Defined.

(** C5. With [onlyNonRgbppUtxos] set, whenever [collectSatoshi] resolves,
    an output whose lookup through the cache (keyed by its
    ["txid:vout"]) resolves with [true] is not selected; in particular,
    an output without a stored flag for which the service answers with a
    non-empty array is not selected. *)
Theorem collectSatoshi_skips_assets (imports : Imports) (this : DataSource)
    props s r s' :
  default false (onlyNonRgbppUtxos props) = true ->
  collectSatoshi this props s = (Returned r, s') ->
  forall u,
    (lookupHasRgbppAssets this (cache s) u = Some true -> u ∉ utxos r)
    /\ (forall cells,
          cache_hasRgbppAssets (cache s) !! assetsKey u = None ->
          getRgbppAssetsByBtcUtxo (service this) (txid u) (vout u)
            = Answered (AssetArray cells) ->
          cells <> [] ->
          u ∉ utxos r).
Proof.
  intros Honly Hrun u.
  assert (lookupHasRgbppAssets this (cache s) u = Some true -> u ∉ utxos r) as Hskip.
  { intros Hl Hu.
    destruct (fetchCandidates this props s) as [[candidates|e1] s1] eqn:Hfetch.
    2: { by rewrite collectSatoshi_run, Hfetch in Hrun. }
    destruct (collectSatoshi_returned this props s candidates s1 r s' Hfetch Hrun)
      as (Hsel & _).
    rewrite Hsel in Hu.
    eapply elem_of_prefix in Hu; [|apply takeUntil_prefix].
    apply list_elem_of_filter in Hu as [Hpass _].
    unfold passesFilters in Hpass. apply andb_true_iff in Hpass as [_ Hb].
    by rewrite Honly, Hl in Hb. }
  split; [done|].
  intros cells Hc Ha Hne. apply Hskip.
  unfold lookupHasRgbppAssets. rewrite Hc, Ha. simpl.
  destruct cells; [done|]. by rewrite bool_decide_eq_true_2 by (simpl; lia).
Qed.

Lemma collectSatoshi_skips_assets_witness :
  fst (@collectSatoshi Fixture.imports Fixture.source Fixture.propsNonRgbpp newSession)
    = Returned {| utxos := [Fixture.utxo "bb" 0 2000; Fixture.utxo "aa" 0 5000];
                  satoshi := 7000; exceedSatoshi := -1000 |}
  /\ lookupHasRgbppAssets Fixture.source (cache newSession) (Fixture.utxo "aa" 1 3000)
     = Some true
  /\ Fixture.utxo "aa" 1 3000 ∉ [Fixture.utxo "bb" 0 2000; Fixture.utxo "aa" 0 5000].
Proof.
  split; [vm_compute; reflexivity|]. split; [vm_compute; reflexivity|].
  refine (proj1 (collectSatoshi_skips_assets Fixture.imports Fixture.source
                   Fixture.propsNonRgbpp newSession
                   {| utxos := [Fixture.utxo "bb" 0 2000; Fixture.utxo "aa" 0 5000];
                      satoshi := 7000; exceedSatoshi := -1000 |}
                   (snd (@collectSatoshi Fixture.imports Fixture.source
                           Fixture.propsNonRgbpp newSession))
                   _ _ (Fixture.utxo "aa" 1 3000)) _);
    vm_compute; reflexivity.
Defined.

(** * Calls that share a cache key *)

Section SharingFacts.
Context {imports : Imports}.
Variable this : DataSource.

Local Open Scope list_scope.

Lemma loopBody_onlyLookups target excl only u collected amount s :
  onlyLookups this s (snd (loopBody this target excl only u collected amount s)).
Proof.
  unfold loopBody. case_decide; [apply onlyLookups_refl|].
  destruct (_ && _)%bool; [apply onlyLookups_refl|].
  unfold bind. destruct (default false only); [|apply onlyLookups_refl].
  destruct (lookup_run this u s) as (s1 & Hs1 & Hlook).
  destruct (lookupHasRgbppAssets this (cache s) u) as [has|].
  - rewrite Hlook. by destruct has.
  - destruct Hlook as (f & ->). done.
Qed.

Lemma collectLoop_onlyLookups target excl only candidates collected amount s :
  onlyLookups this s
    (snd (collectLoop this target excl only candidates collected amount s)).
Proof.
  destruct (collectLoop_run this target excl only candidates collected amount s)
    as (s' & Hs' & [-> | (_ & _ & f & ->)]); done.
Qed.

(** After the candidates are fetched, a call only looks up assets. *)
Lemma collectSatoshi_onlyLookups props s :
  onlyLookups this (snd (fetchCandidates this props s))
    (snd (collectSatoshi this props s)).
Proof.
  rewrite collectSatoshi_run.
  destruct (fetchCandidates this props s) as [[candidates|e] s1]; simpl;
    [|apply onlyLookups_refl].
  pose proof (collectLoop_onlyLookups (targetAmount props)
    (default [] (excludeUtxos props)) (onlyNonRgbppUtxos props) candidates [] 0 s1)
    as Hloop.
  destruct (collectLoop _ _ _ _ _ _ _ s1) as [[[collected amount]|e] s2]; simpl in *;
    [|done].
  by destruct (_ && _)%bool.
Qed.

Lemma listingRequests_snoc s r :
  listingRequests {| cache := cache s; requests := requests s ++ [r] |}
  = listingRequests s ++ (if isListing r then [r] else []).
Proof.
  unfold listingRequests; simpl. rewrite filter_app. f_equal.
  destruct (isListing r) eqn:Hr.
  - by rewrite filter_cons_True.
  - rewrite filter_cons_False; [done|]. by rewrite Hr.
Qed.

(** Two calls in a row with the same key: the first sends the one
    listing request and stores the list, the second receives that list
    from the cache. *)
Lemma collectSatoshi_twice props1 props2 k s v :
  internalCacheKey props1 = Some k ->
  internalCacheKey props2 = Some k ->
  cache_utxos (cache s) !! k = None ->
  fst (utxosGetter this props1 s) = Returned v ->
  let s1 := snd (collectSatoshi this props1 s) in
  let s2 := snd (collectSatoshi this props2 s1) in
  fst (fetchCandidates this props1 s) = Returned v
  /\ fetchCandidates this props2 s1 = (Returned v, s1)
  /\ listingRequests s1 = listingRequests s ++ [listingRequest props1]
  /\ listingRequests s2 = listingRequests s ++ [listingRequest props1].
Proof.
  intros Hk1 Hk2 Hmiss Hget s1 s2.
  pose proof (collectSatoshi_onlyLookups props1 s) as (Hc1 & Hl1 & _).
  fold s1 in Hc1, Hl1.
  assert (fetchCandidates this props1 s =
    (Returned v,
     {| cache := {| cache_utxos := <[k := v]> (cache_utxos (cache s));
                    cache_hasRgbppAssets := cache_hasRgbppAssets (cache s) |};
        requests := requests s ++ [listingRequest props1] |})) as Hf1.
  { rewrite fetchCandidates_miss by (intros k'; rewrite Hk1; by intros [= <-]).
    unfold utxosGetter in Hget. rewrite Hget, Hk1. done. }
  rewrite Hf1 in Hc1, Hl1; simpl in Hc1, Hl1.
  assert (cache_utxos (cache s1) !! k = Some v) as Hhit
    by (rewrite Hc1; apply lookup_insert_eq).
  assert (listingRequests s1 = listingRequests s ++ [listingRequest props1]) as Hreq1.
  { rewrite Hl1. apply (listingRequests_snoc s (listingRequest props1)). }
  pose proof (fetchCandidates_hit this props2 s1 k v Hk2 Hhit) as Hf2.
  pose proof (collectSatoshi_onlyLookups props2 s1) as (_ & Hl2 & _).
  fold s2 in Hl2. rewrite Hf2 in Hl2; simpl in Hl2.
  rewrite Hf1. repeat split; [done..|]. by rewrite Hl2.
Qed.

(** ** Overlapping calls *)

Import Concurrent.

(** What holds of every world that calls with key [k] reach from a
    session in which [k] is unseen: nothing has been asked yet; or one
    listing request is out and everybody who has started waits for its
    promise; or the list has arrived, is stored under [k], and is what
    every call has received or will receive. *)
Inductive phase (k : string) (s0 : Session) (good : CollectProps -> Prop)
    (w : World) : Prop :=
| phase_idle :
    listingRequests (session w) = listingRequests s0 ->
    cache_utxos (cache (session w)) !! k = None ->
    inflight w !! k = None ->
    promises w = [] ->
    Forall (fun t => exists props, t = Start props /\ good props) (tasks w) ->
    phase k s0 good w
| phase_inflight r v :
    listingRequests (session w) = listingRequests s0 ++ [r] ->
    cache_utxos (cache (session w)) !! k = None ->
    inflight w !! k = Some 0%nat ->
    promises w = [InFlight (Some k) (Returned v)] ->
    Forall (fun t => exists props,
              (t = Start props \/ t = AwaitUtxos props 0) /\ good props) (tasks w) ->
    phase k s0 good w
| phase_stored r v :
    listingRequests (session w) = listingRequests s0 ++ [r] ->
    cache_utxos (cache (session w)) !! k = Some v ->
    Forall (fun p => p = Settled (Returned v)) (promises w) ->
    Forall (fun t => (exists props, t = Start props /\ good props)
                     \/ (exists props p, t = AwaitUtxos props p
                                         /\ (p < length (promises w))%nat)
                     \/ received t = Some v) (tasks w) ->
    phase k s0 good w.

Lemma Forall_insert_task {P : Task -> Prop} (l : list Task) i t :
  Forall P l -> P t -> Forall P (<[i := t]> l).
Proof. intros. by apply Forall_insert. Qed.

Lemma phase_step k s0 w w' :
  let good props := internalCacheKey props = Some k
                    /\ exists v, listingResolves this props v in
  phase k s0 good w -> step this w w' -> phase k s0 good w'.
Proof.
  intros good Hphase Hstep.
  destruct Hphase as [Hreq Hcache Hfly Hprom Htasks
                     | r v Hreq Hcache Hfly Hprom Htasks
                     | r v Hreq Hcache Hprom Htasks].
  - (* nothing asked yet *)
    inversion Hstep as
      [w0 i props o s' Hi Hfresh Hget | w0 i props k' p Hi Hk Hc Hf
      | w0 i props k' v' Hi Hk Hc | w0 p key o Hp | w0 i props p o Hi Hp
      | w0 i props v' u rest c a flow s' Hi Hb | w0 i props v' c a Hi];
      subst; simpl in *.
    + pose proof (Forall_lookup_1 _ _ _ _ Htasks Hi) as (props' & [= <-] & Hk & v & Hv).
      pose proof (Hv (session w)) as Hres. rewrite Hget in Hres; simpl in Hres; subst o.
      pose proof (getUtxos_cases this (props_address props)
        (Some {| only_confirmed := onlyConfirmedUtxos props;
                 min_satoshi := minUtxoSatoshi props;
                 no_cache := noAssetsApiCache props |}) (session w)) as [Hs' _].
      unfold utxosGetter in Hget. rewrite Hget in Hs'; simpl in Hs'. subst s'.
      rewrite Hk, Hprom. simpl.
      eapply (phase_inflight _ _ _ _ (listingRequest props) v); simpl.
      * by rewrite (listingRequests_snoc (session w)), Hreq.
      * done.
      * apply lookup_insert_eq.
      * done.
      * apply Forall_insert_task; [|exists props; split; [by right|by split; [|exists v]]].
        eapply Forall_impl; [exact Htasks|].
        intros t (props' & -> & Hgood). exists props'. split; [by left|done].
    + pose proof (Forall_lookup_1 _ _ _ _ Htasks Hi) as (props' & [= <-] & Hk' & _).
      rewrite Hk in Hk'. injection Hk' as ->. congruence.
    + pose proof (Forall_lookup_1 _ _ _ _ Htasks Hi) as (props' & [= <-] & Hk' & _).
      rewrite Hk in Hk'. injection Hk' as ->. congruence.
    + by rewrite Hprom in Hp.
    + by pose proof (Forall_lookup_1 _ _ _ _ Htasks Hi) as (props' & [=] & _).
    + by pose proof (Forall_lookup_1 _ _ _ _ Htasks Hi) as (props' & [=] & _).
    + by pose proof (Forall_lookup_1 _ _ _ _ Htasks Hi) as (props' & [=] & _).
  - (* the request is out *)
    inversion Hstep as
      [w0 i props o s' Hi Hfresh Hget | w0 i props k' p Hi Hk Hc Hf
      | w0 i props k' v' Hi Hk Hc | w0 p key o Hp | w0 i props p o Hi Hp
      | w0 i props v' u rest c a flow s' Hi Hb | w0 i props v' c a Hi];
      subst; simpl in *.
    + pose proof (Forall_lookup_1 _ _ _ _ Htasks Hi)
        as (props' & [[= <-]|[=]] & Hk & _).
      destruct (Hfresh k Hk) as [_ Hnone]. congruence.
    + pose proof (Forall_lookup_1 _ _ _ _ Htasks Hi)
        as (props' & [[= <-]|[=]] & Hk' & Hv).
      rewrite Hk in Hk'. injection Hk' as ->.
      rewrite Hfly in Hf. injection Hf as <-.
      eapply (phase_inflight _ _ _ _ r v); simpl; try done.
      apply Forall_insert_task; [done|].
      exists props. split; [by right|by split].
    + pose proof (Forall_lookup_1 _ _ _ _ Htasks Hi)
        as (props' & [[= <-]|[=]] & Hk' & _).
      rewrite Hk in Hk'. injection Hk' as ->. congruence.
    + rewrite Hprom in Hp. destruct p as [|p]; [|done].
      injection Hp as <- <-. rewrite Hprom. simpl.
      eapply (phase_stored _ _ _ _ r v); simpl.
      * done.
      * apply lookup_insert_eq.
      * by repeat constructor.
      * eapply Forall_impl; [exact Htasks|].
        intros t (props & [-> | ->] & Hgood).
        -- left. by exists props.
        -- right. left. exists props, 0%nat. split; [done|simpl; lia].
    + pose proof (Forall_lookup_1 _ _ _ _ Htasks Hi)
        as (props' & [[=]|[= <- ->]] & _).
      by rewrite Hprom in Hp.
    + by pose proof (Forall_lookup_1 _ _ _ _ Htasks Hi) as (props' & [[=]|[=]] & _).
    + by pose proof (Forall_lookup_1 _ _ _ _ Htasks Hi) as (props' & [[=]|[=]] & _).
  - (* the list is stored *)
    inversion Hstep as
      [w0 i props o s' Hi Hfresh Hget | w0 i props k' p Hi Hk Hc Hf
      | w0 i props k' v' Hi Hk Hc | w0 p key o Hp | w0 i props p o Hi Hp
      | w0 i props v' u rest c a flow s' Hi Hb | w0 i props v' c a Hi];
      subst; simpl in *.
    + pose proof (Forall_lookup_1 _ _ _ _ Htasks Hi)
        as [(props' & [= <-] & Hk & _) | [(? & ? & [=] & _) | [=]]].
      destruct (Hfresh k Hk) as [Hnone _]. congruence.
    + pose proof (Forall_lookup_1 _ _ _ _ Htasks Hi)
        as [(props' & [= <-] & Hk' & _) | [(? & ? & [=] & _) | [=]]].
      rewrite Hk in Hk'. injection Hk' as ->. congruence.
    + pose proof (Forall_lookup_1 _ _ _ _ Htasks Hi)
        as [(props' & [= <-] & Hk' & _) | [(? & ? & [=] & _) | [=]]].
      rewrite Hk in Hk'. injection Hk' as ->.
      rewrite Hcache in Hc. injection Hc as <-.
      eapply (phase_stored _ _ _ _ r v); simpl; try done.
      * apply Forall_app. split; [done|]. by repeat constructor.
      * apply Forall_insert_task.
        -- eapply Forall_impl; [exact Htasks|].
           intros t [Ht | [(props' & p & -> & Hp) | Ht]]; [by left| |by right; right].
           right. left. exists props', p. split; [done|].
           rewrite length_app. simpl. lia.
        -- right. left. exists props, (length (promises w)). split; [done|].
           rewrite length_app. simpl. lia.
    + pose proof (Forall_lookup_1 _ _ _ _ Hprom Hp) as [=].
    + pose proof (Forall_lookup_1 _ _ _ _ Hprom Hp) as [= ->].
      eapply (phase_stored _ _ _ _ r v); simpl; try done.
      apply Forall_insert_task; [done|]. by right; right.
    + pose proof (loopBody_onlyLookups (targetAmount props)
        (default [] (excludeUtxos props)) (onlyNonRgbppUtxos props)
        u c a (session w)) as (Hc' & Hl' & _).
      rewrite Hb in Hc', Hl'; simpl in Hc', Hl'.
      pose proof (Forall_lookup_1 _ _ _ _ Htasks Hi)
        as [(? & [=] & _) | [(? & ? & [=] & _) | [= ->]]].
      eapply (phase_stored _ _ _ _ r v); simpl.
      * by rewrite Hl'.
      * by rewrite Hc'.
      * done.
      * apply Forall_insert_task; [done|]. right; right.
        by destruct flow as [[|c' a']|e].
    + pose proof (Forall_lookup_1 _ _ _ _ Htasks Hi)
        as [(? & [=] & _) | [(? & ? & [=] & _) | [= ->]]].
      eapply (phase_stored _ _ _ _ r v); simpl; try done.
      apply Forall_insert_task; [done|]. by right; right.
Qed.

(** No reachable world is stuck: either every call has settled or some
    call can take a turn. *)
Lemma phase_progress k s0 w :
  let good props := internalCacheKey props = Some k
                    /\ exists v, listingResolves this props v in
  phase k s0 good w ->
  Forall (fun t => finished t = true) (tasks w) \/ exists w', step this w w'.
Proof.
  intros good
    [Hreq Hcache Hfly Hprom Htasks
    | r v Hreq Hcache Hfly Hprom Htasks
    | r v Hreq Hcache Hprom Htasks].
  - destruct (tasks w) as [|t ts] eqn:Hts; [by left|right].
    apply Forall_cons in Htasks as [(props & -> & Hk & _) _].
    destruct (utxosGetter this props (session w)) as [o s'] eqn:Hget.
    eexists. eapply (step_call_fresh this w 0 props o s'); [by rewrite Hts| |done].
    intros k'. rewrite Hk. by intros [= <-].
  - right. eexists. eapply (step_settle this w 0). by rewrite Hprom.
  - destruct (decide (Forall (fun t => finished t = true) (tasks w))) as [|Hnot];
      [by left|right].
    apply not_Forall_Exists in Hnot; [|apply _].
    apply Exists_exists in Hnot as (t & Hin & Hrun).
    apply list_elem_of_lookup in Hin as [i Hi].
    rewrite Forall_forall in Htasks.
    destruct (Htasks t (list_elem_of_lookup_2 _ _ _ Hi))
      as [(props & -> & Hk & _) | [(props & p & -> & Hp) | Hrec]].
    + eexists. by eapply (step_call_hit this w i props k v).
    + apply lookup_lt_is_Some in Hp as [x Hx].
      pose proof (Forall_lookup_1 _ _ _ _ Hprom Hx) as ->.
      eexists. by eapply (step_resume this w i props p).
    + destruct t as [| |props v' rest c a|fetched o]; simpl in *; try done.
      destruct rest as [|u rest].
      * eexists. by eapply step_finish.
      * destruct (loopBody this (targetAmount props) (default [] (excludeUtxos props))
                    (onlyNonRgbppUtxos props) u c a (session w)) as [flow s'] eqn:Hb.
        eexists. by eapply step_iterate.
Qed.

Lemma phase_reachable k s0 calls w :
  let good props := internalCacheKey props = Some k
                    /\ exists v, listingResolves this props v in
  Forall good calls ->
  cache_utxos (cache s0) !! k = None ->
  rtc (step this) (start s0 calls) w ->
  phase k s0 good w.
Proof.
  intros good Hcalls Hmiss. revert w. apply rtc_ind_r.
  - apply phase_idle; simpl; try done.
    apply Forall_fmap. eapply Forall_impl; [exact Hcalls|].
    intros props Hgood. by exists props.
  - intros w w' _ Hstep IH. by eapply phase_step.
Qed.

(** ** A call on its own *)

(** [collectSatoshi] as its stages, with the last one as [settleWith]. *)
Lemma collectSatoshi_stages props s :
  collectSatoshi this props s =
  match fetchCandidates this props s with
  | (Returned v, s1) =>
    (settleWith props
       (fst (collectLoop this (targetAmount props) (default [] (excludeUtxos props))
               (onlyNonRgbppUtxos props) v [] 0 s1)),
     snd (collectLoop this (targetAmount props) (default [] (excludeUtxos props))
            (onlyNonRgbppUtxos props) v [] 0 s1))
  | (Thrown e, s1) => (Thrown e, s1)
  end.
Proof.
  rewrite collectSatoshi_run.
  destruct (fetchCandidates this props s) as [[v|e] s1]; [|done].
  destruct (collectLoop _ _ _ _ _ _ _ s1) as [[[c a]|e] s2]; simpl; [|done].
  unfold finish. by destruct (_ && _)%bool.
Qed.

(** The turns of a call in its loop are those of [collectLoop]. *)
Lemma solo_loop props v rest collected amount s fl ps :
  rtc (step this)
    {| session := s; inflight := fl; promises := ps;
       tasks := [Looping props v rest collected amount] |}
    {| session :=
         snd (collectLoop this (targetAmount props) (default [] (excludeUtxos props))
                (onlyNonRgbppUtxos props) rest collected amount s);
       inflight := fl; promises := ps;
       tasks :=
         [Done (Some v)
            (settleWith props
               (fst (collectLoop this (targetAmount props)
                       (default [] (excludeUtxos props))
                       (onlyNonRgbppUtxos props) rest collected amount s)))] |}.
Proof.
  revert collected amount s.
  induction rest as [|u rest IH]; intros collected amount s.
  - apply rtc_once.
    exact (step_finish this
             {| session := s; inflight := fl; promises := ps;
                tasks := [Looping props v [] collected amount] |}
             0 props v collected amount eq_refl).
  - cbn [collectLoop]. unfold bind.
    destruct (loopBody this (targetAmount props) (default [] (excludeUtxos props))
                (onlyNonRgbppUtxos props) u collected amount s)
      as [[[|c' a']|e] s1] eqn:Hb.
    + apply rtc_once.
      exact (step_iterate this
               {| session := s; inflight := fl; promises := ps;
                  tasks := [Looping props v (u :: rest) collected amount] |}
               0 props v u rest collected amount (Returned Break) s1 eq_refl Hb).
    + eapply rtc_l; [|apply IH].
      exact (step_iterate this
               {| session := s; inflight := fl; promises := ps;
                  tasks := [Looping props v (u :: rest) collected amount] |}
               0 props v u rest collected amount (Returned (Next c' a')) s1 eq_refl Hb).
    + apply rtc_once.
      exact (step_iterate this
               {| session := s; inflight := fl; promises := ps;
                  tasks := [Looping props v (u :: rest) collected amount] |}
               0 props v u rest collected amount (Thrown e) s1 eq_refl Hb).
Qed.

(** A call that runs alone settles with what [collectSatoshi] computes,
    in the session [collectSatoshi] leaves, and no promise stays in
    flight. *)
Lemma solo_run props s :
  exists w,
    rtc (step this) (start s [props]) w
    /\ session w = snd (collectSatoshi this props s)
    /\ tasks w
       = [Done match fst (fetchCandidates this props s) with
               | Returned v => Some v
               | Thrown _ => None
               end
            (fst (collectSatoshi this props s))]
    /\ inflight w = ∅
    /\ promises w = [Settled (fst (fetchCandidates this props s))].
Proof.
  rewrite collectSatoshi_stages.
  destruct (internalCacheKey props) as [k|] eqn:Hk.
  - destruct (cache_utxos (cache s) !! k) as [cached|] eqn:Hc.
    + rewrite (fetchCandidates_hit this props s k cached Hk Hc). simpl.
      eexists. split.
      { eapply rtc_l.
        { exact (step_call_hit this (start s [props]) 0 props k cached eq_refl Hk Hc). }
        eapply rtc_l.
        { eapply (step_resume this _ 0 props 0); reflexivity. }
        apply solo_loop. }
      by repeat split.
    + rewrite fetchCandidates_miss by (intros k'; rewrite Hk; by intros [= <-]).
      pose proof (getUtxos_cases this (props_address props)
        (Some {| only_confirmed := onlyConfirmedUtxos props;
                 min_satoshi := minUtxoSatoshi props;
                 no_cache := noAssetsApiCache props |}) s) as [Hs' _].
      destruct (getUtxos this _ _ s) as [o s'] eqn:Hget. simpl in Hs'. subst s'.
      rewrite Hk. simpl.
      assert (step this (start s [props])
                {| session := {| cache := cache s;
                                 requests := requests s ++ [listingRequest props] |};
                   inflight := <[k := 0%nat]> ∅;
                   promises := [InFlight (Some k) o];
                   tasks := [AwaitUtxos props 0] |}) as Hcall.
      { pose proof (step_call_fresh this (start s [props]) 0 props o
                      {| cache := cache s;
                         requests := requests s ++ [listingRequest props] |}
                      eq_refl) as Hstep.
        rewrite Hk in Hstep. apply Hstep; [|exact Hget].
        intros k'. intros [= <-]. by split. }
      destruct o as [v|e].
      * eexists. split.
        { eapply rtc_l; [exact Hcall|].
          eapply rtc_l.
          { eapply (step_settle this _ 0); reflexivity. }
          eapply rtc_l.
          { eapply (step_resume this _ 0 props 0); reflexivity. }
          apply solo_loop. }
        simpl. repeat split. apply delete_insert_id, lookup_empty.
      * eexists. split.
        { eapply rtc_l; [exact Hcall|].
          eapply rtc_l.
          { eapply (step_settle this _ 0); reflexivity. }
          apply rtc_once.
          eapply (step_resume this _ 0 props 0); reflexivity. }
        simpl. repeat split. apply delete_insert_id, lookup_empty.
  - rewrite fetchCandidates_miss by (intros k'; by rewrite Hk).
    pose proof (getUtxos_cases this (props_address props)
      (Some {| only_confirmed := onlyConfirmedUtxos props;
               min_satoshi := minUtxoSatoshi props;
               no_cache := noAssetsApiCache props |}) s) as [Hs' _].
    destruct (getUtxos this _ _ s) as [o s'] eqn:Hget. simpl in Hs'. subst s'.
    rewrite Hk. simpl.
    assert (step this (start s [props])
              {| session := {| cache := cache s;
                               requests := requests s ++ [listingRequest props] |};
                 inflight := ∅;
                 promises := [InFlight None o];
                 tasks := [AwaitUtxos props 0] |}) as Hcall.
    { pose proof (step_call_fresh this (start s [props]) 0 props o
                    {| cache := cache s;
                       requests := requests s ++ [listingRequest props] |}
                    eq_refl) as Hstep.
      rewrite Hk in Hstep. by apply Hstep. }
    destruct o as [v|e].
    + eexists. split.
      { eapply rtc_l; [exact Hcall|].
        eapply rtc_l.
        { eapply (step_settle this _ 0); reflexivity. }
        eapply rtc_l.
        { eapply (step_resume this _ 0 props 0); reflexivity. }
        apply solo_loop. }
      by repeat split.
    + eexists. split.
      { eapply rtc_l; [exact Hcall|].
        eapply rtc_l.
        { eapply (step_settle this _ 0); reflexivity. }
        apply rtc_once.
        eapply (step_resume this _ 0 props 0); reflexivity. }
      by repeat split.
Qed.

End SharingFacts.

(** C2. Calls of [collectSatoshi] that supply the same cache key [k],
    starting where [k] is unseen and with a listing that resolves. In a
    row: the first call sends the one listing request and the second
    receives the same list from the cache without a request. Overlapping,
    in any order of turns and for any number of calls: at most one listing
    request is sent; once a call has received a list, exactly one has
    been sent and the list it received is the one stored under [k], so
    all calls receive the same list; no call ends without one; and as
    long as a call has not settled, some call can take a turn. The turns
    are those of [collectSatoshi]: a call that runs alone settles with
    what [collectSatoshi] computes. *)
Theorem collectSatoshi_shared_key (imports : Imports) (this : DataSource) (k : string) :
  (forall props1 props2 s v,
     internalCacheKey props1 = Some k ->
     internalCacheKey props2 = Some k ->
     cache_utxos (cache s) !! k = None ->
     fst (utxosGetter this props1 s) = Returned v ->
     let s1 := snd (collectSatoshi this props1 s) in
     let s2 := snd (collectSatoshi this props2 s1) in
     fst (fetchCandidates this props1 s) = Returned v
     /\ fetchCandidates this props2 s1 = (Returned v, s1)
     /\ listingRequests s2 = (listingRequests s ++ [listingRequest props1])%list)
  /\ (forall calls s0 w,
        Forall (fun props => internalCacheKey props = Some k
                             /\ exists v, listingResolves this props v) calls ->
        cache_utxos (cache s0) !! k = None ->
        rtc (Concurrent.step this) (Concurrent.start s0 calls) w ->
        exists new,
          listingRequests (Concurrent.session w) = (listingRequests s0 ++ new)%list
          /\ (length new <= 1)%nat
          /\ (forall t v, t ∈ Concurrent.tasks w -> Concurrent.received t = Some v ->
                length new = 1%nat
                /\ cache_utxos (cache (Concurrent.session w)) !! k = Some v)
          /\ (forall fetched o, Concurrent.Done fetched o ∈ Concurrent.tasks w ->
                fetched <> None)
          /\ (Forall (fun t => Concurrent.finished t = true) (Concurrent.tasks w)
              \/ exists w', Concurrent.step this w w'))
  /\ (forall props s,
        exists w,
          rtc (Concurrent.step this) (Concurrent.start s [props]) w
          /\ Concurrent.session w = snd (collectSatoshi this props s)
          /\ exists fetched,
               Concurrent.tasks w
               = [Concurrent.Done fetched (fst (collectSatoshi this props s))]).
Proof.
  split; [|split].
  - intros props1 props2 s v Hk1 Hk2 Hmiss Hget s1 s2.
    destruct (collectSatoshi_twice this props1 props2 k s v Hk1 Hk2 Hmiss Hget)
      as (H1 & H2 & _ & H3).
    by repeat split.
  - intros calls s0 w Hcalls Hmiss Hrtc.
    pose proof (phase_reachable this k s0 calls w Hcalls Hmiss Hrtc) as Hphase.
    pose proof (phase_progress this k s0 w Hphase) as Hprogress.
    destruct Hphase
      as [Hreq Hcache Hfly Hprom Htasks
         | r v Hreq Hcache Hfly Hprom Htasks
         | r v Hreq Hcache Hprom Htasks].
    + exists []. rewrite app_nil_r. split; [done|]. split; [simpl; lia|].
      split; [|split; [|done]].
      * intros t v Ht Hv. rewrite Forall_forall in Htasks.
        by destruct (Htasks t Ht) as (props & -> & _).
      * intros fetched o Ht. rewrite Forall_forall in Htasks.
        by destruct (Htasks _ Ht) as (props & [=] & _).
    + exists [r]. split; [done|]. split; [simpl; lia|]. split; [|split; [|done]].
      * intros t v' Ht Hv. rewrite Forall_forall in Htasks.
        by destruct (Htasks t Ht) as (props & [-> | ->] & _).
      * intros fetched o Ht. rewrite Forall_forall in Htasks.
        by destruct (Htasks _ Ht) as (props & [[=] | [=]] & _).
    + exists [r]. split; [done|]. split; [simpl; lia|]. split; [|split; [|done]].
      * intros t v' Ht Hv. rewrite Forall_forall in Htasks.
        destruct (Htasks t Ht) as [(props & -> & _) | [(props & p & -> & _) | Hrec]];
          [done..|].
        rewrite Hv in Hrec. injection Hrec as ->. done.
      * intros fetched o Ht. rewrite Forall_forall in Htasks.
        destruct (Htasks _ Ht) as [(props & [=] & _) | [(props & p & [=] & _) | Hrec]].
        simpl in Hrec. by destruct fetched.
  - intros props s.
    destruct (solo_run this props s) as (w & Hrun & Hs & Ht & _).
    exists w. split; [done|]. split; [done|]. by eexists.
Qed.

(** Two overlapping calls on the test double: the first sends the
    request, the second joins it, the list arrives, and both resume with
    it. *)
Lemma collectSatoshi_shared_key_witness :
  exists w new,
    let v := Fixture.candidates in
    rtc (@Concurrent.step Fixture.imports Fixture.source)
      (Concurrent.start newSession [Fixture.propsExcluding; Fixture.propsExcluding]) w
    /\ Concurrent.received <$> Concurrent.tasks w = [Some v; Some v]
    /\ listingRequests (Concurrent.session w) = (listingRequests newSession ++ new)%list
    /\ length new = 1%nat
    /\ cache_utxos (cache (Concurrent.session w)) !! "session" = Some v.
Proof.
  assert (Forall (fun props => internalCacheKey props = Some "session"
                    /\ exists v, @listingResolves Fixture.imports Fixture.source props v)
            [Fixture.propsExcluding; Fixture.propsExcluding]) as Hcalls.
  { repeat constructor; eexists; intros s;
      unfold utxosGetter; by erewrite (@getUtxos_run Fixture.imports). }
  eassert (rtc (@Concurrent.step Fixture.imports Fixture.source)
             (Concurrent.start newSession [Fixture.propsExcluding; Fixture.propsExcluding])
             _) as Hrun.
  { eapply rtc_l.
    { eapply (Concurrent.step_call_fresh _ _ 0); [reflexivity| |reflexivity].
      intros k [= <-]. by split. }
    eapply rtc_l.
    { eapply (Concurrent.step_call_join _ _ 1); reflexivity. }
    eapply rtc_l.
    { eapply (Concurrent.step_settle _ _ 0). reflexivity. }
    eapply rtc_l.
    { eapply (Concurrent.step_resume _ _ 0); reflexivity. }
    eapply rtc_l.
    { eapply (Concurrent.step_resume _ _ 1); reflexivity. }
    apply rtc_refl. }
  destruct (proj1 (proj2 (collectSatoshi_shared_key Fixture.imports Fixture.source
                            "session"))
              _ newSession _ Hcalls eq_refl Hrun) as (new & Hreq & _ & Hrecv & _).
  eexists _, new. split; [exact Hrun|].
  split; [vm_compute; reflexivity|]. split; [exact Hreq|].
  apply (Hrecv (Concurrent.Looping Fixture.propsExcluding Fixture.candidates
                  Fixture.candidates [] 0)); [|reflexivity].
  vm_compute. apply list_elem_of_here.
Defined.

(** C2 as stated fails where the listing is rejected: nothing is stored
    under the key, so the second of two calls in a row asks again. Two
    listing requests are sent for two calls with the same key, and
    neither call receives a list. *)
Lemma collectSatoshi_rejected_twice :
  fst (@collectSatoshi Fixture.imports Fixture.sourceDown Fixture.propsExcluding
         newSession)
  = Thrown (ServiceFailure (BtcAssetsApiError ASSETS_API_RESPONSE_ERROR "503"))
  /\ fst (@collectSatoshi Fixture.imports Fixture.sourceDown Fixture.propsExcluding
            (snd (@collectSatoshi Fixture.imports Fixture.sourceDown
                    Fixture.propsExcluding newSession)))
     = Thrown (ServiceFailure (BtcAssetsApiError ASSETS_API_RESPONSE_ERROR "503"))
  /\ internalCacheKey Fixture.propsExcluding = Some "session"
  /\ listingRequests
       (snd (@collectSatoshi Fixture.imports Fixture.sourceDown Fixture.propsExcluding
               (snd (@collectSatoshi Fixture.imports Fixture.sourceDown
                       Fixture.propsExcluding newSession))))
     = [listingRequest Fixture.propsExcluding; listingRequest Fixture.propsExcluding]
  /\ cache_utxos
       (cache
          (snd (@collectSatoshi Fixture.imports Fixture.sourceDown
                  Fixture.propsExcluding
                  (snd (@collectSatoshi Fixture.imports Fixture.sourceDown
                          Fixture.propsExcluding newSession)))))
       !! "session" = None.
Proof. repeat split. Qed.

(** * Further properties of the output lookup *)

Section MoreLookupFacts.
Context {imports : Imports}.
Variable this : DataSource.

(** X1. [getOutput], [getUtxo] and [isTransactionConfirmed] send exactly
    one request, for the transaction named by the hash without its 0x
    prefix, and leave the cache as it is, whether they resolve or
    reject. *)
Theorem lookups_send_one_request hash index requireConfirmed s :
  snd (getOutput this hash index requireConfirmed s)
  = {| cache := cache s;
       requests := (requests s ++ [ReqTransaction (remove0x hash)])%list |}
  /\ snd (getUtxo this hash index requireConfirmed s)
     = {| cache := cache s;
          requests := (requests s ++ [ReqTransaction (remove0x hash)])%list |}
  /\ snd (isTransactionConfirmed this hash s)
     = {| cache := cache s;
          requests := (requests s ++ [ReqTransaction (remove0x hash)])%list |}.
Proof.
  set (sent := {| cache := cache s;
                  requests := (requests s ++ [ReqTransaction (remove0x hash)])%list |}).
  assert (snd (getOutput this hash index requireConfirmed s) = sent) as Hout.
  { unfold getOutput, bind, request; simpl.
    destruct (getBtcTransaction _ _) as [[tx|]|f]; simpl; try done.
    destruct (_ && _)%bool; simpl; try done.
    destruct (at_index _ _) as [v|]; simpl; try done.
    destruct (isOpReturnScriptPubkey _); simpl; try done.
    by destruct (getAddressType _). }
  split; [done|]. split.
  - unfold getUtxo, bind.
    destruct (getOutput _ _ _ _ _) as [[[[o|u]|]|e] s']; simpl in *; by subst.
  - unfold isTransactionConfirmed, bind, request; simpl.
    by destruct (getBtcTransaction _ _) as [[tx|]|f].
Qed.

(** X2. An output that [getOutput] resolves with is the entry at [index]
    of the transaction's [vout], with [index] inside the array; it
    carries the requested hash without 0x as [txid], [index] as [vout],
    and the entry's value and script; when confirmation is required the
    transaction is confirmed; and a [Utxo] carries the entry's address
    with the type [getAddressType] gives it. *)
Theorem getOutput_resolved hash index requireConfirmed s o :
  fst (getOutput this hash index requireConfirmed s) = Returned (Some o) ->
  exists tx entry,
    getBtcTransaction (service this) (remove0x hash) = Answered (Some tx)
    /\ tx_vout tx !! Z.to_nat index = Some entry
    /\ 0 <= index < Z.of_nat (length (tx_vout tx))
    /\ (default false requireConfirmed = true -> confirmed (tx_status tx) = true)
    /\ txidOf o = remove0x hash
    /\ voutOf o = index
    /\ valueOf o = vout_value entry
    /\ scriptOf o = scriptpubkey entry
    /\ (forall u, o = inr u ->
          address u = scriptpubkey_address entry
          /\ getAddressType (address u) = Some (addressType u)).
Proof.
  rewrite getOutput_run.
  destruct (getBtcTransaction _ _) as [[tx|]|f]; [|done..].
  destruct (default false requireConfirmed) eqn:Hrc; simpl.
  - destruct (confirmed (tx_status tx)) eqn:Hc; simpl; [|done].
    destruct (at_index (tx_vout tx) index) as [entry|] eqn:Hat; [|done].
    unfold at_index in Hat. case_decide; [|done].
    pose proof (lookup_lt_Some _ _ _ Hat) as Hlt.
    destruct (isOpReturnScriptPubkey _).
    + intros [= <-]. exists tx, entry.
      split_and!; first [done | lia | by intros u [=]].
    + destruct (getAddressType _) as [ty|] eqn:Hty; [|done].
      intros [= <-]. exists tx, entry.
      split_and!; first [done | lia | by intros u [= <-]; simpl].
  - destruct (at_index (tx_vout tx) index) as [entry|] eqn:Hat; [|done].
    unfold at_index in Hat. case_decide; [|done].
    pose proof (lookup_lt_Some _ _ _ Hat) as Hlt.
    destruct (isOpReturnScriptPubkey _).
    + intros [= <-]. exists tx, entry.
      split_and!; first [done | lia | by intros u [=]].
    + destruct (getAddressType _) as [ty|] eqn:Hty; [|done].
      intros [= <-]. exists tx, entry.
      split_and!; first [done | lia | by intros u [= <-]; simpl].
Qed.

(** X3. A failure of the service passes through the lookups unchanged:
    [getOutput], [getUtxo] and [isTransactionConfirmed] reject with a
    service failure exactly when [getBtcTransaction] was rejected, and
    with that very failure. *)
Theorem lookups_pass_failure hash index requireConfirmed s f :
  (fst (getOutput this hash index requireConfirmed s) = Thrown (ServiceFailure f)
   <-> getBtcTransaction (service this) (remove0x hash) = Rejected f)
  /\ (fst (getUtxo this hash index requireConfirmed s) = Thrown (ServiceFailure f)
      <-> getBtcTransaction (service this) (remove0x hash) = Rejected f)
  /\ (fst (isTransactionConfirmed this hash s) = Thrown (ServiceFailure f)
      <-> getBtcTransaction (service this) (remove0x hash) = Rejected f).
Proof.
  assert (fst (getOutput this hash index requireConfirmed s) = Thrown (ServiceFailure f)
          <-> getBtcTransaction (service this) (remove0x hash) = Rejected f) as Hout.
  { rewrite getOutput_run.
    destruct (getBtcTransaction _ _) as [[tx|]|f']; [| |split; by intros [= ->]];
      [|split; intros [=]].
    destruct (_ && _)%bool; [split; intros [=]|].
    destruct (at_index _ _) as [v|]; [|split; intros [=]].
    destruct (isOpReturnScriptPubkey _); [split; intros [=]|].
    destruct (getAddressType _); split; intros [=]. }
  split; [done|]. split.
  - rewrite <- Hout, getUtxo_run.
    destruct (fst (getOutput this hash index requireConfirmed s))
      as [[[o|u]|]|e]; split; intros [=]; by subst.
  - unfold isTransactionConfirmed, bind, request; simpl.
    destruct (getBtcTransaction _ _) as [[tx|]|f']; simpl;
      split; intros [=]; by subst.
Qed.

End MoreLookupFacts.

Lemma getOutput_resolved_witness :
  fst (@getOutput Fixture.imports Fixture.source "0xaa" 1 (Some true) newSession)
    = Returned (Some (inr {| txid := "aa"; vout := 1; value := 5000;
                             scriptPk := "0014ab"; address := "tb1q";
                             addressType := P2WPKH |}))
  /\ exists tx entry,
       getBtcTransaction (service Fixture.source) (@remove0x Fixture.imports "0xaa")
         = Answered (Some tx)
       /\ tx_vout tx !! Z.to_nat 1 = Some entry
       /\ 0 <= 1 < Z.of_nat (length (tx_vout tx))
       /\ confirmed (tx_status tx) = true
       /\ vout_value entry = 5000.
Proof.
  split; [reflexivity|].
  destruct (@getOutput_resolved Fixture.imports Fixture.source "0xaa" 1 (Some true)
              newSession _ eq_refl)
    as (tx & entry & Htx & Hentry & Hrange & Hconf & _ & _ & Hvalue & _).
  exists tx, entry. repeat split; try done; try lia. by apply Hconf.
Defined.

(** * Further properties of the listing *)

(** X4. Between rows that carry a block height the compare function
    of [getUtxos], as the sort reads it, is a consistent comparator:
    swapping the arguments negates the result, "not above" is
    transitive, the result is zero exactly for rows with the same block
    height and the same vout, and negative exactly for a row that comes
    first in the order of (block height, vout). A row without a block
    height breaks this: against a row that has one the function returns
    NaN, which the sort reads as equal, whatever their order; so a row
    of height 100 is not above a pending row, which is not above a row
    of height 90, while the first is above the last. *)
Theorem compareUtxos_consistent :
  (forall a b c ha hb,
     block_height (row_status a) = Some ha ->
     block_height (row_status b) = Some hb ->
     carriesHeight c ->
     SortCompare compareUtxos a b = - SortCompare compareUtxos b a
     /\ (SortCompare compareUtxos a b <= 0 -> SortCompare compareUtxos b c <= 0 ->
         SortCompare compareUtxos a c <= 0)
     /\ (SortCompare compareUtxos a b = 0 <-> ha = hb /\ row_vout a = row_vout b)
     /\ (SortCompare compareUtxos a b < 0
         <-> ha < hb \/ (ha = hb /\ row_vout a < row_vout b)))
  /\ (forall a b,
        block_height (row_status a) = None -> carriesHeight b ->
        compareUtxos a b = NaN /\ compareUtxos b a = NaN
        /\ SortCompare compareUtxos a b = 0 /\ SortCompare compareUtxos b a = 0)
  /\ (SortCompare compareUtxos (Fixture.row "aa" 100 0 5000) (Fixture.pending "ee" 0 1000)
      <= 0
      /\ SortCompare compareUtxos (Fixture.pending "ee" 0 1000) (Fixture.row "bb" 90 0 2000)
         <= 0
      /\ 0 < SortCompare compareUtxos (Fixture.row "aa" 100 0 5000)
               (Fixture.row "bb" 90 0 2000)).
Proof.
  split; [|split; [|by vm_compute]].
  - intros a b c ha hb Ha Hb [hc Hc].
    unfold SortCompare, compareUtxos; simpl. rewrite Ha, Hb, Hc.
    assert (forall x y : Z, Some x <> Some y <-> x <> y) as Hsome
      by (intros x y; split; [congruence | by intros ? [= ?]]).
    repeat case_decide; simplify_eq; simpl;
      repeat match goal with
             | H : Some _ <> Some _ |- _ => apply Hsome in H
             end; lia.
  - intros a b Ha [hb Hb]. unfold SortCompare, compareUtxos; simpl.
    rewrite Ha, Hb. by rewrite !decide_True by done.
Qed.

Lemma compareUtxos_consistent_witness :
  SortCompare compareUtxos (Fixture.row "bb" 90 0 2000) (Fixture.row "aa" 100 0 5000) <= 0
  /\ SortCompare compareUtxos (Fixture.row "aa" 100 0 5000) (Fixture.row "aa" 100 1 3000)
     <= 0
  /\ SortCompare compareUtxos (Fixture.row "bb" 90 0 2000) (Fixture.row "aa" 100 1 3000)
     <= 0.
Proof.
  assert (SortCompare compareUtxos (Fixture.row "bb" 90 0 2000)
            (Fixture.row "aa" 100 0 5000) <= 0)
    as H1 by (vm_compute; discriminate).
  assert (SortCompare compareUtxos (Fixture.row "aa" 100 0 5000)
            (Fixture.row "aa" 100 1 3000) <= 0)
    as H2 by (vm_compute; discriminate).
  split; [done|]. split; [done|].
  exact (proj1 (proj2 (proj1 compareUtxos_consistent
                         (Fixture.row "bb" 90 0 2000) (Fixture.row "aa" 100 0 5000)
                         (Fixture.row "aa" 100 1 3000) 90 100 eq_refl eq_refl
                         (ex_intro _ 100 eq_refl))) H1 H2).
Defined.

Lemma rowsValue_cons r rows : rowsValue (r :: rows) = row_value r + rowsValue rows.
Proof. done. Qed.

Lemma rowsValue_perm rows rows' : rows ≡ₚ rows' -> rowsValue rows = rowsValue rows'.
Proof.
  induction 1 as [|r l l' _ IH|r r' l|l l' l'' _ IH1 _ IH2];
    rewrite ?rowsValue_cons; try done; lia.
Qed.

Lemma sort_sorted_id rows :
  StronglySorted rowLe rows -> sort compareUtxos rows = rows.
Proof.
  induction 1 as [|x l Hl IH Hx]; simpl; [done|].
  rewrite IH. destruct l as [|y l']; simpl; [done|].
  apply Forall_cons in Hx as [Hxy _].
  by rewrite decide_True by (by apply compareUtxos_le).
Qed.

Section MoreListingFacts.
Context {imports : Imports}.
Variable this : DataSource.

Lemma totalValue_rowToUtxo address scriptPk ty rows :
  totalValue (map (rowToUtxo address scriptPk ty) rows) = rowsValue rows.
Proof.
  induction rows as [|r rows IH]; [done|].
  rewrite rowsValue_cons. simpl. by rewrite totalValue_cons, IH.
Qed.

(** X5. [getUtxos] neither drops, adds nor alters a row: the
    ([txid], [vout], [value]) triples of the list it resolves with are a
    rearrangement of those of the rows, so the values add up to the same
    sum; and every [Utxo] carries the address that was asked for, the
    script [addressToScriptPublicKeyHex] derives from it and the type
    [getAddressType] derives from it, never anything from the rows. *)
Theorem getUtxos_payload addr params s rows us :
  getBtcUtxos (service this) addr params = Answered rows ->
  fst (getUtxos this addr params s) = Returned us ->
  map utxoPayload us ≡ₚ map rowPayload rows
  /\ length us = length rows
  /\ totalValue us = rowsValue rows
  /\ exists pk,
       addressToScriptPublicKeyHex addr (networkType this) = Some pk
       /\ Forall (fun u => address u = addr
                          /\ scriptPk u = pk
                          /\ getAddressType addr = Some (addressType u)) us.
Proof.
  intros Hrows.
  destruct (addressToScriptPublicKeyHex addr (networkType this)) as [pk|] eqn:Hpk.
  2: { unfold getUtxos, bind, request. by rewrite Hrows, Hpk. }
  destruct (getAddressType addr) as [ty|] eqn:Hty.
  - rewrite (getUtxos_run this addr params s rows pk ty) by done.
    simpl. intros [= <-].
    split.
    { rewrite <- (sort_perm compareUtxos rows) at 2.
      by rewrite <- !list_fmap_compose. }
    split; [by rewrite length_map, (sort_perm compareUtxos rows)|].
    split.
    { rewrite totalValue_rowToUtxo. apply rowsValue_perm, sort_perm. }
    exists pk. split; [done|].
    by apply Forall_fmap, Forall_true.
  - unfold getUtxos, bind, request. rewrite Hrows, Hpk; simpl.
    pose proof (sort_perm compareUtxos rows) as Hperm.
    destruct (sort compareUtxos rows) as [|row l]; simpl.
    + intros [= <-]. apply Permutation_nil_l in Hperm; subst rows.
      split_and!; try done. exists pk. by split.
    + unfold bind, orThrow. by rewrite Hty.
Qed.

(** X6. Rows that the service already sends in ascending order of
    (block height, vout) come out of [getUtxos] in the order they came
    in. *)
Theorem getUtxos_keeps_sorted address params s rows scriptPk ty :
  getBtcUtxos (service this) address params = Answered rows ->
  addressToScriptPublicKeyHex address (networkType this) = Some scriptPk ->
  getAddressType address = Some ty ->
  StronglySorted rowLe rows ->
  fst (getUtxos this address params s)
    = Returned (map (rowToUtxo address scriptPk ty) rows).
Proof.
  intros Hrows Hpk Hty Hsorted.
  erewrite getUtxos_run by eassumption. simpl. by rewrite sort_sorted_id.
Qed.

(** What [getUtxos] settles with, by what the service and the helpers
    do. *)
Lemma getUtxos_fst address params s :
  fst (getUtxos this address params s)
  = match getBtcUtxos (service this) address params with
    | Rejected f => Thrown (ServiceFailure f)
    | Answered rows =>
      match addressToScriptPublicKeyHex address (networkType this) with
      | None => Thrown (HelperError AddressToScriptPublicKeyHex address)
      | Some scriptPk =>
        match getAddressType address with
        | Some ty =>
            Returned (map (rowToUtxo address scriptPk ty) (sort compareUtxos rows))
        | None =>
          match rows with
          | [] => Returned []
          | _ :: _ => Thrown (HelperError GetAddressType address)
          end
        end
      end
    end.
Proof.
  unfold getUtxos, bind, request.
  destruct (getBtcUtxos (service this) address params) as [rows|f0]; simpl; [|done].
  destruct (addressToScriptPublicKeyHex address (networkType this)) as [pk|]; simpl;
    [|done].
  destruct (getAddressType address) as [ty|] eqn:Hty.
  { erewrite mapAsync_ret; [done|]. intros row s'; by unfold bind. }
  pose proof (sort_perm compareUtxos rows) as Hperm.
  destruct rows as [|row rows].
  { by apply Permutation_nil_r in Hperm as ->. }
  destruct (sort compareUtxos (row :: rows)) as [|row' l] eqn:Hsort.
  { by apply Permutation_nil_l in Hperm. }
  simpl. by unfold bind.
Qed.

(** X7. [getUtxos] always sends one listing request and leaves the
    cache alone. It resolves exactly when the service answers, the
    address has a script, and the address has a type or there is no row
    to give it to. A rejected listing is passed on as it is. What the
    script helper throws is passed on when the service has answered;
    what the type helper throws is passed on when the service has
    answered with at least one row and the script helper has accepted
    the address: the helpers are asked after the service, the type
    helper once for each row and last. *)
Theorem getUtxos_settles address params s :
  snd (getUtxos this address params s)
    = {| cache := cache s;
         requests := (requests s ++ [ReqUtxos address params])%list |}
  /\ ((exists us, fst (getUtxos this address params s) = Returned us)
      <-> exists rows scriptPk,
            getBtcUtxos (service this) address params = Answered rows
            /\ addressToScriptPublicKeyHex address (networkType this) = Some scriptPk
            /\ (rows = [] \/ exists ty, getAddressType address = Some ty))
  /\ (forall f, fst (getUtxos this address params s) = Thrown (ServiceFailure f)
                <-> getBtcUtxos (service this) address params = Rejected f)
  /\ (fst (getUtxos this address params s)
      = Thrown (HelperError AddressToScriptPublicKeyHex address)
      <-> (exists rows, getBtcUtxos (service this) address params = Answered rows)
          /\ addressToScriptPublicKeyHex address (networkType this) = None)
  /\ (fst (getUtxos this address params s)
      = Thrown (HelperError GetAddressType address)
      <-> (exists row rows,
             getBtcUtxos (service this) address params = Answered (row :: rows))
          /\ (exists scriptPk,
                addressToScriptPublicKeyHex address (networkType this) = Some scriptPk)
          /\ getAddressType address = None).
Proof.
  split; [apply getUtxos_cases|].
  rewrite (getUtxos_fst address params s).
  destruct (getBtcUtxos (service this) address params) as [rows|f0].
  2: { split_and!.
       - split; [by intros [us [=]] | by intros (? & ? & [=] & _)].
       - intros f; split; by intros [= ->].
       - split; [done | by intros [[? [=]] _]].
       - split; [done | by intros [(? & ? & [=]) _]]. }
  destruct (addressToScriptPublicKeyHex address (networkType this)) as [pk|].
  2: { split_and!.
       - split; [by intros [us [=]] | by intros (? & ? & _ & [=] & _)].
       - intros f; split; by intros [=].
       - split; [intros _; split; [by eexists | done] | done].
       - split; [done | by intros (_ & [? [=]] & _)]. }
  destruct (getAddressType address) as [ty|].
  { split_and!.
    - split; [intros _; exists rows, pk; eauto | by eexists].
    - intros f; split; by intros [=].
    - split; [done | by intros [_ [=]]].
    - split; [done | by intros (_ & _ & [=])]. }
  destruct rows as [|row rows].
  - split_and!.
    + split; [intros _; exists [], pk; eauto | by eexists].
    + intros f; split; by intros [=].
    + split; [done | by intros [_ [=]]].
    + split; [done | by intros [(? & ? & [=]) _]].
  - split_and!.
    + split; [by intros [us [=]]|].
      by intros (rows' & pk' & [= <-] & _ & [[=] | [ty [=]]]).
    + intros f; split; by intros [=].
    + split; [done | by intros [_ [=]]].
    + split; [intros _ | done].
      split; [by do 2 eexists|]. split; [by eexists | done].
Qed.

End MoreListingFacts.

Lemma sort_insert_sameOutput r r' l l' :
  sameOutput r r' -> Forall2 sameOutput l l' ->
  Forall2 sameOutput (sort_insert compareUtxos r l) (sort_insert compareUtxos r' l').
Proof.
  intros Hr Hl. induction Hl as [|y y' l l' Hy Hl IH]; simpl.
  { constructor; [done|constructor]. }
  assert (SortCompare compareUtxos r y = SortCompare compareUtxos r' y') as ->.
  { destruct Hr as (_ & Hv & _ & Hh), Hy as (_ & Hv' & _ & Hh').
    unfold SortCompare, compareUtxos. by rewrite Hv, Hh, Hv', Hh'. }
  case_decide.
  - constructor; [done|]. by constructor.
  - by constructor.
Qed.

Lemma sort_sameOutput l l' :
  Forall2 sameOutput l l' ->
  Forall2 sameOutput (sort compareUtxos l) (sort compareUtxos l').
Proof.
  induction 1 as [|r r' l l' Hr Hl IH]; simpl; [constructor|].
  by apply sort_insert_sameOutput.
Qed.

Section ListingParameters.
Context {imports : Imports}.

(** X8. [getUtxos] reads of a row its [txid], [vout], [value] and block
    height, and nothing else: it does not look at the [confirmed] flag.
    Two services whose rows differ only in their other confirmation
    data make it settle with the same list, so a row that is not
    confirmed is listed like any other. *)
Theorem getUtxos_ignores_confirmation (this this' : DataSource)
    addr params params' s s' rows rows' :
  networkType this = networkType this' ->
  getBtcUtxos (service this) addr params = Answered rows ->
  getBtcUtxos (service this') addr params' = Answered rows' ->
  Forall2 sameOutput rows rows' ->
  fst (getUtxos this addr params s) = fst (getUtxos this' addr params' s').
Proof.
  intros Hnet Hrows Hrows' Hsame.
  apply sort_sameOutput in Hsame.
  unfold getUtxos, bind, request. rewrite Hrows, Hrows', Hnet; simpl.
  destruct (addressToScriptPublicKeyHex addr (networkType this')) as [pk|]; simpl;
    [|done].
  destruct (getAddressType addr) as [ty|] eqn:Hty.
  - erewrite !mapAsync_ret; [|intros row s0; by unfold bind..]. simpl. f_equal.
    induction Hsame as [|r r' l l' (Ht & Hv & Hval & _) Hl IH]; simpl; [done|].
    by rewrite Ht, Hv, Hval, IH.
  - destruct Hsame; simpl; [done|]. by unfold bind.
Qed.

End ListingParameters.

Lemma getUtxos_payload_witness :
  fst (@getUtxos Fixture.imports Fixture.source "tb1q" None newSession)
    = Returned Fixture.candidates
  /\ map utxoPayload Fixture.candidates ≡ₚ map rowPayload Fixture.rows
  /\ totalValue Fixture.candidates = rowsValue Fixture.rows.
Proof.
  split; [reflexivity|].
  destruct (@getUtxos_payload Fixture.imports Fixture.source "tb1q" None newSession
              Fixture.rows Fixture.candidates eq_refl eq_refl)
    as (Hperm & _ & Hsum & _).
  by split.
Defined.

Lemma getUtxos_keeps_sorted_witness :
  StronglySorted rowLe
    [Fixture.row "bb" 90 0 2000; Fixture.row "aa" 100 0 5000]
  /\ fst (@getUtxos Fixture.imports
            {| service := {| getBtcTransaction := Fixture.transactions;
                             getBtcUtxos := fun _ _ =>
                               Answered [Fixture.row "bb" 90 0 2000;
                                         Fixture.row "aa" 100 0 5000];
                             getRgbppAssetsByBtcUtxo := Fixture.assets |};
               networkType := TESTNET |}
            "tb1q" None newSession)
     = Returned [Fixture.utxo "bb" 0 2000; Fixture.utxo "aa" 0 5000].
Proof.
  assert (StronglySorted rowLe
            [Fixture.row "bb" 90 0 2000; Fixture.row "aa" 100 0 5000]) as Hs.
  { repeat constructor; try (unfold rowLe; simpl; lia). }
  split; [done|].
  exact (@getUtxos_keeps_sorted Fixture.imports
           {| service := {| getBtcTransaction := Fixture.transactions;
                            getBtcUtxos := fun _ _ =>
                              Answered [Fixture.row "bb" 90 0 2000;
                                        Fixture.row "aa" 100 0 5000];
                            getRgbppAssetsByBtcUtxo := Fixture.assets |};
              networkType := TESTNET |}
           "tb1q" None newSession
           [Fixture.row "bb" 90 0 2000; Fixture.row "aa" 100 0 5000]
           "0014tb1q" P2WPKH eq_refl eq_refl eq_refl Hs).
Defined.

Lemma getUtxos_ignores_confirmation_witness :
  fst (@getUtxos Fixture.imports
         {| service := {| getBtcTransaction := Fixture.transactions;
                          getBtcUtxos := fun _ _ =>
                            Answered
                              [ {| row_txid := "aa"; row_vout := 0; row_value := 5000;
                                   row_status :=
                                     {| confirmed := false; block_height := Some 100;
                                        block_hash := "00ab"; block_time := 7 |} |} ];
                          getRgbppAssetsByBtcUtxo := Fixture.assets |};
            networkType := TESTNET |}
         "tb1q" None newSession)
  = fst (@getUtxos Fixture.imports
         {| service := {| getBtcTransaction := Fixture.transactions;
                          getBtcUtxos := fun _ _ => Answered [Fixture.row "aa" 100 0 5000];
                          getRgbppAssetsByBtcUtxo := Fixture.assets |};
            networkType := TESTNET |}
         "tb1q" None newSession).
Proof.
  apply (@getUtxos_ignores_confirmation Fixture.imports _ _ "tb1q" None None
           newSession newSession
           [ {| row_txid := "aa"; row_vout := 0; row_value := 5000;
                row_status :=
                  {| confirmed := false; block_height := Some 100;
                     block_hash := "00ab"; block_time := 7 |} |} ]
           [Fixture.row "aa" 100 0 5000]);
    [reflexivity | reflexivity | reflexivity |].
  constructor; [|constructor].
  unfold sameOutput. simpl. by split_and!.
Defined.

(** * Further properties of the collection *)

Lemma totalValue_app l1 l2 : totalValue (l1 ++ l2)%list = totalValue l1 + totalValue l2.
Proof.
  induction l1 as [|u l1 IH]; simpl.
  - rewrite totalValue_nil. lia.
  - rewrite !totalValue_cons, IH. lia.
Qed.

Section MoreCollectFacts.
Context {imports : Imports}.
Variable this : DataSource.

Local Open Scope list_scope.

(** One lookup through the cache, in full: what it settles with and
    the session it leaves. *)
Lemma lookup_effect utxo s :
  optionalCacheHasRgbppAssets (Some (assetsKey utxo))
    (hasRgbppAssetsGetter this utxo) s
  = (lookupOutcome this (cache s) utxo,
     match cache_hasRgbppAssets (cache s) !! assetsKey utxo with
     | Some _ => s
     | None =>
       {| cache :=
            {| cache_utxos := cache_utxos (cache s);
               cache_hasRgbppAssets :=
                 match getRgbppAssetsByBtcUtxo (service this) (txid utxo) (vout utxo) with
                 | Answered a =>
                     <[assetsKey utxo := isNonEmptyArray a]>
                       (cache_hasRgbppAssets (cache s))
                 | Rejected _ => cache_hasRgbppAssets (cache s)
                 end |};
          requests := requests s ++ [lookupRequest utxo] |}
     end).
Proof.
  unfold lookupOutcome, optionalCacheHasRgbppAssets, hasRgbppAssetsGetter,
    bind, readCache, request, setHasRgbppAssets, ret, lookupRequest; simpl.
  destruct (cache_hasRgbppAssets (cache s) !! assetsKey utxo) as [has|]; [done|].
  destruct (getRgbppAssetsByBtcUtxo _ _ _) as [a|f]; simpl; [done|].
  by destruct s as [[cu ch] rq].
Qed.

(** A lookup leaves every lookup settling as it did. *)
Lemma lookup_keeps_outcome utxo s u :
  lookupOutcome this
    (cache (snd (optionalCacheHasRgbppAssets (Some (assetsKey utxo))
                   (hasRgbppAssetsGetter this utxo) s))) u
  = lookupOutcome this (cache s) u.
Proof.
  rewrite lookup_effect; simpl.
  destruct (cache_hasRgbppAssets (cache s) !! assetsKey utxo) as [has|] eqn:Hc; [done|].
  destruct (getRgbppAssetsByBtcUtxo (service this) (txid utxo) (vout utxo))
    as [a|f] eqn:Ha; [|done].
  unfold lookupOutcome; simpl.
  destruct (decide (assetsKey utxo = assetsKey u)) as [Heq|Hne].
  - rewrite <- Heq, lookup_insert_eq, Hc.
    apply assetsKey_inj in Heq as [<- <-]. by rewrite Ha.
  - by rewrite lookup_insert_ne.
Qed.

Lemma lookup_returned utxo s has s1 :
  optionalCacheHasRgbppAssets (Some (assetsKey utxo))
    (hasRgbppAssetsGetter this utxo) s = (Returned has, s1) ->
  cache_hasRgbppAssets (cache s1) !! assetsKey utxo = Some has.
Proof.
  rewrite lookup_effect. unfold lookupOutcome.
  destruct (cache_hasRgbppAssets (cache s) !! assetsKey utxo) as [has'|] eqn:Hc.
  { by intros [= <- <-]. }
  destruct (getRgbppAssetsByBtcUtxo _ _ _) as [a|f]; [|done].
  intros [= <- <-]. simpl. by rewrite lookup_insert_eq.
Qed.

Lemma lookup_stored utxo s has :
  cache_hasRgbppAssets (cache s) !! assetsKey utxo = Some has ->
  optionalCacheHasRgbppAssets (Some (assetsKey utxo))
    (hasRgbppAssetsGetter this utxo) s = (Returned has, s).
Proof.
  intros Hc. rewrite lookup_effect. unfold lookupOutcome. by rewrite Hc.
Qed.

Section MoreLoopFacts.
Variable target : Z.
Variable excl : list ExcludeUtxo.
Variable only : option bool.

(** What the loop does to the session: it sends asset lookups only, one
    at most for a candidate and none for a candidate that is excluded
    or whose flag is stored; it leaves the stored lists alone, drops no
    stored flag, and stores only what the service answered. *)
Lemma collectLoop_effects candidates collected amount s :
  exists asked,
    asked `sublist_of` candidates
    /\ requests (snd (collectLoop this target excl only candidates collected amount s))
       = requests s ++ map lookupRequest asked
    /\ Forall (fun u => isExcluded excl u = false
                        /\ cache_hasRgbppAssets (cache s) !! assetsKey u = None) asked
    /\ (default false only = false ->
        asked = []
        /\ snd (collectLoop this target excl only candidates collected amount s) = s)
    /\ cache_utxos
         (cache (snd (collectLoop this target excl only candidates collected amount s)))
       = cache_utxos (cache s)
    /\ cache_hasRgbppAssets (cache s)
       ⊆ cache_hasRgbppAssets
           (cache (snd (collectLoop this target excl only candidates collected amount s)))
    /\ (forall k has,
          cache_hasRgbppAssets
            (cache (snd (collectLoop this target excl only candidates collected amount s)))
            !! k = Some has ->
          cache_hasRgbppAssets (cache s) !! k = Some has
          \/ exists u a,
               u ∈ asked /\ k = assetsKey u
               /\ getRgbppAssetsByBtcUtxo (service this) (txid u) (vout u) = Answered a
               /\ has = isNonEmptyArray a).
Proof.
  revert collected amount s.
  induction candidates as [|u rest IH]; intros collected amount s.
  { exists []. simpl. rewrite app_nil_r. split_and!; try done. by left. }
  rewrite collectLoop_cons.
  case_decide as Hacc.
  { exists []. simpl. rewrite app_nil_r.
    split_and!; try done; [apply sublist_nil_l | by left]. }
  destruct (isExcluded excl u) eqn:Hex.
  { destruct (IH collected amount s) as (asked & Hsub & Hrest).
    exists asked. split; [by apply sublist_cons_r; left | done]. }
  destruct (default false only) eqn:Honly.
  2: { destruct (IH (collected ++ [u]) (amount + value u) s) as (asked & Hsub & Hrest).
       exists asked. split; [by apply sublist_cons_r; left | done]. }
  rewrite lookup_effect. unfold lookupOutcome.
  destruct (cache_hasRgbppAssets (cache s) !! assetsKey u) as [has|] eqn:Hc.
  { destruct has.
    - destruct (IH collected amount s) as (asked & Hsub & Hrest).
      exists asked. split; [by apply sublist_cons_r; left | done].
    - destruct (IH (collected ++ [u]) (amount + value u) s) as (asked & Hsub & Hrest).
      exists asked. split; [by apply sublist_cons_r; left | done]. }
  destruct (getRgbppAssetsByBtcUtxo (service this) (txid u) (vout u)) as [a|f] eqn:Ha.
  2: { exists [u]. simpl.
       split_and!; try done.
       - apply sublist_skip, sublist_nil_l.
       - by repeat constructor.
       - intros k has Hk. by left. }
  set (s1 := {| cache := _; requests := _ |}).
  assert (exists c a', (c, a') = if isNonEmptyArray a then (collected, amount)
                                 else (collected ++ [u], amount + value u))
    as (c & a' & Hca) by (destruct (isNonEmptyArray a); by do 2 eexists).
  assert (match isNonEmptyArray a with
          | true => collectLoop this target excl only rest collected amount s1
          | false => collectLoop this target excl only rest (collected ++ [u])
                       (amount + value u) s1
          end = collectLoop this target excl only rest c a' s1) as ->.
  { destruct (isNonEmptyArray a); by injection Hca as -> ->. }
  destruct (IH c a' s1) as (asked & Hsub & Hreq & Hall & _ & Hcu & Hch & Hnew).
  exists (u :: asked).
  split; [by apply sublist_skip|].
  split; [rewrite Hreq; simpl; by rewrite <- app_assoc|].
  split.
  { constructor; [done|]. eapply Forall_impl; [exact Hall|].
    intros u' [Hex' Hnone]. split; [done|].
    simpl in Hnone. by apply lookup_insert_None in Hnone as [? _]. }
  split; [done|].
  split; [by rewrite Hcu|].
  split.
  { etrans; [|exact Hch]. simpl. by apply insert_subseteq. }
  intros k has Hk. destruct (Hnew k has Hk) as [Hold | (u' & a0 & Hin & -> & Ha0 & ->)].
  - simpl in Hold. destruct (decide (assetsKey u = k)) as [<-|Hne].
    + rewrite lookup_insert_eq in Hold. injection Hold as <-.
      right. exists u, a. split_and!; try done. by left.
    + rewrite lookup_insert_ne in Hold by done. by left.
  - right. exists u', a0. split_and!; try done. by right.
Qed.

(** The loop leaves every lookup settling as it did. *)
Lemma collectLoop_lookupOutcome candidates collected amount s u :
  lookupOutcome this
    (cache (snd (collectLoop this target excl only candidates collected amount s))) u
  = lookupOutcome this (cache s) u.
Proof.
  destruct (collectLoop_effects candidates collected amount s)
    as (asked & _ & _ & Hall & _ & _ & Hch & Hnew).
  unfold lookupOutcome.
  destruct (cache_hasRgbppAssets (cache (snd _)) !! assetsKey u) as [has|] eqn:Hc.
  - destruct (Hnew _ _ Hc) as [-> | (u' & a & Hin & Hkey & Ha & ->)]; [done|].
    rewrite Forall_forall in Hall. destruct (Hall u' Hin) as [_ Hnone].
    rewrite Hkey, Hnone. apply assetsKey_inj in Hkey as [-> ->]. by rewrite Ha.
  - by rewrite (lookup_weaken_None _ _ _ Hc Hch).
Qed.

(** What the loop settles with depends on the session only through
    what the lookups settle with. *)
Lemma collectLoop_fst_ext candidates collected amount s1 s2 :
  (forall u, lookupOutcome this (cache s1) u = lookupOutcome this (cache s2) u) ->
  fst (collectLoop this target excl only candidates collected amount s1)
  = fst (collectLoop this target excl only candidates collected amount s2).
Proof.
  revert collected amount s1 s2.
  induction candidates as [|u rest IH]; intros collected amount s1 s2 Hsame; [done|].
  rewrite !collectLoop_cons.
  case_decide; [done|].
  destruct (isExcluded excl u); [by apply IH|].
  destruct (default false only) eqn:Honly; [|by apply IH].
  pose proof (lookup_keeps_outcome u s1) as K1.
  pose proof (lookup_keeps_outcome u s2) as K2.
  pose proof (f_equal fst (lookup_effect u s1)) as E1.
  pose proof (f_equal fst (lookup_effect u s2)) as E2.
  destruct (optionalCacheHasRgbppAssets _ _ s1) as [o1 t1].
  destruct (optionalCacheHasRgbppAssets _ _ s2) as [o2 t2].
  simpl in *. rewrite Hsame in E1. subst o1 o2.
  assert (forall u', lookupOutcome this (cache t1) u' = lookupOutcome this (cache t2) u')
    as Hsame' by (intros u'; by rewrite K1, K2).
  destruct (lookupOutcome this (cache s2) u) as [[|]|e]; [by apply IH..|done].
Qed.

(** A loop that has run to its end runs again without a request, and
    to the same end, in any session that holds the flags it left. *)
Lemma collectLoop_replay candidates collected amount s x s' t :
  collectLoop this target excl only candidates collected amount s = (Returned x, s') ->
  cache_hasRgbppAssets (cache s') ⊆ cache_hasRgbppAssets (cache t) ->
  collectLoop this target excl only candidates collected amount t = (Returned x, t).
Proof.
  revert collected amount s.
  induction candidates as [|u rest IH]; intros collected amount s Hrun Hsub.
  { simpl in *. unfold ret in *. by injection Hrun as <- _. }
  rewrite collectLoop_cons in *.
  case_decide; [by injection Hrun as <- _|].
  destruct (isExcluded excl u); [by eapply IH|].
  destruct (default false only); [|by eapply IH].
  destruct (optionalCacheHasRgbppAssets _ _ s) as [[has|e] s1] eqn:Hl; [|done].
  apply lookup_returned in Hl.
  assert (cache_hasRgbppAssets (cache s1) ⊆ cache_hasRgbppAssets (cache s')) as Hgrow.
  { destruct has.
    - destruct (collectLoop_effects rest collected amount s1)
        as (_ & _ & _ & _ & _ & _ & Hch & _). by rewrite Hrun in Hch.
    - destruct (collectLoop_effects rest (collected ++ [u]) (amount + value u) s1)
        as (_ & _ & _ & _ & _ & _ & Hch & _). by rewrite Hrun in Hch. }
  rewrite (lookup_stored u t has).
  2: { eapply lookup_weaken; [|exact Hsub]. by eapply lookup_weaken. }
  destruct has; by eapply IH.
Qed.

(** A loop that rejects does so with the service's rejection of the
    asset lookup of one of its candidates, for which no flag was stored. *)
Lemma collectLoop_thrown candidates collected amount s e s' :
  collectLoop this target excl only candidates collected amount s = (Thrown e, s') ->
  default false only = true
  /\ exists u f,
       u ∈ candidates
       /\ cache_hasRgbppAssets (cache s) !! assetsKey u = None
       /\ getRgbppAssetsByBtcUtxo (service this) (txid u) (vout u) = Rejected f
       /\ e = ServiceFailure f.
Proof.
  revert collected amount s.
  induction candidates as [|u rest IH]; intros collected amount s; [done|].
  rewrite collectLoop_cons.
  case_decide; [done|].
  assert (forall c a s1,
            cache_hasRgbppAssets (cache s) ⊆ cache_hasRgbppAssets (cache s1) ->
            collectLoop this target excl only rest c a s1 = (Thrown e, s') ->
            default false only = true
            /\ exists u0 f,
                 u0 ∈ u :: rest
                 /\ cache_hasRgbppAssets (cache s) !! assetsKey u0 = None
                 /\ getRgbppAssetsByBtcUtxo (service this) (txid u0) (vout u0)
                    = Rejected f
                 /\ e = ServiceFailure f) as Hrest.
  { intros c a s1 Hsub Hrun.
    destruct (IH c a s1 Hrun) as (Honly & u0 & f & Hin & Hnone & Hrej & ->).
    split; [done|]. exists u0, f. split_and!; [by right| |done..].
    by eapply lookup_weaken_None. }
  destruct (isExcluded excl u); [by apply Hrest|].
  destruct (default false only) eqn:Honly; [|by apply Hrest].
  rewrite lookup_effect. unfold lookupOutcome.
  destruct (cache_hasRgbppAssets (cache s) !! assetsKey u) as [has|] eqn:Hc.
  { destruct has; by apply Hrest. }
  destruct (getRgbppAssetsByBtcUtxo (service this) (txid u) (vout u)) as [a|f] eqn:Ha.
  - destruct (isNonEmptyArray a); apply Hrest; simpl; by apply insert_subseteq.
  - intros [= <- _]. split; [done|]. exists u, f. split_and!; [by left|done..].
Qed.

End MoreLoopFacts.

Lemma lookupOutcome_flags c c' u :
  cache_hasRgbppAssets c = cache_hasRgbppAssets c' ->
  lookupOutcome this c u = lookupOutcome this c' u.
Proof. unfold lookupOutcome. by intros ->. Qed.

(** What [getUtxos] settles with does not depend on the session. *)
Lemma getUtxos_fst_indep addr params s t :
  fst (getUtxos this addr params s) = fst (getUtxos this addr params t).
Proof.
  unfold getUtxos, bind, request.
  destruct (getBtcUtxos _ _ _) as [rows|f]; simpl; [|done].
  destruct (addressToScriptPublicKeyHex _ _) as [pk|]; simpl; [|done].
  destruct (getAddressType addr) as [ty|] eqn:Hty.
  - erewrite !mapAsync_ret; [done|intros row s'; by unfold bind..].
  - destruct (sort compareUtxos rows) as [|row l]; simpl; [done|].
    by unfold bind.
Qed.

(** The session a call leaves is the one its loop leaves. *)
Lemma collectSatoshi_snd props s candidates s1 :
  fetchCandidates this props s = (Returned candidates, s1) ->
  snd (collectSatoshi this props s)
  = snd (collectLoop this (targetAmount props) (default [] (excludeUtxos props))
           (onlyNonRgbppUtxos props) candidates [] 0 s1).
Proof.
  intros Hf. rewrite collectSatoshi_run, Hf.
  destruct (collectLoop _ _ _ _ _ _ _ s1) as [[[c a]|e] s2]; [|done].
  by destruct (_ && _)%bool.
Qed.

(** Candidates that were fetched are fetched again, the same, in any
    session that holds the same stored lists. *)
Lemma fetchCandidates_again props s candidates s1 t :
  fetchCandidates this props s = (Returned candidates, s1) ->
  cache_utxos (cache t) = cache_utxos (cache s1) ->
  exists t',
    fetchCandidates this props t = (Returned candidates, t')
    /\ cache_hasRgbppAssets (cache t') = cache_hasRgbppAssets (cache t)
    /\ (is_Some (internalCacheKey props) -> t' = t).
Proof.
  intros Hf Hcu.
  destruct (internalCacheKey props) as [k|] eqn:Hk.
  - assert (cache_utxos (cache s1) !! k = Some candidates) as Hstored.
    { destruct (cache_utxos (cache s) !! k) as [cached|] eqn:Hc.
      - rewrite (fetchCandidates_hit this props s k cached Hk Hc) in Hf.
        by injection Hf as <- <-.
      - rewrite fetchCandidates_miss in Hf by (intros k'; rewrite Hk; by intros [= <-]).
        destruct (fst (getUtxos _ _ _ _)) as [us|e]; [|done].
        rewrite Hk in Hf. injection Hf as <- <-. simpl. by rewrite lookup_insert_eq. }
    exists t. rewrite <- Hcu in Hstored.
    by rewrite (fetchCandidates_hit this props t k candidates Hk Hstored).
  - rewrite fetchCandidates_miss in Hf by (intros k'; by rewrite Hk).
    destruct (fst (getUtxos this _ _ s)) as [us|e] eqn:Hg; [|done].
    rewrite Hk in Hf. injection Hf as <- <-.
    eexists. rewrite fetchCandidates_miss by (intros k'; by rewrite Hk).
    rewrite (getUtxos_fst_indep _ _ t s), Hg, Hk.
    split; [reflexivity|]. split; [done|]. by intros [? [=]].
Qed.

(** X9. A call made again with the same properties, in the session the
    first call left, settles as the first did: with the same selection
    or the same error. What the first call stored never changes what
    the second one settles with. *)
Theorem collectSatoshi_retry props s :
  fst (collectSatoshi this props (snd (collectSatoshi this props s)))
  = fst (collectSatoshi this props s).
Proof.
  destruct (fetchCandidates this props s) as [[candidates|e] s1] eqn:Hf.
  - rewrite (collectSatoshi_snd props s candidates s1 Hf).
    set (loop := collectLoop this (targetAmount props) (default [] (excludeUtxos props))
                   (onlyNonRgbppUtxos props) candidates [] 0).
    destruct (collectLoop_effects (targetAmount props) (default [] (excludeUtxos props))
                (onlyNonRgbppUtxos props) candidates [] 0 s1)
      as (_ & _ & _ & _ & _ & Hcu & _). fold loop in Hcu.
    destruct (fetchCandidates_again props s candidates s1 (snd (loop s1)) Hf Hcu)
      as (t' & Hf' & Hflags & _).
    rewrite (collectSatoshi_run this props (snd (loop s1))), Hf'.
    rewrite (collectSatoshi_run this props s), Hf. fold loop.
    assert (fst (loop t') = fst (loop s1)) as Hsame.
    { apply collectLoop_fst_ext. intros u.
      rewrite (lookupOutcome_flags _ _ u Hflags).
      apply collectLoop_lookupOutcome. }
    destruct (loop t') as [o t2], (loop s1) as [o1 s2]. simpl in Hsame. subst o1.
    destruct o as [[c a]|e]; [|done]. by destruct (_ && _)%bool.
  - assert (snd (collectSatoshi this props s) = s1) as ->
      by (by rewrite collectSatoshi_run, Hf).
    rewrite (collectSatoshi_run this props s), Hf.
    rewrite (collectSatoshi_run this props s1).
    assert (fst (fetchCandidates this props s1) = Thrown e) as Hf'.
    { destruct (internalCacheKey props) as [k|] eqn:Hk.
      - destruct (cache_utxos (cache s) !! k) as [cached|] eqn:Hc.
        { by rewrite (fetchCandidates_hit this props s k cached Hk Hc) in Hf. }
        rewrite fetchCandidates_miss in Hf by (intros k'; rewrite Hk; by intros [= <-]).
        destruct (fst (getUtxos this _ _ s)) as [us|e'] eqn:Hg; [done|].
        injection Hf as <- <-.
        rewrite fetchCandidates_miss by (intros k'; rewrite Hk; by intros [= <-]).
        by erewrite getUtxos_fst_indep, Hg.
      - rewrite fetchCandidates_miss in Hf by (intros k'; by rewrite Hk).
        destruct (fst (getUtxos this _ _ s)) as [us|e'] eqn:Hg; [done|].
        injection Hf as <- <-.
        rewrite fetchCandidates_miss by (intros k'; by rewrite Hk).
        by erewrite getUtxos_fst_indep, Hg. }
    destruct (fetchCandidates this props s1) as [o t]. simpl in Hf'. by subst o.
Qed.

(** X10. A call with a cache key that has resolved is answered from the
    cache when it is made again: it resolves with the same result,
    sends no request and changes nothing. *)
Theorem collectSatoshi_repeat props s k r s' :
  internalCacheKey props = Some k ->
  collectSatoshi this props s = (Returned r, s') ->
  collectSatoshi this props s' = (Returned r, s').
Proof.
  intros Hk Hrun.
  destruct (fetchCandidates this props s) as [[candidates|e] s1] eqn:Hf.
  2: { by rewrite collectSatoshi_run, Hf in Hrun. }
  pose proof (collectSatoshi_snd props s candidates s1 Hf) as Hsnd.
  rewrite Hrun in Hsnd; simpl in Hsnd.
  destruct (collectLoop_effects (targetAmount props) (default [] (excludeUtxos props))
              (onlyNonRgbppUtxos props) candidates [] 0 s1)
    as (_ & _ & _ & _ & _ & Hcu & _).
  rewrite <- Hsnd in Hcu.
  destruct (fetchCandidates_again props s candidates s1 s' Hf Hcu)
    as (t' & Hf' & _ & Ht). rewrite Ht in Hf' by (by rewrite Hk).
  rewrite collectSatoshi_run, Hf in Hrun.
  rewrite collectSatoshi_run, Hf'.
  destruct (collectLoop _ _ _ _ _ _ _ s1) as [[[c a]|e] s2] eqn:Hloop; [|done].
  simpl in Hsnd. subst s2.
  rewrite (collectLoop_replay _ _ _ _ _ _ _ _ _ s' Hloop) by done.
  destruct (_ && _)%bool; [done|]. by injection Hrun as <-.
Qed.

(** X11. While the service rejects the listing and no list is stored
    under the key, a call rejects with that very failure, after the one
    listing request; it stores nothing and looks up no asset. *)
Theorem collectSatoshi_listing_rejected props s f :
  (forall k, internalCacheKey props = Some k -> cache_utxos (cache s) !! k = None) ->
  getBtcUtxos (service this) (props_address props) (listingParams props) = Rejected f ->
  collectSatoshi this props s
  = (Thrown (ServiceFailure f),
     {| cache := cache s;
        requests := requests s
                    ++ [ReqUtxos (props_address props) (listingParams props)] |}).
Proof.
  intros Hmiss Hrej. rewrite collectSatoshi_run, fetchCandidates_miss by done.
  fold (listingParams props).
  unfold getUtxos, bind, request. by rewrite Hrej.
Qed.

(** X12. The surplus is smaller than the value of the output selected
    last: without that output the selection is short of the target. A
    call that selects nothing reports an amount of zero. *)
Theorem collectSatoshi_surplus props s r s' :
  collectSatoshi this props s = (Returned r, s') ->
  (forall p last, utxos r = p ++ [last] ->
     totalValue p < targetAmount props
     /\ satoshi r = totalValue p + value last
     /\ exceedSatoshi r < value last)
  /\ (utxos r = [] -> satoshi r = 0 /\ exceedSatoshi r = - targetAmount props).
Proof.
  intros Hrun.
  destruct (fetchCandidates this props s) as [[candidates|e] s1] eqn:Hf.
  2: { by rewrite collectSatoshi_run, Hf in Hrun. }
  destruct (collectSatoshi_returned this props s candidates s1 r s' Hf Hrun)
    as (Hu & Hs & He & _).
  rewrite <- Hu in Hs, He. split.
  - intros p last Hp.
    assert (totalValue p < targetAmount props) as Hshort.
    { pose proof (takeUntil_minimal (targetAmount props)
        (passing this (cache s) (default [] (excludeUtxos props))
           (onlyNonRgbppUtxos props) candidates) 0 p) as Hmin.
      rewrite <- Hu, Hp in Hmin. rewrite Z.add_0_l in Hmin. apply Hmin.
      - by apply prefix_app_r.
      - intros Heq. apply (f_equal length) in Heq.
        rewrite length_app in Heq. simpl in Heq. lia. }
    rewrite Hp, totalValue_app, totalValue_cons, totalValue_nil in Hs, He. lia.
  - intros Hnil. rewrite Hnil, totalValue_nil in Hs, He. lia.
Qed.

(** X13. With a target of zero or less nothing is selected, whatever
    the candidates: once they are fetched the call resolves with an
    empty selection and an amount of zero, and it looks up no asset. *)
Theorem collectSatoshi_nothing_needed props s candidates s1 :
  targetAmount props <= 0 ->
  fetchCandidates this props s = (Returned candidates, s1) ->
  collectSatoshi this props s
  = (Returned {| utxos := []; satoshi := 0;
                 exceedSatoshi := 0 - targetAmount props |}, s1).
Proof.
  intros Hle Hf. rewrite collectSatoshi_run, Hf.
  assert (collectLoop this (targetAmount props) (default [] (excludeUtxos props))
            (onlyNonRgbppUtxos props) candidates [] 0 s1
          = (Returned ([], 0), s1)) as ->.
  { destruct candidates as [|u rest]; [done|].
    rewrite collectLoop_cons. by rewrite decide_True by lia. }
  rewrite bool_decide_eq_false_2 by lia. by rewrite andb_false_r.
Qed.

(** X14. After the candidates are fetched, the requests a call sends
    are asset lookups, in candidate order, at most one for a candidate;
    none is sent for a candidate that the exclusion list names or whose
    flag was stored, and none at all unless [onlyNonRgbppUtxos] is set.
    The stored lists stay as they are, no stored flag is dropped or
    changed, and a flag is stored only for a candidate that was looked
    up, and is whether the service answered with a non-empty array. *)
Theorem collectSatoshi_lookups props s candidates s1 :
  fetchCandidates this props s = (Returned candidates, s1) ->
  exists asked,
    asked `sublist_of` candidates
    /\ requests (snd (collectSatoshi this props s))
       = requests s1 ++ map lookupRequest asked
    /\ Forall (fun u => isExcluded (default [] (excludeUtxos props)) u = false
                        /\ cache_hasRgbppAssets (cache s1) !! assetsKey u = None) asked
    /\ (default false (onlyNonRgbppUtxos props) = false ->
        asked = [] /\ snd (collectSatoshi this props s) = s1)
    /\ cache_utxos (cache (snd (collectSatoshi this props s))) = cache_utxos (cache s1)
    /\ cache_hasRgbppAssets (cache s1)
       ⊆ cache_hasRgbppAssets (cache (snd (collectSatoshi this props s)))
    /\ (forall k has,
          cache_hasRgbppAssets (cache (snd (collectSatoshi this props s))) !! k
            = Some has ->
          cache_hasRgbppAssets (cache s1) !! k = Some has
          \/ exists u a,
               u ∈ asked /\ k = assetsKey u
               /\ getRgbppAssetsByBtcUtxo (service this) (txid u) (vout u) = Answered a
               /\ has = isNonEmptyArray a).
Proof.
  intros Hf. rewrite (collectSatoshi_snd props s candidates s1 Hf).
  apply collectLoop_effects.
Qed.

(** X15. The one error [collectSatoshi] raises itself is
    INSUFFICIENT_UTXO, for an amount below the target with
    [allowInsufficient] not set. Any other rejection is passed on as it
    came: it is the rejection of the fetch of the candidates, or the
    service's rejection of the asset lookup of one of the candidates,
    met with [onlyNonRgbppUtxos] set. With a stored list, no asset
    filter and [allowInsufficient] set, the call always resolves, and
    without a request. *)
Theorem collectSatoshi_failures props s :
  (forall e,
     fst (collectSatoshi this props s) = Thrown e ->
     fst (fetchCandidates this props s) = Thrown e
     \/ (exists candidates u f,
           fst (fetchCandidates this props s) = Returned candidates
           /\ default false (onlyNonRgbppUtxos props) = true
           /\ u ∈ candidates
           /\ getRgbppAssetsByBtcUtxo (service this) (txid u) (vout u) = Rejected f
           /\ e = ServiceFailure f)
     \/ (exists actual,
           e = BuildError (withComment INSUFFICIENT_UTXO
                             (expectedActual (targetAmount props) actual))
           /\ actual < targetAmount props
           /\ default false (allowInsufficient props) = false))
  /\ (forall k cached,
        internalCacheKey props = Some k ->
        cache_utxos (cache s) !! k = Some cached ->
        default false (onlyNonRgbppUtxos props) = false ->
        default false (allowInsufficient props) = true ->
        exists r, collectSatoshi this props s = (Returned r, s)).
Proof.
  split.
  - intros e. rewrite collectSatoshi_run.
    destruct (fetchCandidates this props s) as [[candidates|e1] s1]; simpl.
    2: { intros [= ->]. by left. }
    destruct (collectLoop _ _ _ _ _ _ _ s1) as [[[collected amount]|e2] s2] eqn:Hloop.
    + destruct (default false (allowInsufficient props)); simpl; [done|].
      case_bool_decide; simpl; [|done].
      intros [= <-]. right; right. by exists amount.
    + simpl. intros [= ->].
      apply collectLoop_thrown in Hloop as (Honly & u & f & Hin & _ & Hrej & ->).
      right; left. by exists candidates, u, f.
  - intros k cached Hk Hc Honly Hallow.
    rewrite collectSatoshi_run, (fetchCandidates_hit this props s k cached Hk Hc).
    destruct (collectLoop_effects (targetAmount props) (default [] (excludeUtxos props))
                (onlyNonRgbppUtxos props) cached [] 0 s)
      as (asked & _ & _ & _ & Hoff & _). destruct (Hoff Honly) as [_ Hs].
    destruct (collectLoop_run this (targetAmount props) (default [] (excludeUtxos props))
                (onlyNonRgbppUtxos props) cached [] 0 s)
      as (s2 & _ & [Hrun | (Hon & _)]); [|congruence].
    clear Hoff. rewrite Hrun in Hs |- *. simpl in Hs. rewrite Hs.
    rewrite Hallow. simpl. by eexists.
Qed.

End MoreCollectFacts.

Lemma collectSatoshi_repeat_witness :
  @collectSatoshi Fixture.imports Fixture.source Fixture.propsExcluding
    (snd (@collectSatoshi Fixture.imports Fixture.source Fixture.propsExcluding
            newSession))
  = (Returned {| utxos := [Fixture.utxo "aa" 0 5000]; satoshi := 5000;
                 exceedSatoshi := 0 |},
     snd (@collectSatoshi Fixture.imports Fixture.source Fixture.propsExcluding
            newSession)).
Proof.
  apply (@collectSatoshi_repeat Fixture.imports Fixture.source Fixture.propsExcluding
           newSession "session"); vm_compute; reflexivity.
Defined.

Lemma collectSatoshi_listing_rejected_witness :
  fst (@collectSatoshi Fixture.imports
         {| service := Fixture.apiDown; networkType := TESTNET |}
         Fixture.propsExcluding newSession)
  = Thrown (ServiceFailure (BtcAssetsApiError ASSETS_API_RESPONSE_ERROR "503")).
Proof.
  rewrite (@collectSatoshi_listing_rejected Fixture.imports
             {| service := Fixture.apiDown; networkType := TESTNET |}
             Fixture.propsExcluding newSession
             (BtcAssetsApiError ASSETS_API_RESPONSE_ERROR "503"));
    [reflexivity | intros k _; apply lookup_empty | reflexivity].
Defined.

Lemma collectSatoshi_surplus_witness :
  totalValue [Fixture.utxo "bb" 0 2000] < targetAmount (Fixture.props 6000)
  /\ exceedSatoshi {| utxos := [Fixture.utxo "bb" 0 2000; Fixture.utxo "aa" 0 5000];
                      satoshi := 7000; exceedSatoshi := 1000 |}
     < value (Fixture.utxo "aa" 0 5000).
Proof.
  destruct (proj1 (@collectSatoshi_surplus Fixture.imports Fixture.source
                     (Fixture.props 6000) newSession
                     {| utxos := [Fixture.utxo "bb" 0 2000; Fixture.utxo "aa" 0 5000];
                        satoshi := 7000; exceedSatoshi := 1000 |}
                     (snd (@collectSatoshi Fixture.imports Fixture.source
                             (Fixture.props 6000) newSession))
                     ltac:(vm_compute; reflexivity))
              [Fixture.utxo "bb" 0 2000] (Fixture.utxo "aa" 0 5000) eq_refl)
    as (Hshort & _ & Hsurplus).
  by split.
Defined.

Lemma collectSatoshi_nothing_needed_witness :
  @collectSatoshi Fixture.imports Fixture.source (Fixture.props (-5)) newSession
  = (Returned {| utxos := []; satoshi := 0; exceedSatoshi := 0 - (-5) |},
     snd (@fetchCandidates Fixture.imports Fixture.source (Fixture.props (-5))
            newSession)).
Proof.
  apply (@collectSatoshi_nothing_needed Fixture.imports Fixture.source
           (Fixture.props (-5)) newSession Fixture.candidates);
    [vm_compute; discriminate | vm_compute; reflexivity].
Defined.

Lemma collectSatoshi_lookups_witness :
  exists asked,
    asked `sublist_of` Fixture.candidates
    /\ requests (snd (@collectSatoshi Fixture.imports Fixture.source
                        Fixture.propsNonRgbpp newSession))
       = (requests (snd (@fetchCandidates Fixture.imports Fixture.source
                           Fixture.propsNonRgbpp newSession))
          ++ map lookupRequest asked)%list.
Proof.
  destruct (@collectSatoshi_lookups Fixture.imports Fixture.source
              Fixture.propsNonRgbpp newSession Fixture.candidates
              (snd (@fetchCandidates Fixture.imports Fixture.source
                      Fixture.propsNonRgbpp newSession))
              ltac:(vm_compute; reflexivity))
    as (asked & Hsub & Hreq & _).
  by exists asked.
Defined.

(** * The paymaster lookup *)

(** X16. [getPaymasterOutput] resolves with nothing exactly when the
    service rejects with a [BtcAssetsApiError] whose code is
    ASSETS_API_RESOURCE_NOT_FOUND, whatever its message; it rejects exactly
    when the service rejects with anything else, and then with that very
    failure, a failed fetch included; and it resolves with an output
    exactly when the service answers, the address and value being the
    answer's [btc_address] and [fee]. *)
Theorem getPaymasterOutput_settles
    (info : ServiceResult Paymaster.BtcAssetsApiPaymasterInfo) :
  (Paymaster.getPaymasterOutput info = Returned None
   <-> exists message,
         info = Rejected (BtcAssetsApiError ASSETS_API_RESOURCE_NOT_FOUND message))
  /\ (forall e,
        Paymaster.getPaymasterOutput info = Thrown e
        <-> exists f,
              info = Rejected f /\ e = ServiceFailure f
              /\ forall message,
                   f <> BtcAssetsApiError ASSETS_API_RESOURCE_NOT_FOUND message)
  /\ (forall out,
        Paymaster.getPaymasterOutput info = Returned (Some out)
        <-> exists answer,
              info = Answered answer
              /\ Paymaster.address out = Paymaster.btc_address answer
              /\ Paymaster.value out = Paymaster.fee answer).
Proof.
  unfold Paymaster.getPaymasterOutput.
  destruct info as [answer|[c m|m]]; [| destruct c |]; simpl.
  all: split_and!; try (intros e); (split; [intros H | intros H]);
    try discriminate H; try (by destruct H as (? & [=])).
  all: try (by destruct H as (? & [=] & _)).
  - injection H as <-. by exists answer.
  - destruct H as (answer' & [= <-] & Ha & Hv). destruct e as [a v]; simpl in *.
    by subst.
  - injection H as <-. eexists. split_and!; [done..|]. by intros m'.
  - destruct H as (f & [= <-] & -> & _). done.
  - injection H as <-. eexists. split_and!; [done..|]. by intros m'.
  - destruct H as (f & [= <-] & -> & _). done.
  - injection H as <-. eexists. split_and!; [done..|]. by intros m'.
  - destruct H as (f & [= <-] & -> & _). done.
  - injection H as <-. eexists. split_and!; [done..|]. by intros m'.
  - destruct H as (f & [= <-] & -> & _). done.
  - by exists m.
  - destruct H as (f & [= <-] & _ & Hne). by destruct (Hne m).
  - injection H as <-. eexists. split_and!; [done..|]. by intros m'.
  - destruct H as (f & [= <-] & -> & _). done.
Qed.

(** * The service client *)

Section ServiceFacts.
Import Service.
Context {platform : Platform}.

Local Abbreviation Value := (Json Num).

Local Arguments truthy : simpl never.
Local Arguments truthyString : simpl never.
Local Arguments orElse : simpl never.
Local Arguments get : simpl never.
Local Arguments getOpt : simpl never.
Local Arguments template : simpl never.
Local Arguments newTxBuildError : simpl never.
Local Arguments routeCall : simpl never.
Local Arguments tokenCall : simpl never.

Lemma requireToken_default (options : option BtcAssetsApiRequestOptions) :
  default true (opt_requireToken (default noOptions options))
  = default true (options ≫= opt_requireToken).
Proof. by destruct options. Qed.

(** Without a token and without the means to generate one, a request
    that requires a token stops before anything is sent. *)
Lemma request_with_guard init route options w :
  default true (options ≫= opt_requireToken) = true ->
  noCredentials (this w) ->
  request_with init route options w = (Raised (BuildError missingAppDomain), w).
Proof.
  intros Hreq [Htok Happ]. unfold request_with, bind, getThis.
  by rewrite requireToken_default, Hreq, Htok, Happ.
Qed.

(** With a token at hand, or none required, a request is one call. *)
Lemma request_with_ready init route options w :
  (default true (options ≫= opt_requireToken)
   && negb (truthy (token (this w))))%bool = false ->
  request_with init route options w
  = (settle (fetch (sent w) (routeCall (this w) route (default noOptions options))),
     afterCall w (routeCall (this w) route (default noOptions options))).
Proof.
  intros Hready. unfold request_with, bind, getThis, routeCall.
  rewrite !requireToken_default, Hready. simpl.
  unfold callFetch, settle, afterCall, ret, throw.
  destruct (fetch _ _) as [res|reason]; [|done].
  by destruct (decode res).
Qed.

Lemma tokenCall_route this0 :
  routeCall this0 "/token/generate"
    (postOptions
       (Some {| opt_requireToken := Some false;
                opt_method := Missing;
                opt_headers := None;
                opt_params := None;
                opt_body :=
                  Some (JSON_stringify
                          (JObject [("app", JString (templateString (app this0)));
                                    ("domain", JString (templateString (domain this0)))])) |}))
  = tokenCall this0.
Proof.
  unfold routeCall, tokenCall, postOptions, spread; simpl.
  change ("/token/generate" ++ "") with "/token/generate".
  do 2 f_equal. by rewrite !(left_id_L ∅ (∪)).
Qed.

Lemma generateToken_run w :
  generateToken w
  = if (truthyString (app (this w)) && truthyString (domain (this w)))%bool
    then (settle (fetch (sent w) (tokenCall (this w))), afterCall w (tokenCall (this w)))
    else (Raised (BuildError missingAppDomain), w).
Proof.
  unfold generateToken, bind, getThis. rewrite <- negb_andb.
  destruct (_ && _)%bool; simpl; [|done].
  unfold post_with. rewrite request_with_ready by done.
  simpl. fold (postOptions (Some
    {| opt_requireToken := Some false; opt_method := Missing; opt_headers := None;
       opt_params := None;
       opt_body :=
         Some (JSON_stringify
                 (JObject [("app", JString (templateString (app (this w))));
                           ("domain", JString (templateString (domain (this w))))])) |})).
  by rewrite tokenCall_route.
Qed.

(** [generateToken] calls [post] as the source does: with
    [requireToken] false the request never reaches [init], whichever
    [init] it is given. *)
Lemma generateToken_post w :
  generateToken w
  = bind getThis (fun this0 =>
      if (negb (truthyString (app this0)) || negb (truthyString (domain this0)))%bool
      then throw missingAppDomain
      else
        post "/token/generate"
          (Some {| opt_requireToken := Some false;
                   opt_method := Missing;
                   opt_headers := None;
                   opt_params := None;
                   opt_body :=
                     Some (JSON_stringify
                             (JObject [("app", JString (templateString (app this0)));
                                       ("domain",
                                        JString (templateString (domain this0)))])) |})) w.
Proof.
  unfold generateToken, bind, getThis.
  destruct (_ || _)%bool; [done|].
  unfold post, post_with. by rewrite !request_with_ready.
Qed.

(** [init] in full: nothing with a token at hand and no [force];
    otherwise the token request, whose answer's [token] is stored. *)
Lemma init_run force w :
  init_ force w
  = if (truthy (token (this w)) && negb (default false force))%bool then (Resolved tt, w)
    else if (truthyString (app (this w)) && truthyString (domain (this w)))%bool then
      match settle (fetch (sent w) (tokenCall (this w))) with
      | Resolved json =>
          (Resolved tt, withToken (afterCall w (tokenCall (this w))) (get "token" json))
      | Raised e => (Raised e, afterCall w (tokenCall (this w)))
      end
    else (Raised (BuildError missingAppDomain), w).
Proof.
  unfold init_, bind, getThis.
  destruct (_ && negb _)%bool; [done|].
  rewrite generateToken_run.
  destruct (_ && _)%bool; [|done].
  by destruct (settle _).
Qed.

(** [request] in full. *)
Lemma request_run route options w :
  request route options w
  = if (default true (options ≫= opt_requireToken)
        && negb (truthy (token (this w))))%bool then
      if (truthyString (app (this w)) && truthyString (domain (this w)))%bool then
        match settle (fetch (sent w) (tokenCall (this w))) with
        | Resolved json =>
            (settle
               (fetch (sent w ++ [tokenCall (this w)])
                  (routeCall
                     (this (withToken (afterCall w (tokenCall (this w)))
                              (get "token" json)))
                     route (default noOptions options))),
             afterCall
               (withToken (afterCall w (tokenCall (this w))) (get "token" json))
               (routeCall
                  (this (withToken (afterCall w (tokenCall (this w)))
                           (get "token" json)))
                  route (default noOptions options)))
        | Raised e => (Raised e, afterCall w (tokenCall (this w)))
        end
      else (Raised (BuildError missingAppDomain), w)
    else
      (settle (fetch (sent w) (routeCall (this w) route (default noOptions options))),
       afterCall w (routeCall (this w) route (default noOptions options))).
Proof.
  unfold request.
  destruct (default true (options ≫= opt_requireToken)
            && negb (truthy (token (this w))))%bool eqn:Hneed.
  2: { by apply request_with_ready. }
  apply andb_true_iff in Hneed as [Hreq Htok]. apply negb_true_iff in Htok.
  destruct (truthyString (app (this w)) && truthyString (domain (this w)))%bool
    eqn:Hmeans.
  2: { by apply request_with_guard. }
  unfold request_with, bind at 1, getThis.
  rewrite requireToken_default, Hreq, Htok, Hmeans. simpl.
  unfold bind at 1. rewrite init_run, Htok, Hmeans. simpl.
  destruct (settle (fetch (sent w) (tokenCall (this w)))) as [json|e]; [|done].
  unfold bind, getThis, routeCall. rewrite !requireToken_default, Hreq. simpl.
  unfold callFetch, settle, afterCall, ret, throw; simpl.
  destruct (fetch _ _) as [res|reason]; [|done].
  by destruct (decode res).
Qed.

Lemma orElse_false (v : option Value) b :
  orElse (orElse v (Some (JBool b))) (Some (JBool false)) = orElse v (Some (JBool b)).
Proof. by destruct v as [[]|]. Qed.

Lemma getOpt_truthy key (json : Value) :
  truthy (Some json) = true -> getOpt key (Some json) = get key json.
Proof. by destruct json. Qed.

(** When [request] returns the body of a response. *)
Lemma decode_returns res json :
  decode res = inr json
  <-> bodyJson res = Some json
      /\ truthy (Some json) = true
      /\ truthy (okOf json res) = true.
Proof.
  unfold decode, readBody, bodyJson, okOf.
  destruct (res_text res) as [text|]; simpl; [|split; [done | by intros [[=] _]]].
  destruct (JSON_parse text) as [value|]; simpl; [|split; [done | by intros [[=] _]]].
  rewrite orElse_false.
  destruct (truthy (Some value)) eqn:Hjson; simpl.
  2: { split; [done|]. intros ([= <-] & Ht & _). by rewrite Hjson in Ht. }
  rewrite (getOpt_truthy "ok" value Hjson).
  destruct (truthy (orElse (get "ok" value) (Some (JBool (res_ok res))))) eqn:Hok; simpl.
  - split; [by intros [= <-] | by intros ([= <-] & _)].
  - split; [done|]. intros ([= <-] & _ & Hok'). by rewrite Hok in Hok'.
Qed.

(** X17. How [request] reads a response. It returns the parsed body
    exactly when the text of the response parses to a truthy value and
    [ok] is truthy, [ok] being the body's own [ok] unless that is
    missing or null, and else [res.ok]; the status plays no part in
    that. It throws ASSETS_API_RESPONSE_DECODE_ERROR or ASSETS_API_UNAUTHORIZED
    only for a response without a truthy body, of status 200 or 401; a
    response with a truthy body and a falsy [ok] gives
    ASSETS_API_RESPONSE_ERROR whatever its status, 401 included. *)
Theorem decode_classifies res :
  (forall json,
     decode res = inr json
     <-> bodyJson res = Some json
         /\ truthy (Some json) = true
         /\ truthy (okOf json res) = true)
  /\ (forall e,
        decode res = inl e ->
        code e
        = if truthy (bodyJson res) then ASSETS_API_RESPONSE_ERROR
          else if decide (res_status res = 200) then ASSETS_API_RESPONSE_DECODE_ERROR
          else if decide (res_status res = 401) then ASSETS_API_UNAUTHORIZED
          else ASSETS_API_RESPONSE_ERROR).
Proof.
  split; [intros json; apply decode_returns|].
  unfold decode, readBody, bodyJson.
  destruct (res_text res) as [text|]; simpl.
  2: { intros e [= <-]. unfold truthy. by repeat case_decide. }
  destruct (JSON_parse text) as [value|]; simpl.
  2: { intros e [= <-]. unfold truthy. by repeat case_decide. }
  destruct (truthy (Some value)) eqn:Hjson; simpl.
  2: { intros e [= <-]. by repeat case_decide. }
  destruct (truthy (orElse _ (Some (JBool false)))); simpl; [done|].
  by intros e [= <-].
Qed.

Lemma settle_resolved result json :
  settle result = Resolved json ->
  exists res,
    result = Responded res
    /\ bodyJson res = Some json
    /\ truthy (Some json) = true
    /\ truthy (okOf json res) = true.
Proof.
  destruct result as [res|reason]; simpl; [|done].
  destruct (decode res) as [e|json'] eqn:Hd; [done|]. intros [= ->].
  exists res. split; [done|]. by apply decode_returns.
Qed.

Lemma lookup_spread (a b : gmap string string) k :
  spread a b !! k = match b !! k with Some v => Some v | None => a !! k end.
Proof.
  unfold spread. destruct (b !! k) as [v|] eqn:Hb.
  - by apply lookup_union_Some_l.
  - by rewrite lookup_union_r.
Qed.

Lemma lookup_optional (c : bool) (k' k v : string) :
  (if c then ({[ k' := v ]} : gmap string string) else ∅) !! k
  = if (c && bool_decide (k' = k))%bool then Some v else None.
Proof.
  destruct c; simpl; [|by rewrite lookup_empty].
  case_bool_decide as Hk; [subst; by rewrite lookup_singleton_eq|].
  by rewrite lookup_singleton_ne.
Qed.

Lemma routeCall_authorization this0 route options :
  init_headers (init (routeCall this0 route options)) !! "Authorization"
  = match default ∅ (opt_headers options) !! "Authorization" with
    | Some v => Some v
    | None =>
      if (default true (opt_requireToken options) && truthy (token this0))%bool
      then Some ("Bearer " ++ template (token this0)) else None
    end.
Proof.
  unfold routeCall; simpl. rewrite !lookup_spread, !lookup_optional.
  destruct (default ∅ (opt_headers options) !! "Authorization"); [done|].
  rewrite (bool_decide_eq_true_2 ("Authorization" = "Authorization")) by done.
  rewrite (bool_decide_eq_false_2 ("origin" = "Authorization")) by done.
  rewrite andb_false_r, andb_true_r. by destruct (_ && _)%bool.
Qed.

Lemma post_request route options :
  post route options = request route (Some (postOptions options)).
Proof. done. Qed.

(** X18. An instance that holds no truthy token and lacks [app] or
    [domain] sends nothing: [request] and [post], unless called with
    [requireToken] false, [init], [generateToken] and every endpoint
    method throw ASSETS_API_INVALID_PARAM before any call to [fetch], and
    leave the instance as it was. *)
Theorem request_needs_credentials w :
  noCredentials (this w) ->
  (forall route options,
     options ≫= opt_requireToken <> Some false ->
     request route options w = (Raised (BuildError missingAppDomain), w)
     /\ post route options w = (Raised (BuildError missingAppDomain), w))
  /\ (forall force, init_ force w = (Raised (BuildError missingAppDomain), w))
  /\ generateToken w = (Raised (BuildError missingAppDomain), w)
  /\ getBlockchainInfo w = (Raised (BuildError missingAppDomain), w)
  /\ (forall hash,
        getBlockByHash hash w = (Raised (BuildError missingAppDomain), w)
        /\ getBlockHeaderByHash hash w = (Raised (BuildError missingAppDomain), w))
  /\ (forall height,
        getBlockHashByHeight height w = (Raised (BuildError missingAppDomain), w))
  /\ (forall address params,
        getBalance address params w = (Raised (BuildError missingAppDomain), w)
        /\ getUtxos address params w = (Raised (BuildError missingAppDomain), w))
  /\ (forall address,
        getTransactions address w = (Raised (BuildError missingAppDomain), w))
  /\ (forall txId,
        getTransaction txId w = (Raised (BuildError missingAppDomain), w))
  /\ (forall txHex,
        sendTransaction txHex w = (Raised (BuildError missingAppDomain), w))
  /\ code missingAppDomain = ASSETS_API_INVALID_PARAM.
Proof.
  intros Hnone.
  assert (forall route options,
            options ≫= opt_requireToken <> Some false ->
            request route options w = (Raised (BuildError missingAppDomain), w))
    as Hrequest.
  { intros route options Hreq. apply request_with_guard; [|done].
    by destruct (options ≫= opt_requireToken) as [[|]|]. }
  destruct Hnone as [Htok Hmeans].
  split_and!; try done.
  - intros route options Hreq. split; [by apply Hrequest|].
    rewrite post_request. apply Hrequest. by destruct options.
  - intros force. by rewrite init_run, Htok, Hmeans.
  - by rewrite generateToken_run, Hmeans.
  - by apply Hrequest.
  - intros hash. split; by apply Hrequest.
  - intros height. by apply Hrequest.
  - intros address params. split; by apply Hrequest.
  - intros address. by apply Hrequest.
  - intros txId. by apply Hrequest.
  - intros txHex. unfold sendTransaction. rewrite post_request. by apply Hrequest.
Qed.

(** X19. Whatever [request] resolves with is the parsed body of the
    response to the last call it made; it is truthy, so never [null],
    [false], zero or an empty string; and its own [ok], if it has one
    that is not null, is truthy. Without such an [ok] the response's
    [ok] flag was set. *)
Theorem request_resolves_ok route options w json :
  fst (request route options w) = Resolved json ->
  truthy (Some json) = true
  /\ (forall v, get "ok" json = Some v -> v <> JNull -> truthy (Some v) = true)
  /\ exists hist call res,
       sent (snd (request route options w)) = (hist ++ [call])%list
       /\ fetch hist call = Responded res
       /\ bodyJson res = Some json
       /\ (get "ok" json = None \/ get "ok" json = Some JNull -> res_ok res = true).
Proof.
  assert (forall hist call,
            settle (fetch hist call) = Resolved json ->
            truthy (Some json) = true
            /\ (forall v, get "ok" json = Some v -> v <> JNull -> truthy (Some v) = true)
            /\ exists res,
                 fetch hist call = Responded res
                 /\ bodyJson res = Some json
                 /\ (get "ok" json = None \/ get "ok" json = Some JNull ->
                     res_ok res = true)) as Hlast.
  { intros hist call Hs.
    apply settle_resolved in Hs as (res & Hres & Hbody & Hjson & Hok).
    split; [done|]. unfold okOf in Hok. split.
    - intros v Hv Hnull. rewrite Hv in Hok. by destruct v.
    - exists res. split_and!; [done..|].
      intros [Hnone | Hnull]; rewrite ?Hnone, ?Hnull in Hok; by destruct (res_ok res). }
  rewrite request_run.
  destruct (_ && negb _)%bool.
  - destruct (_ && _)%bool; [|done].
    destruct (settle (fetch (sent w) (tokenCall (this w)))) as [answer|e]; [|done].
    simpl. intros Hs. destruct (Hlast _ _ Hs) as (Hjson & Hok & res & Hres & Hrest).
    split_and!; [done..|]. by do 3 eexists.
  - simpl. intros Hs. destruct (Hlast _ _ Hs) as (Hjson & Hok & res & Hres & Hrest).
    split_and!; [done..|]. by do 3 eexists.
Qed.

(** X20. With a truthy token at hand, or with [requireToken] false,
    [request] makes exactly one call and leaves the instance alone. The
    call carries the header [Authorization: Bearer <token>] exactly when
    a token is required, unless the caller's own headers name
    [Authorization], which then wins. *)
Theorem request_sends_one route options w :
  options ≫= opt_requireToken = Some false \/ truthy (token (this w)) = true ->
  request route options w
  = (settle (fetch (sent w) (routeCall (this w) route (default noOptions options))),
     afterCall w (routeCall (this w) route (default noOptions options)))
  /\ init_headers (init (routeCall (this w) route (default noOptions options)))
       !! "Authorization"
     = match default ∅ (options ≫= opt_headers) !! "Authorization" with
       | Some v => Some v
       | None =>
         if default true (options ≫= opt_requireToken)
         then Some ("Bearer " ++ template (token (this w))) else None
       end.
Proof.
  intros Hready. split.
  - rewrite request_run.
    destruct Hready as [-> | ->]; [done|]. by rewrite andb_false_r.
  - rewrite routeCall_authorization, requireToken_default.
    assert (opt_headers (default noOptions options) = options ≫= opt_headers) as ->
      by (by destruct options).
    destruct (default ∅ (options ≫= opt_headers) !! "Authorization"); [done|].
    destruct Hready as [-> | ->]; [done|]. by rewrite andb_true_r.
Qed.

(** X21. With no truthy token but with [app] and [domain], a request
    that requires a token first posts them to [/token/generate], as
    JSON and without an [Authorization] header. If that call fails, the
    request fails the same way and the route is never called. If it
    resolves, the answer's [token] becomes the instance's token,
    whatever it is, and the route is called next, so two calls are made;
    the second carries [Authorization] only if that token is truthy or
    the caller's headers name it. *)
Theorem request_generates_token route options w :
  options ≫= opt_requireToken <> Some false ->
  truthy (token (this w)) = false ->
  (truthyString (app (this w)) && truthyString (domain (this w)))%bool = true ->
  init_method (init (tokenCall (this w))) = POST
  /\ init_headers (init (tokenCall (this w))) !! "Authorization" = None
  /\ init_headers (init (tokenCall (this w))) !! "Content-Type"
     = Some "application/json"
  /\ match settle (fetch (sent w) (tokenCall (this w))) with
     | Raised e =>
         request route options w = (Raised e, afterCall w (tokenCall (this w)))
     | Resolved answer =>
         let w1 := withToken (afterCall w (tokenCall (this w))) (get "token" answer) in
         let call := routeCall (this w1) route (default noOptions options) in
         request route options w = (settle (fetch (sent w1) call), afterCall w1 call)
         /\ token (this (snd (request route options w))) = get "token" answer
         /\ sent (snd (request route options w))
            = (sent w ++ [tokenCall (this w); call])%list
         /\ (default ∅ (options ≫= opt_headers) !! "Authorization" = None ->
             init_headers (init call) !! "Authorization"
             = if truthy (get "token" answer)
               then Some ("Bearer " ++ template (get "token" answer)) else None)
     end.
Proof.
  intros Hreq Htok Hmeans.
  assert (default true (options ≫= opt_requireToken) = true) as Hreq'
    by (by destruct (options ≫= opt_requireToken) as [[|]|]).
  split; [done|]. split.
  { unfold tokenCall; simpl.
    rewrite lookup_spread, lookup_optional, lookup_singleton_ne by done.
    rewrite (bool_decide_eq_false_2 ("origin" = "Authorization")) by done.
    by rewrite andb_false_r. }
  split.
  { unfold tokenCall; simpl. by rewrite lookup_spread, lookup_singleton_eq. }
  rewrite request_run, Hreq', Htok, Hmeans. simpl.
  destruct (settle (fetch (sent w) (tokenCall (this w)))) as [answer|e]; [|done].
  simpl. split_and!; [done..| |].
  - by rewrite <- app_assoc.
  - intros Hcaller.
    etrans; [exact (routeCall_authorization
                      (this (withToken (afterCall w (tokenCall (this w)))
                               (get "token" answer)))
                      route (default noOptions options))|].
    rewrite requireToken_default, Hreq'.
    assert (opt_headers (default noOptions options) = options ≫= opt_headers) as ->
      by (by destruct options).
    by rewrite Hcaller.
Qed.

(** X22. [post] is [request] with the header
    [Content-Type: application/json], which the caller's headers replace
    if they name it, and with a method of its own: POST when the
    caller's options have no [method] member, the caller's method when
    they give one, and GET when they hold [method: undefined], since the
    spread writes [undefined] over POST and [request] then falls back to
    its default. [requireToken], [params] and [body] pass through
    unchanged, and so does what is put in [Authorization]. *)
Theorem post_defaults route options this0 :
  post route options = request route (Some (postOptions options))
  /\ init_method (init (routeCall this0 route (postOptions options)))
     = match methodOf options with
       | Missing => POST
       | Undefined => GET
       | Given method => method
       end
  /\ init_headers (init (routeCall this0 route (postOptions options))) !! "Content-Type"
     = Some (default "application/json"
               (default ∅ (options ≫= opt_headers) !! "Content-Type"))
  /\ init_headers (init (routeCall this0 route (postOptions options))) !! "Authorization"
     = init_headers (init (routeCall this0 route (default noOptions options)))
         !! "Authorization"
  /\ input (routeCall this0 route (postOptions options))
     = input (routeCall this0 route (default noOptions options))
  /\ init_body (init (routeCall this0 route (postOptions options)))
     = options ≫= opt_body.
Proof.
  split; [done|]. split.
  { unfold routeCall, postOptions; simpl. by destruct (methodOf options). }
  split.
  { unfold routeCall, postOptions; simpl. rewrite !lookup_spread.
    destruct (default ∅ (options ≫= opt_headers) !! "Content-Type") as [v|]; simpl;
      [done|]. by rewrite lookup_singleton_eq. }
  split.
  { rewrite !routeCall_authorization. unfold postOptions; simpl.
    rewrite lookup_spread, lookup_singleton_ne by done.
    destruct options as [options|]; simpl; [|done].
    by destruct (default ∅ (opt_headers options) !! "Authorization"). }
  split; by destruct options.
Qed.

(** X23. [init] does nothing when a truthy token is held and [force] is
    not set: no call, the instance as it was. Otherwise, given [app] and
    [domain], it makes exactly the token call; if that resolves, the
    answer's [token] is stored, and if it does not, the token stays as it
    was. The other fields never change, and an [init] that has left a
    truthy token makes a further plain [init] do nothing. *)
Theorem init_once force w :
  (truthy (token (this w)) = true -> default false force = false ->
   init_ force w = (Resolved tt, w))
  /\ (truthy (token (this w)) = false \/ default false force = true ->
      (truthyString (app (this w)) && truthyString (domain (this w)))%bool = true ->
      sent (snd (init_ force w)) = (sent w ++ [tokenCall (this w)])%list
      /\ match settle (fetch (sent w) (tokenCall (this w))) with
         | Resolved answer =>
             fst (init_ force w) = Resolved tt
             /\ token (this (snd (init_ force w))) = get "token" answer
         | Raised e =>
             fst (init_ force w) = Raised e
             /\ token (this (snd (init_ force w))) = token (this w)
         end)
  /\ (url (this (snd (init_ force w))) = url (this w)
      /\ app (this (snd (init_ force w))) = app (this w)
      /\ domain (this (snd (init_ force w))) = domain (this w)
      /\ origin (this (snd (init_ force w))) = origin (this w))
  /\ (truthy (token (this (snd (init_ force w)))) = true ->
      init_ None (snd (init_ force w)) = (Resolved tt, snd (init_ force w))).
Proof.
  split; [|split; [|split]].
  - intros Htok Hforce. by rewrite init_run, Htok, Hforce.
  - intros Hneed Hmeans. rewrite init_run, Hmeans.
    assert ((truthy (token (this w)) && negb (default false force))%bool = false) as ->.
    { destruct Hneed as [-> | ->]; [done|]. by rewrite andb_false_r. }
    by destruct (settle _).
  - rewrite init_run.
    destruct (_ && negb _)%bool; [done|].
    destruct (_ && _)%bool; [|done]. by destruct (settle _).
  - intros Htok. by rewrite (init_run None), Htok.
Qed.

(** X24. The constructor throws exactly when [domain] is a non-empty
    string that [isDomain] rejects and that is not ['localhost'], and then
    with ASSETS_API_INVALID_PARAM; otherwise the instance holds the
    properties as given. [fromToken] never throws, and the instance it
    makes from an empty token has neither a token nor the means to
    generate one. *)
Theorem constructor_validates props :
  (forall e,
     constructor props = inl e
     <-> (exists d, props_domain props = Some d /\ d <> "" /\ isDomain d = false
                    /\ d <> "localhost")
         /\ e = newTxBuildError ASSETS_API_INVALID_PARAM
                  (Some (templateString (ErrorMessages ASSETS_API_INVALID_PARAM)
                         ++ ": domain")))
  /\ (forall this0,
        constructor props = inr this0 ->
        url this0 = props_url props /\ app this0 = props_app props
        /\ domain this0 = props_domain props /\ origin this0 = props_origin props
        /\ token this0 = JString <$> props_token props)
  /\ (forall url0 token0 origin0,
        exists this0,
          fromToken url0 token0 origin0 = inr this0
          /\ (token0 = "" -> noCredentials this0)).
Proof.
  split; [|split].
  - intros e. unfold constructor; simpl. unfold truthyString.
    destruct (props_domain props) as [d|]; simpl.
    2: { split; [done|]. by intros [(d & [=] & _) _]. }
    destruct (bool_decide_reflect (d <> "")) as [Hd|Hd]; simpl.
    2: { split; [done|]. intros [(d' & [= <-] & Hd' & _) _]. done. }
    destruct (isDomain d) eqn:Hdom; simpl.
    { split; [done|]. intros [(d' & [= <-] & _ & Hdom' & _) _]. congruence. }
    destruct (bool_decide_reflect (d <> "localhost")) as [Hl|Hl]; simpl.
    + split; [intros [= <-]; split; [by exists d | done] | by intros [_ ->]].
    + split; [done|]. intros [(d' & [= <-] & _ & _ & Hl') _]. done.
  - intros this0. unfold constructor; simpl.
    destruct (_ && _)%bool; [done|]. by intros [= <-].
  - intros url0 token0 origin0. eexists. split; [done|].
    intros ->. by split.
Qed.

End ServiceFacts.

Lemma request_needs_credentials_witness :
  @Service.getUtxos ServiceFixture.platform "tb1q" None
    (ServiceFixture.fresh ServiceFixture.anonymous)
  = (Service.Raised
       (Service.BuildError (@Service.missingAppDomain ServiceFixture.platform)),
     ServiceFixture.fresh ServiceFixture.anonymous).
Proof.
  destruct (@request_needs_credentials ServiceFixture.platform
              (ServiceFixture.fresh ServiceFixture.anonymous))
    as (_ & _ & _ & _ & _ & _ & Hlist & _).
  { by split. }
  exact (proj2 (Hlist "tb1q" None)).
Defined.

Lemma request_resolves_ok_witness :
  @Service.truthy ServiceFixture.platform (Some (Service.JArray [])) = true.
Proof.
  exact (proj1 (@request_resolves_ok ServiceFixture.platform
                  "/bitcoin/v1/address/tb1q/unspent" None
                  (ServiceFixture.fresh ServiceFixture.withSecret)
                  (Service.JArray []) eq_refl)).
Defined.

Lemma request_sends_one_witness :
  Service.init_headers
    (Service.init
       (@Service.routeCall ServiceFixture.platform ServiceFixture.withSecret
          "/bitcoin/v1/address/tb1q/unspent"
          (@Service.noOptions ServiceFixture.platform)))
    !! "Authorization"
  = Some "Bearer secret".
Proof.
  exact (proj2 (@request_sends_one ServiceFixture.platform
                  "/bitcoin/v1/address/tb1q/unspent" None
                  (ServiceFixture.fresh ServiceFixture.withSecret)
                  (or_intror eq_refl))).
Defined.

Lemma request_generates_token_witness :
  Service.token
    (Service.this
       (snd (@Service.request ServiceFixture.platform
               "/bitcoin/v1/address/tb1q/unspent" None
               (ServiceFixture.fresh ServiceFixture.registered))))
  = Some (Service.JString "abc").
Proof.
  pose proof (@request_generates_token ServiceFixture.platform
                "/bitcoin/v1/address/tb1q/unspent" None
                (ServiceFixture.fresh ServiceFixture.registered)
                ltac:(discriminate) eq_refl eq_refl) as (_ & _ & _ & Hrun).
  destruct (Service.settle _) as [answer|e] eqn:Hfirst in Hrun;
    [|by vm_compute in Hfirst].
  destruct Hrun as (_ & Htoken & _). rewrite Htoken.
  vm_compute in Hfirst. by injection Hfirst as <-.
Defined.

(** * The errors of the sdk package *)

(** X25. A [TxBuildError] keeps the code it is made with. Made without
    a message, it takes the table's message for its code, and
    ['Unknown error'] exactly for the code UNKNOWN and for a number the
    table does not list; a message that is given is kept as it is, an
    empty one too. No two codes share a message, so a default message
    tells the code. *)
Theorem TxBuildError_message (code : Z) :
  SdkError.code (SdkError.new code None) = code
  /\ (forall entry,
        SdkError.ErrorMessages code = Some entry ->
        SdkError.message (SdkError.new code None) = entry /\ entry <> "")
  /\ (SdkError.message (SdkError.new code None) = "Unknown error"
      <-> code = SdkError.UNKNOWN \/ SdkError.ErrorMessages code = None)
  /\ (forall message,
        SdkError.message (SdkError.new code (Some message)) = message
        /\ SdkError.code (SdkError.new code (Some message)) = code)
  /\ (forall code',
        is_Some (SdkError.ErrorMessages code) ->
        SdkError.message (SdkError.new code' None)
          = SdkError.message (SdkError.new code None) ->
        code' = code \/ (code = SdkError.UNKNOWN /\ SdkError.ErrorMessages code' = None)).
Proof.
  split; [done|].
  unfold SdkError.new, SdkError.ErrorMessages; simpl.
  split.
  { intros entry. repeat case_decide; intros [= <-]; by split. }
  split.
  { repeat case_decide; subst; split; try done; try (by left); try (by right);
      intros [? | ?]; done. }
  split; [done|].
  intros code' Hsome.
  repeat case_decide; subst; simpl in *; try (by left); try done;
    try (by destruct Hsome); by right.
Qed.
